(** * Software-project bot: the query core of [mongodb_connector.py] and the
      tool router of [event_handler.py]

    A shallow embedding of the connector's operations over a model of the
    document store, and of the router over an abstract connector.

    Conventions.
    - Python values are the inductive [value]; dicts are association lists
      in insertion order.  Text is a byte string (ASCII); numbers are
      integers (floating point is outside the model).
    - A collection is the list of its documents in store order.
    - An operation of the connector returns the Python dict it builds;
      exceptions raised inside its [try] block are the left summand of
      [exc] and are turned into [{"error": str(e)}] by [catching].
    - Arguments have the types the docstrings and the function catalog
      declare: texts, optional texts, identifiers (a text or a native
      identifier) and integers.
    - The store is the model of the next sections: equality and [$in]
      conditions, regular expressions made of literal characters and the
      wild card, [$and] and [$or]; documents are found in store order.
      Printing to the console is left out.
    - The order in which a Python set is listed is not the store's and
      not the language's: it is a parameter, a [set_order], of the
      operations that list a set. *)

From Stdlib Require Import List String Ascii ZArith NArith Bool Lia.
From Stdlib Require Import Permutation Sorted DecimalString.
Import ListNotations.

Local Open Scope string_scope.
Local Open Scope Z_scope.

(* ===================================================================== *)
(** * Python and BSON values *)
(* ===================================================================== *)

(** A naive [datetime.datetime] (pymongo decodes dates without a time
    zone unless asked otherwise). *)
Record datetime := mk_datetime {
  dt_year : N; dt_month : N; dt_day : N;
  dt_hour : N; dt_minute : N; dt_second : N;
  dt_microsecond : N
}.

(** [VOid hex] is a [bson.ObjectId]; [hex] is [str] of it: twelve bytes
    written as 24 lower-case hexadecimal digits. *)
#[warnings="-register-all"]
Inductive value : Type :=
| VNone
| VBool (b : bool)
| VInt (z : Z)
| VStr (s : string)
| VOid (hex : string)
| VDate (d : datetime)
| VList (items : list value)
| VDict (items : list (string * value)).

(** Induction over values, with the hypotheses for the elements of a
    list and the values of a dict. *)
Section ValueInd.
Variable P : value -> Prop.
Hypothesis HNone : P VNone.
Hypothesis HBool : forall b, P (VBool b).
Hypothesis HInt : forall z, P (VInt z).
Hypothesis HStr : forall s, P (VStr s).
Hypothesis HOid : forall h, P (VOid h).
Hypothesis HDate : forall d, P (VDate d).
Hypothesis HList : forall l, Forall P l -> P (VList l).
Hypothesis HDict : forall kv, Forall (fun p => P (snd p)) kv -> P (VDict kv).

Fixpoint value_ind_nested (v : value) : P v :=
  match v with
  | VNone => HNone
  | VBool b => HBool b
  | VInt z => HInt z
  | VStr s => HStr s
  | VOid h => HOid h
  | VDate d => HDate d
  | VList l =>
      HList l ((fix go (l : list value) : Forall P l :=
                  match l with
                  | [] => Forall_nil _
                  | x :: r => Forall_cons _ (value_ind_nested x) (go r)
                  end) l)
  | VDict kv =>
      HDict kv ((fix go (kv : list (string * value))
                   : Forall (fun p => P (snd p)) kv :=
                   match kv with
                   | [] => Forall_nil _
                   | p :: r => Forall_cons _ (value_ind_nested (snd p)) (go r)
                   end) kv)
  end.
End ValueInd.

(** ** Text helpers *)

Definition str_of_N (n : N) : string := NilZero.string_of_uint (N.to_uint n).

(** [str(z)] of a Python int. *)
Definition str_of_Z (z : Z) : string := NilZero.string_of_int (Z.to_int z).

Fixpoint repeat_char (c : ascii) (n : nat) : string :=
  match n with
  | O => EmptyString
  | S k => String c (repeat_char c k)
  end.

(** [%0<w>d] of a natural number. *)
Definition zero_pad (w : nat) (n : N) : string :=
  let s := str_of_N n in
  repeat_char "0"%char (w - String.length s) ++ s.

(** [datetime.isoformat(sep)] of a naive datetime: the microseconds are
    printed only when they are not zero. *)
Definition isoformat_sep (sep : string) (d : datetime) : string :=
  zero_pad 4 (dt_year d) ++ "-" ++ zero_pad 2 (dt_month d) ++ "-" ++
  zero_pad 2 (dt_day d) ++ sep ++ zero_pad 2 (dt_hour d) ++ ":" ++
  zero_pad 2 (dt_minute d) ++ ":" ++ zero_pad 2 (dt_second d) ++
  (if N.eqb (dt_microsecond d) 0 then ""
   else "." ++ zero_pad 6 (dt_microsecond d)).

(** [datetime.isoformat()] *)
Definition isoformat (d : datetime) : string := isoformat_sep "T" d.

(* ===================================================================== *)
(** * Document normalizer: [serialize_mongo_doc] *)
(* ===================================================================== *)

Fixpoint serialize_mongo_doc (doc : value) : value :=
  match doc with
  | VList l => VList (map serialize_mongo_doc l)
  | VDict kv => VDict (map (fun p => (fst p, serialize_mongo_doc (snd p))) kv)
  | VOid hex => VStr hex
  | VDate d => VStr (isoformat d)
  | other => other
  end.

(** ** The normalizer over Python objects

    Lists and dicts are objects that hold references; [heap] is the
    store of objects, an address being a position in it.  The normalizer
    builds its result with comprehensions and [str]: it allocates new
    objects and writes to none.  [fuel] bounds the depth of the
    recursion. *)

Inductive obj :=
| ONone
| OBool (b : bool)
| OInt (z : Z)
| OStr (s : string)
| OOid (hex : string)
| ODate (d : datetime)
| OList (items : list nat)
| ODict (items : list (string * nat)).

Definition heap := list obj.

Definition alloc (h : heap) (o : obj) : heap * nat := ((h ++ [o])%list, List.length h).

(** A comprehension whose body may allocate: the heap goes from one
    element to the next. *)
Fixpoint comprehension {A B} (body : heap -> A -> option (heap * B))
    (h : heap) (l : list A) : option (heap * list B) :=
  match l with
  | [] => Some (h, [])
  | x :: r =>
      match body h x with
      | None => None
      | Some (h1, y) =>
          match comprehension body h1 r with
          | None => None
          | Some (h2, ys) => Some (h2, y :: ys)
          end
      end
  end.

Fixpoint serialize_heap (fuel : nat) (h : heap) (doc : nat) : option (heap * nat) :=
  match fuel with
  | O => None
  | S fuel' =>
    match nth_error h doc with
    | None => None
    | Some (OList items) =>
        match comprehension (serialize_heap fuel') h items with
        | None => None
        | Some (h1, out) => Some (alloc h1 (OList out))
        end
    | Some (ODict items) =>
        match comprehension
                (fun h1 kv =>
                   match serialize_heap fuel' h1 (snd kv) with
                   | None => None
                   | Some (h2, r) => Some (h2, (fst kv, r))
                   end) h items with
        | None => None
        | Some (h1, out) => Some (alloc h1 (ODict out))
        end
    | Some (OOid hex) => Some (alloc h (OStr hex))
    | Some (ODate d) => Some (alloc h (OStr (isoformat d)))
    | Some _ => Some (h, doc)
    end
  end.

Fixpoint all_some {A B} (f : A -> option B) (l : list A) : option (list B) :=
  match l with
  | [] => Some []
  | x :: r =>
      match f x, all_some f r with
      | Some y, Some ys => Some (y :: ys)
      | _, _ => None
      end
  end.

(** The value an address stands for. *)
Fixpoint heap_value (fuel : nat) (h : heap) (a : nat) : option value :=
  match fuel with
  | O => None
  | S fuel' =>
    match nth_error h a with
    | None => None
    | Some ONone => Some VNone
    | Some (OBool b) => Some (VBool b)
    | Some (OInt z) => Some (VInt z)
    | Some (OStr s) => Some (VStr s)
    | Some (OOid x) => Some (VOid x)
    | Some (ODate d) => Some (VDate d)
    | Some (OList items) =>
        option_map VList (all_some (heap_value fuel' h) items)
    | Some (ODict items) =>
        option_map VDict
          (all_some (fun kv => option_map (pair (fst kv)) (heap_value fuel' h (snd kv)))
                    items)
    end
  end.

(* ===================================================================== *)
(** * Equality, truth value and hashing of values *)
(* ===================================================================== *)

Definition datetime_eqb (a b : datetime) : bool :=
  N.eqb (dt_year a) (dt_year b) && N.eqb (dt_month a) (dt_month b) &&
  N.eqb (dt_day a) (dt_day b) && N.eqb (dt_hour a) (dt_hour b) &&
  N.eqb (dt_minute a) (dt_minute b) && N.eqb (dt_second a) (dt_second b) &&
  N.eqb (dt_microsecond a) (dt_microsecond b).

(** Equality of two stored values as the store compares them: same type
    and same content (a text never equals an identifier; the fields of an
    embedded document are compared in order). *)
Fixpoint value_eqb (a b : value) : bool :=
  match a, b with
  | VNone, VNone => true
  | VBool x, VBool y => Bool.eqb x y
  | VInt x, VInt y => Z.eqb x y
  | VStr x, VStr y => String.eqb x y
  | VOid x, VOid y => String.eqb x y
  | VDate x, VDate y => datetime_eqb x y
  | VList xs, VList ys =>
      (fix go (xs ys : list value) : bool :=
         match xs, ys with
         | [], [] => true
         | x :: xs', y :: ys' => value_eqb x y && go xs' ys'
         | _, _ => false
         end) xs ys
  | VDict xs, VDict ys =>
      (fix go (xs ys : list (string * value)) : bool :=
         match xs, ys with
         | [], [] => true
         | p :: xs', q :: ys' =>
             String.eqb (fst p) (fst q) && value_eqb (snd p) (snd q) && go xs' ys'
         | _, _ => false
         end) xs ys
  | _, _ => false
  end.

(** Python's [==] on the hashable values: as [value_eqb], and [True == 1],
    [False == 0]. *)
Definition py_eqb (a b : value) : bool :=
  match a, b with
  | VBool x, VInt y => Z.eqb (if x then 1 else 0) y
  | VInt x, VBool y => Z.eqb x (if y then 1 else 0)
  | _, _ => value_eqb a b
  end.

(** Python's truth value: [if v:]. *)
Definition truthy (v : value) : bool :=
  match v with
  | VNone => false
  | VBool b => b
  | VInt z => negb (Z.eqb z 0)
  | VStr s => negb (String.eqb s "")
  | VOid _ => true
  | VDate _ => true
  | VList l => match l with [] => false | _ => true end
  | VDict kv => match kv with [] => false | _ => true end
  end.

(** [str(v)] of a scalar.  The expertise analysis formats the elements of
    a set, which are scalars; the text of a list or of a dict is not
    modelled, and the empty text stands for it. *)
Definition py_str (v : value) : string :=
  match v with
  | VNone => "None"
  | VBool true => "True"
  | VBool false => "False"
  | VInt z => str_of_Z z
  | VStr s => s
  | VOid h => h
  | VDate d => isoformat_sep " " d
  | VList _ | VDict _ => ""
  end.

(** An optional text argument ([None] when absent) and an identifier
    argument, which is a text or a native identifier, as Python values. *)
Definition opt_text (o : option string) : value :=
  match o with
  | Some s => VStr s
  | None => VNone
  end.

Inductive ident :=
| IdText (s : string)
| IdNative (hex : string).

Definition ident_value (i : ident) : value :=
  match i with
  | IdText s => VStr s
  | IdNative h => VOid h
  end.

Definition opt_ident (o : option ident) : value :=
  match o with
  | Some i => ident_value i
  | None => VNone
  end.

(** ** Exceptions *)

(** [inl msg] is a raised exception [e] with [str(e) = msg]. *)
Definition exc (A : Type) : Type := (string + A)%type.

Definition ret {A} (a : A) : exc A := inr a.
Definition raise {A} (msg : string) : exc A := inl msg.
Definition bind {A B} (m : exc A) (k : A -> exc B) : exc B :=
  match m with
  | inl e => inl e
  | inr a => k a
  end.

Notation "x <- m ;; k" := (bind m (fun x => k))
  (at level 61, m at next level, right associativity).

Fixpoint mapM {A B} (f : A -> exc B) (l : list A) : exc (list B) :=
  match l with
  | [] => ret []
  | x :: r => y <- f x ;; ys <- mapM f r ;; ret (y :: ys)
  end.

(** ** Dicts *)

Definition dict := list (string * value).

(** [try: ... except Exception as e: return {"error": str(e)}] *)
Definition catching (body : exc dict) : dict :=
  match body with
  | inl msg => [("error", VStr msg)]
  | inr result => result
  end.

Fixpoint dict_get (k : string) (d : dict) : option value :=
  match d with
  | [] => None
  | (k', v) :: r => if String.eqb k k' then Some v else dict_get k r
  end.

(** [d[k]]: raises [KeyError(k)], whose [str] is the quoted key. *)
Definition getitem (d : dict) (k : string) : exc value :=
  match dict_get k d with
  | Some v => ret v
  | None => raise ("'" ++ k ++ "'")
  end.

(** [k in d] *)
Definition has_key (k : string) (d : dict) : bool :=
  match dict_get k d with
  | Some _ => true
  | None => false
  end.

(* ===================================================================== *)
(** * Native identifiers: [bson.ObjectId] *)
(* ===================================================================== *)

Definition is_hex_digit (c : ascii) : bool :=
  let n := nat_of_ascii c in
  ((48 <=? n) && (n <=? 57) || (65 <=? n) && (n <=? 70)
   || (97 <=? n) && (n <=? 102))%nat.

Definition is_ascii_space (c : ascii) : bool :=
  let n := nat_of_ascii c in
  ((n =? 32) || (9 <=? n) && (n <=? 13))%nat.

Definition lower_char (c : ascii) : ascii :=
  let n := nat_of_ascii c in
  if ((65 <=? n) && (n <=? 90))%nat then ascii_of_nat (n + 32) else c.

(** [bytes.fromhex(s)], given as the hexadecimal text of the bytes: pairs
    of hexadecimal digits, ASCII white space allowed between the pairs. *)
Fixpoint fromhex (s : string) : option string :=
  match s with
  | EmptyString => Some EmptyString
  | String c r =>
      if is_ascii_space c then fromhex r
      else match r with
           | String c2 r2 =>
               if is_hex_digit c && is_hex_digit c2
               then option_map
                      (fun t => String (lower_char c) (String (lower_char c2) t))
                      (fromhex r2)
               else None
           | EmptyString => None
           end
  end.

(** [ObjectId.is_valid(v)]: an identifier, or a text of 24 characters that
    [bytes.fromhex] accepts. *)
Definition ObjectId_is_valid (v : value) : bool :=
  match v with
  | VOid _ => true
  | VStr s =>
      (String.length s =? 24)%nat
      && match fromhex s with Some _ => true | None => false end
  | _ => false
  end.

(** [ObjectId(v)] where [ObjectId.is_valid(v)].  A text of 24 characters
    with white space in it is valid for [bson] and gives an identifier of
    fewer than twelve bytes; what the store does with such an identifier
    is outside the model, which compares it as any other value. *)
Definition ObjectId (v : value) : value :=
  match v with
  | VStr s => match fromhex s with Some h => VOid h | None => v end
  | _ => v
  end.

(** [ObjectId(x) if ObjectId.is_valid(x) else x] *)
Definition as_object_id (v : value) : value :=
  if ObjectId_is_valid v then ObjectId v else v.

(* ===================================================================== *)
(** * The document store *)
(* ===================================================================== *)

Definition document := dict.
Definition collection := list document.

(** The collections of the database, by name.  [db[name]] of a name that
    is not listed is an empty collection. *)
Definition database := list (string * collection).

Fixpoint db_collection (db : database) (name : string) : collection :=
  match db with
  | [] => []
  | (n, c) :: r => if String.eqb name n then c else db_collection r name
  end.

Definition list_collection_names (db : database) : list string := map fst db.

(** ** Regular expressions of the store

    [{"$regex": p, "$options": "i"}] searches the text for a match of [p]
    anywhere, letters compared without case.  The model covers the
    patterns made of literal characters and the wild card [.], which
    matches any character but a line feed; [modelled_pattern] tells
    whether a pattern is one of them, and operations that pass a pattern
    of the caller to the store are undefined ([None]) on the others. *)

Definition is_regex_meta (c : ascii) : bool :=
  existsb (Ascii.eqb c)
    (list_ascii_of_string "\^$.|?*+()[]{}").

Definition modelled_pattern (p : string) : bool :=
  forallb (fun c => Ascii.eqb c "."%char || negb (is_regex_meta c))
    (list_ascii_of_string p).

Definition pattern_char_matches (p c : ascii) : bool :=
  if Ascii.eqb p "."%char then negb (Ascii.eqb c "010"%char)
  else Ascii.eqb (lower_char p) (lower_char c).

Fixpoint regex_match_here (p s : string) : bool :=
  match p with
  | EmptyString => true
  | String pc p' =>
      match s with
      | EmptyString => false
      | String sc s' => pattern_char_matches pc sc && regex_match_here p' s'
      end
  end.

Fixpoint regex_search_i (p s : string) : bool :=
  regex_match_here p s
  || match s with
     | EmptyString => false
     | String _ s' => regex_search_i p s'
     end.

(** ** Queries

    A query is a dict; its entries are ANDed.  An entry is a field with a
    condition, or [$and] / [$or] over a list of queries. *)

Inductive cond :=
| CEq (v : value)              (* {field: v} *)
| CIn (vs : list value)        (* {field: {"$in": vs}} *)
| CRegexI (pattern : string).  (* {field: {"$regex": pattern, "$options": "i"}} *)

#[warnings="-register-all"]
Inductive clause :=
| Field (name : string) (c : cond)
| And (qs : list (list clause))
| Or (qs : list (list clause)).

Definition query := list clause.

(** A field equals [v] when it holds [v] or is an array with the element
    [v]; a missing field equals only [None]. *)
Definition field_equals (fv : option value) (v : value) : bool :=
  match fv with
  | None => value_eqb v VNone
  | Some x =>
      value_eqb x v
      || match x with
         | VList xs => existsb (fun e => value_eqb e v) xs
         | _ => false
         end
  end.

Definition text_matches (p : string) (v : value) : bool :=
  match v with
  | VStr s => regex_search_i p s
  | _ => false
  end.

Definition cond_matches (fv : option value) (c : cond) : bool :=
  match c with
  | CEq v => field_equals fv v
  | CIn vs => existsb (field_equals fv) vs
  | CRegexI p =>
      match fv with
      | Some (VList xs) => existsb (text_matches p) xs
      | Some x => text_matches p x
      | None => false
      end
  end.

Fixpoint clause_matches (d : document) (c : clause) : bool :=
  match c with
  | Field f cnd => cond_matches (dict_get f d) cnd
  | And qs => forallb (fun q => forallb (clause_matches d) q) qs
  | Or qs => existsb (fun q => forallb (clause_matches d) q) qs
  end.

Definition matches (q : query) (d : document) : bool :=
  forallb (clause_matches d) q.

(** Every pattern of the query is within the modelled regular expressions. *)
Fixpoint clause_modelled (c : clause) : bool :=
  match c with
  | Field _ (CRegexI p) => modelled_pattern p
  | Field _ _ => true
  | And qs => forallb (fun q => forallb clause_modelled q) qs
  | Or qs => forallb (fun q => forallb clause_modelled q) qs
  end.

Definition query_modelled (q : query) : bool := forallb clause_modelled q.

(** ** Cursors *)

(** [collection.find(q)]: the matching documents in store order. *)
Definition find (c : collection) (q : query) : list document :=
  filter (matches q) c.

(** [collection.find(q, {field: 1})]: of each matching document, its
    [_id] and the named field, where present. *)
Definition find_projected (c : collection) (q : query) (field : string)
  : list document :=
  map (filter (fun kv => String.eqb (fst kv) "_id" || String.eqb (fst kv) field))
      (find c q).

Definition find_one (c : collection) (q : query) : option document :=
  match find c q with
  | [] => None
  | d :: _ => Some d
  end.

Definition count_documents (c : collection) (q : query) : Z :=
  Z.of_nat (List.length (find c q)).

(** [cursor.skip(n)] refuses a negative offset. *)
Definition cursor_skip (n : Z) (docs : list document) : exc (list document) :=
  if n <? 0 then raise "skip must be >= 0"
  else ret (skipn (Z.to_nat n) docs).

(** [cursor.limit(n)]: a limit of 0 is no limit; a negative limit is its
    absolute value, sent as one batch (the size of a batch, which caps
    what a negative limit returns, is not modelled). *)
Definition cursor_limit (n : Z) (docs : list document) : list document :=
  if n =? 0 then docs else firstn (Z.to_nat (Z.abs n)) docs.

(** Distinct values in order of first occurrence. *)
Fixpoint distinct_values (eqb : value -> value -> bool) (seen l : list value)
  : list value :=
  match l with
  | [] => seen
  | x :: r =>
      if existsb (eqb x) seen then distinct_values eqb seen r
      else distinct_values eqb (seen ++ [x]) r
  end.

(** [collection.distinct(field, q)]: the distinct values of a top-level
    field over the matching documents, the elements of an array counted
    one by one. *)
Definition distinct (c : collection) (field : string) (q : query) : list value :=
  distinct_values value_eqb []
    (flat_map (fun d => match dict_get field d with
                        | Some (VList xs) => xs
                        | Some x => [x]
                        | None => []
                        end) (find c q)).

(* ===================================================================== *)
(** * [MongoDBConnector] *)
(* ===================================================================== *)

(** [if c: q[field] = v]; the fields a query is given are all different,
    so the assignment adds an entry. *)
Definition set_if (c : bool) (field : string) (v : value) (q : query) : query :=
  if c then (q ++ [Field field (CEq v)])%list else q.

Definition project_not_found (project_name : string) : dict :=
  [("error", VStr ("Project '" ++ project_name ++ "' not found."))].

(** The query [fetch_project_issues] builds from the issue systems of
    the project and its filters. *)
Definition fetch_project_issues_query (issue_system_ids : list value)
    (status priority issue_type : option string)
    (assignee_id reporter_id : option ident) : query :=
  let query := [Field "issue_system_id" (CIn issue_system_ids)] in
  let query := set_if (truthy (opt_text status)) "status" (opt_text status) query in
  let query := set_if (truthy (opt_text priority)) "priority" (opt_text priority) query in
  let query := set_if (truthy (opt_text issue_type)) "issue_type" (opt_text issue_type) query in
  let query := set_if (truthy (opt_ident assignee_id)) "assignee_id"
                      (as_object_id (opt_ident assignee_id)) query in
  let query := set_if (truthy (opt_ident reporter_id)) "reporter_id"
                      (as_object_id (opt_ident reporter_id)) query in
  query.

Definition fetch_project_issues (db : database) (project_name : string)
    (status priority issue_type : option string)
    (assignee_id reporter_id : option ident) (page page_size : Z) : dict :=
  catching (
    match find_one (db_collection db "project")
                   [Field "name" (CEq (VStr project_name))] with
    | None => ret (project_not_found project_name)
    | Some project =>
      if negb (truthy (VDict project)) then ret (project_not_found project_name)
      else
      project_id <- getitem project "_id" ;;
      let issue_systems_list :=
        find (db_collection db "issue_system")
             [Field "project_id" (CEq project_id)] in
      issue_system_ids <-
        mapM (fun system => getitem system "_id") issue_systems_list ;;
      let query := fetch_project_issues_query issue_system_ids status priority
                     issue_type assignee_id reporter_id in
      let skip := (page - 1) * page_size in
      skipped <- cursor_skip skip (find (db_collection db "issue") query) ;;
      let issues := cursor_limit page_size skipped in
      ret [("issues", serialize_mongo_doc (VList (map VDict issues)));
           ("page", VInt page);
           ("page_size", VInt page_size);
           ("total_count", VInt (count_documents (db_collection db "issue") query))]
    end).

(** The query [count_issues] builds. *)
Definition count_issues_query (issue_system_ids : list value)
    (status priority issue_type : option string)
    (assignee_id reporter_id : option ident) : query :=
  let query := [Field "issue_system_id" (CIn issue_system_ids)] in
  let query := set_if (truthy (opt_text status)) "status" (opt_text status) query in
  let query := set_if (truthy (opt_text priority)) "priority" (opt_text priority) query in
  let query := set_if (truthy (opt_text issue_type)) "issue_type" (opt_text issue_type) query in
  let query := set_if (truthy (opt_ident assignee_id)) "assignee_id"
                      (as_object_id (opt_ident assignee_id)) query in
  let query := set_if (truthy (opt_ident reporter_id)) "reporter_id"
                      (as_object_id (opt_ident reporter_id)) query in
  query.

Definition count_issues (db : database) (project_name : string)
    (status priority issue_type : option string)
    (assignee_id reporter_id : option ident) : dict :=
  catching (
    match find_one (db_collection db "project")
                   [Field "name" (CEq (VStr project_name))] with
    | None => ret (project_not_found project_name)
    | Some project =>
      if negb (truthy (VDict project)) then ret (project_not_found project_name)
      else
      project_id <- getitem project "_id" ;;
      let issue_systems :=
        find (db_collection db "issue_system")
             [Field "project_id" (CEq project_id)] in
      issue_system_ids <-
        mapM (fun system => getitem system "_id") issue_systems ;;
      let query := count_issues_query issue_system_ids status priority
                     issue_type assignee_id reporter_id in
      let count := count_documents (db_collection db "issue") query in
      ret [("count", VInt count)]
    end).

(** The filter mapping of [list_unique_values] is a query of the caller;
    the result is [None] when it holds a pattern outside the modelled
    regular expressions (and the store gets to see it). *)
Definition list_unique_values (db : database) (collection_name attribute_name : string)
    (filters : option query) : option dict :=
  if negb (existsb (String.eqb collection_name) (list_collection_names db))
  then Some [("error", VStr ("Collection '" ++ collection_name ++ "' does not exist."))]
  else
    let query := match filters with
                 | Some (c :: f) => c :: f
                 | _ => []
                 end in
    if negb (query_modelled query) then None
    else
      let unique_values := distinct (db_collection db collection_name) attribute_name query in
      Some [("unique_values", serialize_mongo_doc (VList unique_values))].

(** ** Sets

    [list(s)] gives the elements of a set [s] in the order of its hash
    table.  The order depends on the hashes of the elements and on the
    interpreter (the hash of a text changes from one process to the
    next); the language does not say what it is.  A [set_order] stands
    for it: [set_iter] takes the elements of the set in the order in
    which they were added and gives them in the order of iteration, which
    is some rearrangement of them. *)
Record set_order := {
  set_iter : list value -> list value;
  set_iter_perm : forall l, Permutation (set_iter l) l
}.

(** A set comprehension over [vals], listed: adding a list or a dict
    raises [TypeError]; of equal elements the set keeps the first. *)
Definition hashable (v : value) : bool :=
  match v with
  | VList _ | VDict _ => false
  | _ => true
  end.

Definition unhashable_message (v : value) : string :=
  match v with
  | VList _ => "unhashable type: 'list'"
  | _ => "unhashable type: 'dict'"
  end.

Definition set_of (order : set_order) (vals : list value) : exc (list value) :=
  match List.find (fun v => negb (hashable v)) vals with
  | Some v => raise (unhashable_message v)
  | None => ret (set_iter order (distinct_values py_eqb [] vals))
  end.

(** The query [get_project_assignees] builds; it has no assignee filter. *)
Definition get_project_assignees_query (issue_system_ids : list value)
    (status priority issue_type : option string)
    (reporter_id : option ident) : query :=
  let query := [Field "issue_system_id" (CIn issue_system_ids)] in
  let query := set_if (truthy (opt_text status)) "status" (opt_text status) query in
  let query := set_if (truthy (opt_text priority)) "priority" (opt_text priority) query in
  let query := set_if (truthy (opt_text issue_type)) "issue_type" (opt_text issue_type) query in
  let query := set_if (truthy (opt_ident reporter_id)) "reporter_id"
                      (as_object_id (opt_ident reporter_id)) query in
  query.

Definition get_project_assignees (order : set_order) (db : database)
    (project_name : string)
    (status priority issue_type : option string)
    (reporter_id : option ident) : dict :=
  catching (
    match find_one (db_collection db "project")
                   [Field "name" (CEq (VStr project_name))] with
    | None => ret (project_not_found project_name)
    | Some project =>
      if negb (truthy (VDict project)) then ret (project_not_found project_name)
      else
      project_id <- getitem project "_id" ;;
      let issue_systems_list :=
        find (db_collection db "issue_system")
             [Field "project_id" (CEq project_id)] in
      issue_system_ids <-
        mapM (fun system => getitem system "_id") issue_systems_list ;;
      let query := get_project_assignees_query issue_system_ids status priority
                     issue_type reporter_id in
      let issues := find_projected (db_collection db "issue") query "assignee_id" in
      assignee_ids <-
        set_of order
               (flat_map (fun issue => match dict_get "assignee_id" issue with
                                              | Some v => [v]
                                              | None => []
                                              end) issues) ;;
      ret [("assignees", serialize_mongo_doc (VList assignee_ids));
           ("count", VInt (Z.of_nat (List.length assignee_ids)))]
    end).

Definition get_issue_details (db : database) (issue_identifier : string) : dict :=
  catching (
    let query := [Field "external_id" (CEq (VStr issue_identifier))] in
    match find_one (db_collection db "issue") query with
    | None => ret [("error", VStr ("Issue matching '" ++ issue_identifier ++ "' not found."))]
    | Some issue =>
      if negb (truthy (VDict issue))
      then ret [("error", VStr ("Issue matching '" ++ issue_identifier ++ "' not found."))]
      else
      issue_id <- getitem issue "_id" ;;
      let comments := find (db_collection db "issue_comment") [Field "issue_id" (CEq issue_id)] in
      issue_id <- getitem issue "_id" ;;
      let events := find (db_collection db "event") [Field "issue_id" (CEq issue_id)] in
      issue_id <- getitem issue "_id" ;;
      let linked_commits :=
        find (db_collection db "commit") [Field "linked_issue_ids" (CEq issue_id)] in
      ret [("issue", serialize_mongo_doc (VDict issue));
           ("comments", serialize_mongo_doc (VList (map VDict comments)));
           ("events", serialize_mongo_doc (VList (map VDict events)));
           ("linked_commits", serialize_mongo_doc (VList (map VDict linked_commits)))]
    end).

Definition get_issue_comments (db : database) (issue_id : ident) : dict :=
  catching (
    let comments :=
      find (db_collection db "issue_comment")
           [Field "issue_id" (CEq (ident_value issue_id))] in
    ret [("comments", serialize_mongo_doc (VList (map VDict comments)))]).

(** ** Expertise scoring *)

Definition _get_issue_system_ids (db : database) (project_name : string)
  : exc (list value) :=
  match find_one (db_collection db "project")
                 [Field "name" (CEq (VStr project_name))] with
  | None => ret []
  | Some project =>
    if negb (truthy (VDict project)) then ret []
    else
    project_id <- getitem project "_id" ;;
    let issue_systems :=
      find (db_collection db "issue_system")
           [Field "project_id" (CEq project_id)] in
    mapM (fun system => getitem system "_id") issue_systems
  end.

(** [s[-4:]] *)
Definition last4 (s : string) : string :=
  substring (String.length s - 4) 4 s.

(** [f"Dev-{assignee_id[-4:]}" if isinstance(assignee_id, str)
    else f"Dev-{str(assignee_id)}"] *)
Definition developer_name_of (assignee_id : value) : string :=
  match assignee_id with
  | VStr s => "Dev-" ++ last4 s
  | _ => "Dev-" ++ py_str assignee_id
  end.

(** The text of an optional argument that holds one. *)
Definition text_of (o : option string) : string :=
  match o with
  | Some s => s
  | None => ""
  end.

(** [x["expertise_score"]], the key of the sort. *)
Definition expertise_score_of (x : value) : Z :=
  match x with
  | VDict d => match dict_get "expertise_score" d with
               | Some (VInt z) => z
               | _ => 0
               end
  | _ => 0
  end.

(** [list.sort(key=..., reverse=True)]: descending keys; the sort is
    stable, so entries with equal keys keep their order. *)
Fixpoint insert_desc {A} (key : A -> Z) (x : A) (l : list A) : list A :=
  match l with
  | [] => [x]
  | y :: r => if key y <=? key x then x :: y :: r
              else y :: insert_desc key x r
  end.

Definition sort_desc {A} (key : A -> Z) (l : list A) : list A :=
  fold_right (insert_desc key) [] l.

(** The three counts of one candidate, in the order the loop body asks
    the store for them. *)
Definition component_query (ids : list value) (assignee_id : value) (component : string)
  : query :=
  [And [[Field "issue_system_id" (CIn ids)];
        [Field "assignee_id" (CEq assignee_id)];
        [Or [[Field "component" (CRegexI component)];
             [Field "title" (CRegexI component)]]]]].

Definition keyword_query (ids : list value) (assignee_id : value) (keywords : string)
  : query :=
  [And [[Field "issue_system_id" (CIn ids)];
        [Field "assignee_id" (CEq assignee_id)];
        [Or [[Field "title" (CRegexI keywords)];
             [Field "desc" (CRegexI keywords)]]]]].

Definition resolved_query (ids : list value) (assignee_id : value) : query :=
  [And [[Field "issue_system_id" (CIn ids)];
        [Field "assignee_id" (CEq assignee_id)];
        [Field "status" (CEq (VStr "Resolved"))]]].

(** The body of the loop over the assignees; [recommendations] is the
    list the loop appends to. *)
Fixpoint expertise_loop (db : database) (project_name : string)
    (component keywords : option string)
    (assignees : list value) (recommendations : list value) : exc (list value) :=
  match assignees with
  | [] => ret recommendations
  | assignee_id :: rest =>
    if negb (truthy assignee_id)
    then expertise_loop db project_name component keywords rest recommendations
    else
      component_experience <-
        (if truthy (opt_text component)
         then ids <- _get_issue_system_ids db project_name ;;
              ret (count_documents (db_collection db "issue")
                     (component_query ids assignee_id (text_of component)))
         else ret 0) ;;
      keyword_experience <-
        (if truthy (opt_text keywords)
         then ids <- _get_issue_system_ids db project_name ;;
              ret (count_documents (db_collection db "issue")
                     (keyword_query ids assignee_id (text_of keywords)))
         else ret 0) ;;
      ids <- _get_issue_system_ids db project_name ;;
      let resolved_count :=
        count_documents (db_collection db "issue") (resolved_query ids assignee_id) in
      let expertise_score :=
        component_experience * 2 + keyword_experience + resolved_count in
      if expertise_score >? 0
      then
        let developer_name := developer_name_of assignee_id in
        expertise_loop db project_name component keywords rest
          (recommendations ++
           [VDict [("developer_id", VStr (py_str assignee_id));
                   ("developer_name", VStr developer_name);
                   ("expertise_score", VInt expertise_score);
                   ("component_experience", VInt component_experience);
                   ("keyword_experience", VInt keyword_experience);
                   ("resolved_issues", VInt resolved_count)]])%list
      else expertise_loop db project_name component keywords rest recommendations
  end.

(** Whether the arguments that reach the store as patterns are within the
    modelled regular expressions. *)
Definition patterns_modelled (component keywords : option string) : bool :=
  (negb (truthy (opt_text component)) || modelled_pattern (text_of component))
  && (negb (truthy (opt_text keywords)) || modelled_pattern (text_of keywords)).

(** The result is [None] where the store is given a pattern outside the
    modelled regular expressions: some assignee is analysed and
    [patterns_modelled] fails. *)
Definition analyze_developer_expertise (order : set_order) (db : database)
    (project_name : string) (component keywords : option string) : option dict :=
  let assignees_result :=
    get_project_assignees order db project_name None None None None in
  if has_key "error" assignees_result then Some assignees_result
  else
    let assignees := match dict_get "assignees" assignees_result with
                     | Some (VList l) => l
                     | _ => []
                     end in
    if existsb truthy assignees && negb (patterns_modelled component keywords)
    then None
    else Some (catching (
      recommendations <-
        expertise_loop db project_name component keywords assignees [] ;;
      let recommendations := sort_desc expertise_score_of recommendations in
      let top_recommendations :=
        if (3 <=? List.length recommendations)%nat
        then firstn 3 recommendations
        else recommendations in
      ret [("recommendations", VList top_recommendations);
           ("total_candidates", VInt (Z.of_nat (List.length recommendations)))])).

(* ===================================================================== *)
(** * [EventHandler]: the tool router *)
(* ===================================================================== *)

(** No identifier and no datetime at any depth: what [json.dumps] can
    write. *)
Fixpoint json_plain (v : value) : bool :=
  match v with
  | VOid _ | VDate _ => false
  | VList l => forallb json_plain l
  | VDict kv => forallb (fun p => json_plain (snd p)) kv
  | _ => true
  end.

(** [json.dumps(v)], given as the document the text denotes; a value that
    is not plain raises [TypeError]. *)
Definition json_dumps (v : value) : exc value :=
  if json_plain v then ret v
  else raise "Object is not JSON serializable".

(** [args[k]]: [KeyError] on a dict without the key, [TypeError] on
    anything that is not a dict. *)
Definition subscript (args : value) (k : string) : exc value :=
  match args with
  | VDict d => getitem d k
  | _ => raise "args is not subscriptable by a str"
  end.

(** [args.get(k, default)] *)
Definition args_get (args : value) (k : string) (default : value) : exc value :=
  match args with
  | VDict d => ret (match dict_get k d with Some v => v | None => default end)
  | _ => raise "args has no attribute 'get'"
  end.

(** The connector the handler is built with.  Each of its operations
    catches its own exceptions and returns a dict. *)
Record Connector := {
  conn_fetch_project_issues :
    value -> value -> value -> value -> value -> value -> value -> value -> value;
  conn_count_issues : value -> value -> value -> value -> value -> value -> value;
  conn_list_unique_values : value -> value -> value -> value;
  conn_get_project_assignees : value -> value -> value -> value -> value -> value;
  conn_get_issue_details : value -> value;
  conn_get_issue_comments : value -> value;
  conn_analyze_developer_expertise : value -> value -> value -> value
}.

(** A tool call of the batch.  [call_arguments] is what [json.loads]
    makes of the argument text of the call: the decoded value, or the
    exception it raises on a text that is not JSON. *)
Record tool_call := {
  call_id : string;
  call_name : string;
  call_arguments : exc value
}.

Record tool_output := {
  tool_call_id : string;
  output : value
}.

Record handler := {
  response_text : string;
  tool_outputs : list tool_output;
  run_id : option string;
  all_tools_done : bool;
  tools_called : bool
}.

Definition unsupported : value := VDict [("error", VStr "Unsupported function call.")].

Section Router.
Variable connector : Connector.

(** The body of the loop of [handle_requires_action] for one call. *)
Definition route (tool_call : tool_call) : exc tool_output :=
  let func_name := call_name tool_call in
  args <- call_arguments tool_call ;;
  result <-
    (if String.eqb func_name "fetch_project_issues" then
       project_name <- subscript args "project_name" ;;
       status <- args_get args "status" VNone ;;
       priority <- args_get args "priority" VNone ;;
       issue_type <- args_get args "issue_type" VNone ;;
       assignee_id <- args_get args "assignee_id" VNone ;;
       reporter_id <- args_get args "reporter_id" VNone ;;
       page <- args_get args "page" (VInt 1) ;;
       page_size <- args_get args "page_size" (VInt 50) ;;
       ret (conn_fetch_project_issues connector project_name status priority
              issue_type assignee_id reporter_id page page_size)
     else if String.eqb func_name "count_issues" then
       project_name <- subscript args "project_name" ;;
       status <- args_get args "status" VNone ;;
       priority <- args_get args "priority" VNone ;;
       issue_type <- args_get args "issue_type" VNone ;;
       assignee_id <- args_get args "assignee_id" VNone ;;
       reporter_id <- args_get args "reporter_id" VNone ;;
       ret (conn_count_issues connector project_name status priority
              issue_type assignee_id reporter_id)
     else if String.eqb func_name "list_unique_values" then
       collection_name <- subscript args "collection_name" ;;
       attribute_name <- subscript args "attribute_name" ;;
       filters <- args_get args "filters" VNone ;;
       ret (conn_list_unique_values connector collection_name attribute_name filters)
     else if String.eqb func_name "get_project_assignees" then
       project_name <- subscript args "project_name" ;;
       status <- args_get args "status" VNone ;;
       priority <- args_get args "priority" VNone ;;
       issue_type <- args_get args "issue_type" VNone ;;
       reporter_id <- args_get args "reporter_id" VNone ;;
       ret (conn_get_project_assignees connector project_name status priority
              issue_type reporter_id)
     else if String.eqb func_name "get_issue_details" then
       issue_identifier <- subscript args "issue_identifier" ;;
       ret (conn_get_issue_details connector issue_identifier)
     else if String.eqb func_name "get_issue_comments" then
       issue_id <- subscript args "issue_id" ;;
       ret (conn_get_issue_comments connector issue_id)
     else if String.eqb func_name "analyze_developer_expertise" then
       project_name <- subscript args "project_name" ;;
       component <- args_get args "component" VNone ;;
       keywords <- args_get args "keywords" VNone ;;
       ret (conn_analyze_developer_expertise connector project_name component keywords)
     else ret unsupported) ;;
  text <- json_dumps result ;;
  ret {| tool_call_id := call_id tool_call; output := text |}.

(** The handler after the batch; an exception of one call leaves the
    handler as it was and goes to the caller. *)
Definition handle_requires_action (self : handler) (tool_calls : list tool_call)
  : exc handler :=
  tool_outputs <- mapM route tool_calls ;;
  ret {| response_text := response_text self;
         tool_outputs := tool_outputs;
         run_id := run_id self;
         all_tools_done := true;
         tools_called := tools_called self |}.

(** [on_event] for an event named [event] of the run [data_id] that
    carries [tool_calls]. *)
Definition on_event (self : handler) (event data_id : string)
    (tool_calls : list tool_call) : exc handler :=
  if String.eqb event "thread.run.requires_action" then
    handle_requires_action
      {| response_text := response_text self;
         tool_outputs := tool_outputs self;
         run_id := Some data_id;
         all_tools_done := all_tools_done self;
         tools_called := true |}
      tool_calls
  else ret self.
End Router.

(** The seven operations of the catalog. *)
Definition catalog : list string :=
  ["fetch_project_issues"; "get_issue_comments"; "count_issues";
   "get_project_assignees"; "list_unique_values"; "get_issue_details";
   "analyze_developer_expertise"].

(* ===================================================================== *)
(** * Schema introspection: [get_collection_schemas] *)
(* ===================================================================== *)

(** [type(v).__name__] of a value read from the store.  An integer is
    stored as pymongo writes it, in 32 bits where it fits and in 64 bits
    otherwise; a 64-bit integer is read back as [bson.int64.Int64]. *)
Definition type_name (v : value) : string :=
  match v with
  | VNone => "NoneType"
  | VBool _ => "bool"
  | VInt z => if (-2147483648 <=? z) && (z <=? 2147483647) then "int" else "Int64"
  | VStr _ => "str"
  | VOid _ => "ObjectId"
  | VDate _ => "datetime"
  | VList _ => "list"
  | VDict _ => "dict"
  end.

(** [d[k] = v]: the value of a key that is there is replaced in place, a
    new key goes to the end. *)
Fixpoint dict_set (k : string) (v : value) (d : dict) : dict :=
  match d with
  | [] => [(k, v)]
  | (k', v') :: r =>
      if String.eqb k k' then (k, v) :: r else (k', v') :: dict_set k v r
  end.

(** The body of the loop over the collections: [find_one()] without a
    filter is the first document of the collection. *)
Definition collection_schema (db : database) (collection : string) : value :=
  match find_one (db_collection db collection) [] with
  | None => VDict []
  | Some sample_doc =>
      if truthy (VDict sample_doc)
      then VDict (map (fun kv => (fst kv, VStr (type_name (snd kv)))) sample_doc)
      else VDict []
  end.

Definition get_collection_schemas (db : database) : dict :=
  let schemas := [] in
  let collections := list_collection_names db in
  fold_left (fun schemas collection =>
               dict_set collection (collection_schema db collection) schemas)
            collections schemas.

(* ===================================================================== *)
(** * [EventHandler]: the text of the answer *)
(* ===================================================================== *)

(** [on_text_delta(delta, snapshot)], for [delta.value] a text or [None];
    the text that is printed is left out. *)
Definition on_text_delta (self : handler) (delta_value : option string) : handler :=
  if truthy (opt_text delta_value)
  then {| response_text := response_text self ++ text_of delta_value;
          tool_outputs := tool_outputs self;
          run_id := run_id self;
          all_tools_done := all_tools_done self;
          tools_called := tools_called self |}
  else self.

(* ===================================================================== *)
(** * The function catalog: [register_functions] *)
(* ===================================================================== *)

(** [{"type": "string", "description": d}] *)
Definition string_param (d : string) : value :=
  VDict [("type", VStr "string"); ("description", VStr d)].

(** [{"name": n, "description": d, "parameters": {"type": "object",
    "properties": props, "required": required}}] *)
Definition function_entry (n d : string) (props : dict) (required : list string)
  : value :=
  VDict [("name", VStr n);
         ("description", VStr d);
         ("parameters",
          VDict [("type", VStr "object");
                 ("properties", VDict props);
                 ("required", VList (map VStr required))])].

Definition register_functions : list value :=
  [function_entry "fetch_project_issues"
     "Fetch all issues for a specified project with optional filters."
     [("project_name", string_param "The name of the project. No capital letters.");
      ("status", string_param "Filter issues by status, e.g., 'Open', 'In progress', 'Resolved', 'Blocked', 'Closed'. Always starting with capital letter.");
      ("priority", string_param "Filter issues by priority, e.g., 'Critical', 'Major', 'Minor'.");
      ("issue_type", string_param "Filter issues by type, e.g., 'Bug', 'Improvement', 'Task'.");
      ("assignee_id", string_param "Filter issues by the ID of the assignee.");
      ("reporter_id", string_param "Filter issues by the ID of the reporter.")]
     ["project_name"];
   function_entry "get_issue_comments"
     "Retrieve all comments for a specified issue."
     [("issue_id", string_param "The ID of the issue.")]
     ["issue_id"];
   function_entry "count_issues"
     "Count the number of issues in a project based on filters like developer ID, issue status, priority, or issue type."
     [("project_name", string_param "The name of the project.");
      ("status", string_param "Filter issues by status, e.g., 'Open', 'Closed', 'Resolved'.");
      ("priority", string_param "Filter issues by priority, e.g., 'Critical', 'Major', 'Minor'.");
      ("issue_type", string_param "Filter issues by type, e.g., 'Bug', 'Improvement', 'Task'.");
      ("assignee_id", string_param "Filter issues by the ID of the assignee.");
      ("reporter_id", string_param "Filter issues by the ID of the reporter.")]
     ["project_name"];
   function_entry "get_project_assignees"
     "Retrieve a list of assignees working on issues in a specific project and their total number, with optional filters such as issue priority or status."
     [("project_name", string_param "The name of the project.");
      ("status", string_param "Filter issues by status.");
      ("priority", string_param "Filter issues by priority.");
      ("issue_type", string_param "Filter issues by type.");
      ("reporter_id", string_param "Filter issues by reporter ID.")]
     ["project_name"];
   function_entry "list_unique_values"
     "List unique values of a specified attribute in the issue collection or other collections."
     [("collection_name", string_param "The name of the MongoDB collection.");
      ("attribute_name", string_param "The attribute for which to list unique values.");
      ("filters", VDict [("type", VStr "object");
                         ("description", VStr "Filters to narrow down the unique values.");
                         ("additionalProperties", VBool true)])]
     ["collection_name"; "attribute_name"; "filters"];
   function_entry "get_issue_details"
     "Retrieve detailed information about a specific issue using approximate title matching, including comments, events, and related commits."
     [("issue_identifier", string_param "The approximate title or ID of the issue to retrieve details for.")]
     ["issue_identifier"];
   function_entry "analyze_developer_expertise"
     "Analyze developer expertise to recommend the best assignee for an issue based on component and keyword experience."
     [("project_name", string_param "The name of the project.");
      ("component", string_param "The component of the issue (e.g., 'security', 'authentication', 'ui').");
      ("keywords", string_param "Keywords related to the issue (e.g., 'authentication', 'bug', 'crash').")]
     ["project_name"]].

(* ===================================================================== *)
(** * Notions the properties are stated with *)
(* ===================================================================== *)

Local Open Scope list_scope.

(** [normal_form v w]: [w] has the structure of [v], with every
    identifier replaced by its text, every datetime by its ISO-8601 text,
    and every other scalar as it is. *)
#[warnings="-register-all"]
Inductive normal_form : value -> value -> Prop :=
| nf_none : normal_form VNone VNone
| nf_bool b : normal_form (VBool b) (VBool b)
| nf_int z : normal_form (VInt z) (VInt z)
| nf_str s : normal_form (VStr s) (VStr s)
| nf_oid h : normal_form (VOid h) (VStr h)
| nf_date d : normal_form (VDate d) (VStr (isoformat d))
| nf_list l l' :
    Forall2 normal_form l l' -> normal_form (VList l) (VList l')
| nf_dict kv kv' :
    Forall2 (fun p q => fst p = fst q /\ normal_form (snd p) (snd q)) kv kv' ->
    normal_form (VDict kv) (VDict kv').
(** What one recursive call gives, for the calls of depth [f]. *)
Definition serializes_at (f : nat) : Prop :=
  forall h a v,
    heap_value f h a = Some v ->
    exists h' a' added,
      serialize_heap f h a = Some (h', a')
      /\ h' = h ++ added
      /\ heap_value f h' a' = Some (serialize_mongo_doc v).

(** A record with an identifier, a datetime and a nested list, as a value
    and as objects. *)
Definition sample_doc : value :=
  VDict [("_id", VOid "5f0000000000000000000001");
         ("tags", VList [VOid "5f0000000000000000000001";
                         VDate (mk_datetime 2024 3 9 7 5 0 0);
                         VInt 7])].

Definition sample_heap : heap :=
  [OOid "5f0000000000000000000001";
   ODate (mk_datetime 2024 3 9 7 5 0 0);
   OInt 7;
   OList [0; 1; 2]%nat;
   ODict [("_id", 0%nat); ("tags", 3%nat)]].

(** ** Projects *)

(** The project name is present in the store. *)
Definition project_exists (db : database) (project_name : string) : bool :=
  existsb (fun project => field_equals (dict_get "name" project) (VStr project_name))
          (db_collection db "project").

(** Some issue has the external identifier. *)
Definition issue_known (db : database) (issue_identifier : string) : bool :=
  existsb (fun issue => field_equals (dict_get "external_id" issue)
                                     (VStr issue_identifier))
          (db_collection db "issue").

(** The store lists the collection. *)
Definition collection_known (db : database) (collection_name : string) : bool :=
  existsb (String.eqb collection_name) (list_collection_names db).

(** Every document of the store has its [_id]; stated for the two
    collections a project is resolved through. *)
Definition has_ids (db : database) : bool :=
  forallb (has_key "_id") (db_collection db "project")
  && forallb (has_key "_id") (db_collection db "issue_system").

(** The assignee of an issue, where it has one, is a scalar (not an array
    and not an embedded document). *)
Definition scalar_assignees (db : database) : bool :=
  forallb (fun issue => match dict_get "assignee_id" issue with
                        | Some v => hashable v
                        | None => true
                        end) (db_collection db "issue").

(** The identifiers of the issue systems of a project: those of every
    issue system whose [project_id] is the identifier of the project. *)
Definition project_systems (db : database) (project_name : string) : list value :=
  match find_one (db_collection db "project")
                 [Field "name" (CEq (VStr project_name))] with
  | None => []
  | Some project =>
      match dict_get "_id" project with
      | None => []
      | Some project_id =>
          flat_map (fun system => match dict_get "_id" system with
                                  | Some i => [i]
                                  | None => []
                                  end)
                   (find (db_collection db "issue_system")
                         [Field "project_id" (CEq project_id)])
      end
  end.

(** ** A sample store

    One project with one issue system and seven issues of four
    developers, whose identifiers are stored as text; one issue has no
    assignee. *)

Definition demo_issue (n : Z) (assignee : string) (fields : dict) : document :=
  ("_id", VInt n) :: ("issue_system_id", VOid "5f00000000000000000000aa")
  :: ("assignee_id", VStr assignee) :: fields.

Definition demo_issues : collection :=
  [demo_issue 1 "dev-anna"
     [("external_id", VStr "DEMO-1"); ("component", VStr "UI");
      ("title", VStr "t1"); ("status", VStr "Resolved")];
   demo_issue 2 "dev-anna"
     [("component", VStr "ui-kit"); ("title", VStr "t2"); ("status", VStr "Open")];
   demo_issue 3 "dev-anna" [("component", VStr "gui"); ("status", VStr "Open")];
   demo_issue 4 "dev-bob" [("title", VStr "Crash on start"); ("status", VStr "Resolved")];
   demo_issue 5 "dev-bob" [("desc", VStr "random CRASH"); ("status", VStr "resolved")];
   demo_issue 6 "dev-carl"
     [("component", VStr "ui"); ("desc", VStr "crash"); ("status", VStr "Resolved")];
   demo_issue 7 "dev-dora" [("component", VStr "db"); ("status", VStr "Open")];
   [("_id", VInt 8); ("issue_system_id", VOid "5f00000000000000000000aa");
    ("status", VStr "Open")]].

Definition demo_db : database :=
  [("project", [[("_id", VOid "5f0000000000000000000001"); ("name", VStr "demo")]]);
   ("issue_system", [[("_id", VOid "5f00000000000000000000aa");
                      ("project_id", VOid "5f0000000000000000000001")]]);
   ("issue", demo_issues)].


(** ** Filters *)

(** A filter given as the empty text, read as a filter that is not given. *)
Definition omit_empty (o : option string) : option string :=
  match o with
  | Some s => if String.eqb s "" then None else Some s
  | None => None
  end.

Definition omit_empty_id (o : option ident) : option ident :=
  match o with
  | Some (IdText s) => if String.eqb s "" then None else Some (IdText s)
  | other => other
  end.

(** ** A store with native identifiers

    Issue b1 is assigned and reported by native identifiers and has one
    comment; issue b2 stores the identifier of its assignee as text;
    issue b3 has an assignee field that holds [None]. *)

Definition native_issues : collection :=
  [[("_id", VOid "5f00000000000000000000b1");
    ("issue_system_id", VOid "5f00000000000000000000aa");
    ("assignee_id", VOid "5f00000000000000000000ee");
    ("reporter_id", VOid "5f00000000000000000000e1");
    ("component", VStr "ui"); ("status", VStr "Resolved")];
   [("_id", VOid "5f00000000000000000000b2");
    ("issue_system_id", VOid "5f00000000000000000000aa");
    ("assignee_id", VStr "5f00000000000000000000ee");
    ("status", VStr "Open")];
   [("_id", VOid "5f00000000000000000000b3");
    ("issue_system_id", VOid "5f00000000000000000000aa");
    ("assignee_id", VNone);
    ("status", VStr "Open")]].

Definition native_db : database :=
  [("project", [[("_id", VOid "5f0000000000000000000001"); ("name", VStr "demo")]]);
   ("issue_system", [[("_id", VOid "5f00000000000000000000aa");
                      ("project_id", VOid "5f0000000000000000000001")]]);
   ("issue", native_issues);
   ("issue_comment", [[("_id", VOid "5f00000000000000000000c1");
                       ("issue_id", VOid "5f00000000000000000000b1");
                       ("comment", VStr "fixed")]])].

(** ** Sets of values *)

(** Two orders of iteration, for the examples: the order in which the
    elements were added, and its reverse. *)
Definition insertion_order : set_order :=
  {| set_iter := fun l => l;
     set_iter_perm := fun l => Permutation_refl l |}.

Definition reverse_order : set_order :=
  {| set_iter := @rev value;
     set_iter_perm := fun l => Permutation_sym (Permutation_rev l) |}.

(** No two entries of the list are equal. *)
Definition pairwise_distinct (eqb : value -> value -> bool) (l : list value) : Prop :=
  ForallOrdPairs (fun a b => eqb b a = false) l.

(** ** Expertise *)

(** The issue belongs to one of the issue systems [ids]. *)
Definition in_systems (ids : list value) (issue : document) : bool :=
  existsb (field_equals (dict_get "issue_system_id" issue)) ids.

(** The issue has the assignee [a]. *)
Definition assigned_to (a : value) (issue : document) : bool :=
  field_equals (dict_get "assignee_id" issue) a.

(** The field of the issue is matched by the pattern, letters compared
    without case. *)
Definition field_matches (field pattern : string) (issue : document) : bool :=
  cond_matches (dict_get field issue) (CRegexI pattern).

(** The number of issues of the project that have the assignee [a] and
    satisfy [extra]. *)
Definition count_issues_where (db : database) (project_name : string)
    (a : value) (extra : document -> bool) : Z :=
  Z.of_nat (List.length
    (filter (fun issue => in_systems (project_systems db project_name) issue
                          && assigned_to a issue && extra issue)
            (db_collection db "issue"))).

(** An argument that is given: present and not empty. *)
Definition given (o : option string) : bool :=
  match o with
  | Some s => negb (String.eqb s "")
  | None => false
  end.

Definition component_experience_of (db : database) (project_name : string)
    (component : option string) (a : value) : Z :=
  if given component
  then count_issues_where db project_name a
         (fun issue => field_matches "component" (text_of component) issue
                       || field_matches "title" (text_of component) issue)
  else 0.

Definition keyword_experience_of (db : database) (project_name : string)
    (keywords : option string) (a : value) : Z :=
  if given keywords
  then count_issues_where db project_name a
         (fun issue => field_matches "title" (text_of keywords) issue
                       || field_matches "desc" (text_of keywords) issue)
  else 0.

Definition resolved_count_of (db : database) (project_name : string) (a : value) : Z :=
  count_issues_where db project_name a
    (fun issue => field_equals (dict_get "status" issue) (VStr "Resolved")).

(** A candidate with its three counts. *)
Record candidate := {
  cand_id : value;
  cand_component : Z;
  cand_keyword : Z;
  cand_resolved : Z
}.

Definition score (c : candidate) : Z :=
  2 * cand_component c + cand_keyword c + cand_resolved c.

Definition candidate_of (db : database) (project_name : string)
    (component keywords : option string) (a : value) : candidate :=
  {| cand_id := a;
     cand_component := component_experience_of db project_name component a;
     cand_keyword := keyword_experience_of db project_name keywords a;
     cand_resolved := resolved_count_of db project_name a |}.

(** The entry of the recommendations for a candidate. *)
Definition recommendation (c : candidate) : value :=
  VDict [("developer_id", VStr (py_str (cand_id c)));
         ("developer_name", VStr (developer_name_of (cand_id c)));
         ("expertise_score", VInt (score c));
         ("component_experience", VInt (cand_component c));
         ("keyword_experience", VInt (cand_keyword c));
         ("resolved_issues", VInt (cand_resolved c))].


(** The candidates the analysis scores: the assignees that are not
    skipped, with their counts; and those with a score that is not 0. *)
Definition candidates (db : database) (project_name : string)
    (component keywords : option string) (assignees : list value) : list candidate :=
  map (candidate_of db project_name component keywords) (filter truthy assignees).

Definition scored (cs : list candidate) : list candidate :=
  filter (fun c => negb (score c =? 0)) cs.







(** The distinct values of the assignee field over the issues of the
    project, as stored. *)
Definition stored_assignees (db : database) (project_name : string) : list value :=
  distinct_values py_eqb []
    (flat_map (fun issue => match dict_get "assignee_id" issue with
                            | Some v => [v]
                            | None => []
                            end)
       (find (db_collection db "issue")
             (get_project_assignees_query (project_systems db project_name)
                None None None None))).

(** ** Router *)

(** The handler as [__init__] leaves it. *)
Definition new_handler : handler :=
  {| response_text := ""%string; tool_outputs := []; run_id := None;
     all_tools_done := false; tools_called := false |}.

(** A connector for examples: every operation returns [result]. *)
Definition constant_connector (result : value) : Connector :=
  {| conn_fetch_project_issues := fun _ _ _ _ _ _ _ _ => result;
     conn_count_issues := fun _ _ _ _ _ _ => result;
     conn_list_unique_values := fun _ _ _ => result;
     conn_get_project_assignees := fun _ _ _ _ _ => result;
     conn_get_issue_details := fun _ => result;
     conn_get_issue_comments := fun _ => result;
     conn_analyze_developer_expertise := fun _ _ _ => result |}.

Definition count_call : tool_call :=
  {| call_id := "call_1"; call_name := "count_issues";
     call_arguments := inr (VDict [("project_name", VStr "demo")]) |}.

Definition comments_call : tool_call :=
  {| call_id := "call_3"; call_name := "get_issue_comments";
     call_arguments := inr (VDict [("issue_id", VStr "DEMO-1")]) |}.

(** A call of a function that is not in the catalog, with arguments that
    decode. *)
Definition unknown_call : tool_call :=
  {| call_id := "call_2"; call_name := "delete_issue";
     call_arguments := inr (VDict [("issue_id", VStr "DEMO-1")]) |}.

(** The same call with an argument text that is not JSON. *)
Definition unknown_call_bad_text : tool_call :=
  {| call_id := "call_2"; call_name := "delete_issue";
     call_arguments := inl "Expecting property name enclosed in double quotes" |}.

(* ===================================================================== *)
(** * Notions of the further properties *)
(* ===================================================================== *)

(** A result is an error, [{"error": text}] and nothing else, or data
    without an [error] key. *)
Definition error_or_data (result : dict) : Prop :=
  (exists msg, result = [("error", VStr msg)]) \/ has_key "error" result = false.

(** ** Filters as conditions on an issue *)

(** A text filter that is given asks the field to equal it. *)
Definition text_filter (field : string) (wanted : option string) (issue : document)
  : bool :=
  if given wanted
  then field_equals (dict_get field issue) (VStr (text_of wanted))
  else true.

(** An identifier filter that is given asks the field to equal the
    normalized identifier. *)
Definition ident_filter (field : string) (wanted : option ident) (issue : document)
  : bool :=
  if truthy (opt_ident wanted)
  then field_equals (dict_get field issue) (as_object_id (opt_ident wanted))
  else true.

(** The issue is of one of the issue systems and passes every filter. *)
Definition selected (ids : list value) (s p t : option string)
    (a r : option ident) (issue : document) : bool :=
  in_systems ids issue
  && text_filter "status" s issue
  && text_filter "priority" p issue
  && text_filter "issue_type" t issue
  && ident_filter "assignee_id" a issue
  && ident_filter "reporter_id" r issue.

(** [o'] is the filter [o] or no filter. *)
Definition relaxes {A} (o' o : option A) : Prop := o' = o \/ o' = None.

(** The issues of a fetch result. *)
Definition fetched_issues (result : dict) : list value :=
  match dict_get "issues" result with
  | Some (VList l) => l
  | _ => []
  end.

(** ** A store with the records that refer to an issue *)

Definition tracker_db : database :=
  [("issue",
    [[("_id", VOid "5f00000000000000000000b1");
      ("external_id", VStr "DEMO-7"); ("title", VStr "Crash on start")];
     [("_id", VOid "5f00000000000000000000b2");
      ("external_id", VStr "DEMO-8"); ("title", VStr "Typo")]]);
   ("issue_comment",
    [[("_id", VInt 1); ("issue_id", VOid "5f00000000000000000000b1");
      ("comment", VStr "seen")];
     [("_id", VInt 2); ("issue_id", VOid "5f00000000000000000000b2");
      ("comment", VStr "fixed")];
     [("_id", VInt 3); ("issue_id", VOid "5f00000000000000000000b1");
      ("comment", VStr "again")]]);
   ("commit",
    [[("_id", VInt 10);
      ("linked_issue_ids", VList [VOid "5f00000000000000000000b2";
                                  VOid "5f00000000000000000000b1"])]]);
   ("empty", [])].

(** The records of a collection whose field refers to the identifier. *)
Definition referring (db : database) (collection field : string) (issue_id : value)
  : list document :=
  filter (fun d => field_equals (dict_get field d) issue_id)
         (db_collection db collection).

(** The document holds the value under the attribute, as the value of the
    field or as an element of the array in the field. *)
Definition holds_value (attribute : string) (d : document) (v : value) : Prop :=
  match dict_get attribute d with
  | Some (VList xs) => In v xs
  | Some x => v = x
  | None => False
  end.

(** The attribute names a field of the document itself, not a path into
    an embedded document. *)
Definition top_level (attribute : string) : bool :=
  negb (existsb (Ascii.eqb "."%char) (list_ascii_of_string attribute)).

(** The query a filter mapping stands for. *)
Definition filter_query (filters : option query) : query :=
  match filters with
  | Some q => q
  | None => []
  end.

(** ** Texts of identifiers *)

Fixpoint lower_str (s : string) : string :=
  match s with
  | EmptyString => EmptyString
  | String c r => String (lower_char c) (lower_str r)
  end.

Definition is_lower_hex (c : ascii) : bool :=
  let n := nat_of_ascii c in
  ((48 <=? n) && (n <=? 57) || (97 <=? n) && (n <=? 102))%nat.

(** 24 hexadecimal digits, in either case. *)
Definition hex_text (s : string) : bool :=
  (String.length s =? 24)%nat && forallb is_hex_digit (list_ascii_of_string s).

(** The text of an identifier as [str] gives it: 24 hexadecimal digits in
    lower case. *)
Definition canonical_id (h : string) : bool :=
  (String.length h =? 24)%nat && forallb is_lower_hex (list_ascii_of_string h).

(** ** The catalog and the router *)

(** The name, the declared parameters and the required parameters of an
    entry of the catalog. *)
Definition entry_name (entry : value) : string :=
  match entry with
  | VDict d => match dict_get "name" d with
               | Some (VStr n) => n
               | _ => ""%string
               end
  | _ => ""%string
  end.

Definition entry_parameters (entry : value) : dict :=
  match entry with
  | VDict d => match dict_get "parameters" d with
               | Some (VDict p) => p
               | _ => []
               end
  | _ => []
  end.

Definition entry_properties (entry : value) : list string :=
  match dict_get "properties" (entry_parameters entry) with
  | Some (VDict props) => map fst props
  | _ => []
  end.

Definition entry_required (entry : value) : list string :=
  match dict_get "required" (entry_parameters entry) with
  | Some (VList l) => flat_map (fun v => match v with
                                         | VStr s => [s]
                                         | _ => []
                                         end) l
  | _ => []
  end.

(** [args.get(k, default)] for arguments that are an object. *)
Definition argument (args : dict) (k : string) (default : value) : value :=
  match dict_get k args with
  | Some v => v
  | None => default
  end.

(** The operation of the connector that has the name, [getattr(connector,
    name)], applied to the operands in the order of its parameters; there
    is none for another name or another number of operands. *)
Definition call_method (c : Connector) (name : string) (operands : list value)
  : option value :=
  if String.eqb name "fetch_project_issues" then
    match operands with
    | [project_name; status; priority; issue_type; assignee_id; reporter_id;
       page; page_size] =>
        Some (conn_fetch_project_issues c project_name status priority issue_type
                assignee_id reporter_id page page_size)
    | _ => None
    end
  else if String.eqb name "count_issues" then
    match operands with
    | [project_name; status; priority; issue_type; assignee_id; reporter_id] =>
        Some (conn_count_issues c project_name status priority issue_type
                assignee_id reporter_id)
    | _ => None
    end
  else if String.eqb name "list_unique_values" then
    match operands with
    | [collection_name; attribute_name; filters] =>
        Some (conn_list_unique_values c collection_name attribute_name filters)
    | _ => None
    end
  else if String.eqb name "get_project_assignees" then
    match operands with
    | [project_name; status; priority; issue_type; reporter_id] =>
        Some (conn_get_project_assignees c project_name status priority issue_type
                reporter_id)
    | _ => None
    end
  else if String.eqb name "get_issue_details" then
    match operands with
    | [issue_identifier] => Some (conn_get_issue_details c issue_identifier)
    | _ => None
    end
  else if String.eqb name "get_issue_comments" then
    match operands with
    | [issue_id] => Some (conn_get_issue_comments c issue_id)
    | _ => None
    end
  else if String.eqb name "analyze_developer_expertise" then
    match operands with
    | [project_name; component; keywords] =>
        Some (conn_analyze_developer_expertise c project_name component keywords)
    | _ => None
    end
  else None.

(** A connector that returns what it was called with: the name of the
    operation and its operands. *)
Definition called (name : string) (operands : list value) : value :=
  VDict [("operation", VStr name); ("operands", VList operands)].

Definition recording_connector : Connector :=
  {| conn_fetch_project_issues := fun a1 a2 a3 a4 a5 a6 a7 a8 =>
       called "fetch_project_issues" [a1; a2; a3; a4; a5; a6; a7; a8];
     conn_count_issues := fun a1 a2 a3 a4 a5 a6 =>
       called "count_issues" [a1; a2; a3; a4; a5; a6];
     conn_list_unique_values := fun a1 a2 a3 =>
       called "list_unique_values" [a1; a2; a3];
     conn_get_project_assignees := fun a1 a2 a3 a4 a5 =>
       called "get_project_assignees" [a1; a2; a3; a4; a5];
     conn_get_issue_details := fun a1 => called "get_issue_details" [a1];
     conn_get_issue_comments := fun a1 => called "get_issue_comments" [a1];
     conn_analyze_developer_expertise := fun a1 a2 a3 =>
       called "analyze_developer_expertise" [a1; a2; a3] |}.

(** A call of [count_issues] without its project name. *)
Definition count_call_without_project : tool_call :=
  {| call_id := "call_4"; call_name := "count_issues";
     call_arguments := inr (VDict [("status", VStr "Open")]) |}.

(** ** Stores by the form of their identifiers *)

(** The assignee of every issue that has one is a native identifier or
    [None]. *)
Definition native_assignees (db : database) : bool :=
  forallb (fun issue => match dict_get "assignee_id" issue with
                        | Some (VOid _) | Some VNone | None => true
                        | Some _ => false
                        end) (db_collection db "issue").

(** A store in which an issue holds a list of assignees. *)
Definition shared_issue_db : database :=
  [("project", [[("_id", VInt 1); ("name", VStr "demo")]]);
   ("issue_system", [[("_id", VInt 2); ("project_id", VInt 1)]]);
   ("issue",
    [[("_id", VInt 3); ("issue_system_id", VInt 2); ("assignee_id", VStr "dev-anna")];
     [("_id", VInt 4); ("issue_system_id", VInt 2);
      ("assignee_id", VList [VStr "dev-anna"; VStr "dev-bob"])]])].

(** A store whose assignees are all native identifiers: two resolved
    issues of one developer and an issue without assignee. *)
Definition native_only_db : database :=
  [("project", [[("_id", VOid "5f0000000000000000000001"); ("name", VStr "demo")]]);
   ("issue_system", [[("_id", VOid "5f00000000000000000000aa");
                      ("project_id", VOid "5f0000000000000000000001")]]);
   ("issue",
    [[("_id", VOid "5f00000000000000000000b1");
      ("issue_system_id", VOid "5f00000000000000000000aa");
      ("assignee_id", VOid "5f00000000000000000000ee");
      ("component", VStr "ui"); ("status", VStr "Resolved")];
     [("_id", VOid "5f00000000000000000000b2");
      ("issue_system_id", VOid "5f00000000000000000000aa");
      ("assignee_id", VOid "5f00000000000000000000ee");
      ("title", VStr "ui crash"); ("status", VStr "Resolved")];
     [("_id", VOid "5f00000000000000000000b3");
      ("issue_system_id", VOid "5f00000000000000000000aa");
      ("assignee_id", VNone); ("status", VStr "Open")]])].

(* ===================================================================== *)
(** * The model at work *)
(* ===================================================================== *)

Example isoformat_ex :
  isoformat (mk_datetime 2024 3 9 7 5 0 0) = "2024-03-09T07:05:00"%string
  /\ isoformat (mk_datetime 2024 3 9 7 5 0 120) = "2024-03-09T07:05:00.000120"%string.
Proof. split; reflexivity. Qed.

Example ObjectId_ex :
  as_object_id (VStr "5F00000000000000000000EE") = VOid "5f00000000000000000000ee"
  /\ as_object_id (VStr "dev-anna") = VStr "dev-anna"
  /\ as_object_id (VStr "5f00000000000000000000zz") = VStr "5f00000000000000000000zz".
Proof. repeat split; reflexivity. Qed.

Example regex_ex :
  regex_search_i "crash" "Random CRASH at start" = true
  /\ regex_search_i "a.c" "xxABCxx" = true
  /\ regex_search_i "a.c" "xxACxx" = false
  /\ modelled_pattern "a.c" = true
  /\ modelled_pattern "c++" = false.
Proof. repeat split; reflexivity. Qed.

Example sort_desc_stable_ex :
  sort_desc fst [(3, "bob"); (7, "anna"); (3, "carl"); (4, "dora")]%string
  = [(7, "anna"); (4, "dora"); (3, "bob"); (3, "carl")]%string.
Proof. reflexivity. Qed.

(* ===================================================================== *)
(** * Properties of the normalizer *)
(* ===================================================================== *)

Lemma serialize_normal_form (v : value) : normal_form v (serialize_mongo_doc v).
Proof.
  induction v using value_ind_nested; simpl; try constructor.
  - induction H; simpl; constructor; auto.
  - induction H; simpl; constructor; auto.
Qed.

Lemma serialize_plain (v : value) : json_plain (serialize_mongo_doc v) = true.
Proof.
  induction v using value_ind_nested; simpl; auto.
  - induction H; simpl; auto. rewrite H. exact IHForall.
  - induction H; simpl; auto. rewrite H. exact IHForall.
Qed.

Lemma serialize_plain_id (v : value) :
  json_plain v = true -> serialize_mongo_doc v = v.
Proof.
  induction v using value_ind_nested; simpl; intros Hp; try reflexivity;
    try discriminate.
  - f_equal. induction H; simpl in *; auto.
    apply andb_prop in Hp as [Hx Hl]. f_equal; auto.
  - f_equal. induction H; simpl in *; auto.
    apply andb_prop in Hp as [Hx Hl]. destruct x as [k w]; simpl in *.
    f_equal; auto. f_equal; auto.
Qed.

Lemma serialize_idempotent (v : value) :
  serialize_mongo_doc (serialize_mongo_doc v) = serialize_mongo_doc v.
Proof. apply serialize_plain_id, serialize_plain. Qed.

(** ** Objects: the normalizer allocates and never writes *)

Lemma nth_error_extend {A} (h ext : list A) a o :
  nth_error h a = Some o -> nth_error (h ++ ext) a = Some o.
Proof.
  intros H. rewrite nth_error_app1; auto.
  apply nth_error_Some. congruence.
Qed.

Lemma all_some_ext {A B} (f g : A -> option B) (l : list A) vs :
  (forall x y, f x = Some y -> g x = Some y) ->
  all_some f l = Some vs -> all_some g l = Some vs.
Proof.
  intros Hfg. revert vs. induction l as [|x r IH]; simpl; intros vs H; auto.
  destruct (f x) as [y|] eqn:Ex; [|discriminate].
  destruct (all_some f r) as [ys|]; [|discriminate].
  rewrite (Hfg _ _ Ex), (IH _ eq_refl). exact H.
Qed.

Lemma heap_value_extend fuel : forall h ext a v,
  heap_value fuel h a = Some v -> heap_value fuel (h ++ ext) a = Some v.
Proof.
  induction fuel as [|f IH]; simpl; intros h ext a v H; [discriminate|].
  destruct (nth_error h a) as [o|] eqn:E; [|discriminate].
  rewrite (nth_error_extend _ ext _ _ E).
  destruct o; auto.
  - destruct (all_some (heap_value f h) items) as [vs|] eqn:Ev; [|discriminate].
    erewrite all_some_ext; [exact H| |exact Ev].
    intros x y Hx. now apply IH.
  - destruct (all_some _ items) as [vs|] eqn:Ev; [|discriminate].
    erewrite all_some_ext; [exact H| |exact Ev].
    intros [k d] y; simpl.
    destruct (heap_value f h d) eqn:Ed; [|discriminate].
    now rewrite (IH _ ext _ _ Ed).
Qed.

Lemma nth_error_alloc (h : heap) (o : obj) :
  nth_error (h ++ [o]) (List.length h) = Some o.
Proof. rewrite nth_error_app2, Nat.sub_diag; auto. Qed.

Lemma comprehension_list f (IH : serializes_at f) : forall items h vs,
  all_some (heap_value f h) items = Some vs ->
  exists h1 out added,
    comprehension (serialize_heap f) h items = Some (h1, out)
    /\ h1 = h ++ added
    /\ all_some (heap_value f h1) out = Some (map serialize_mongo_doc vs).
Proof.
  induction items as [|x r IHr]; simpl; intros h vs H.
  - inversion H; subst. exists h, [], []. rewrite app_nil_r. auto.
  - destruct (heap_value f h x) as [y|] eqn:Ex; [|discriminate].
    destruct (all_some (heap_value f h) r) as [ys|] eqn:Er; [|discriminate].
    inversion H; subst; clear H.
    destruct (IH _ _ _ Ex) as (h1 & x' & add1 & Hs & -> & Hv).
    assert (Er' : all_some (heap_value f (h ++ add1)) r = Some ys).
    { eapply all_some_ext; [|exact Er]. intros; now apply heap_value_extend. }
    destruct (IHr _ _ Er') as (h2 & out & add2 & Hc & -> & Hout).
    rewrite Hs, Hc. exists ((h ++ add1) ++ add2), (x' :: out), (add1 ++ add2).
    split; [reflexivity|]. split; [now rewrite app_assoc|].
    simpl. rewrite (heap_value_extend _ _ add2 _ _ Hv), Hout. reflexivity.
Qed.

Lemma comprehension_dict f (IH : serializes_at f) : forall items h vs,
  all_some (fun kv => option_map (pair (fst kv)) (heap_value f h (snd kv))) items
    = Some vs ->
  exists h1 out added,
    comprehension
      (fun h1 (kv : string * nat) =>
         match serialize_heap f h1 (snd kv) with
         | None => None
         | Some (h2, r) => Some (h2, (fst kv, r))
         end) h items = Some (h1, out)
    /\ h1 = h ++ added
    /\ all_some (fun kv => option_map (pair (fst kv)) (heap_value f h1 (snd kv))) out
       = Some (map (fun p => (fst p, serialize_mongo_doc (snd p))) vs).
Proof.
  induction items as [|[k x] r IHr]; simpl; intros h vs H.
  - inversion H; subst. exists h, [], []. rewrite app_nil_r. auto.
  - destruct (heap_value f h x) as [y|] eqn:Ex; [|discriminate]. simpl in H.
    destruct (all_some _ r) as [ys|] eqn:Er; [|discriminate].
    inversion H; subst; clear H.
    destruct (IH _ _ _ Ex) as (h1 & x' & add1 & Hs & -> & Hv).
    assert (Er' : all_some (fun kv => option_map (pair (fst kv))
                                        (heap_value f (h ++ add1) (snd kv))) r
                  = Some ys).
    { eapply all_some_ext; [|exact Er]. intros [k' d] p; simpl.
      destruct (heap_value f h d) eqn:Ed; [|discriminate].
      now rewrite (heap_value_extend _ _ add1 _ _ Ed). }
    destruct (IHr _ _ Er') as (h2 & out & add2 & Hc & -> & Hout).
    rewrite Hs, Hc. exists ((h ++ add1) ++ add2), ((k, x') :: out), (add1 ++ add2).
    split; [reflexivity|]. split; [now rewrite app_assoc|].
    simpl. rewrite (heap_value_extend _ _ add2 _ _ Hv), Hout. reflexivity.
Qed.

Lemma serialize_heap_refines fuel : serializes_at fuel.
Proof.
  induction fuel as [|f IH]; intros h a v H; simpl in *; [discriminate|].
  destruct (nth_error h a) as [o|] eqn:E; [|discriminate].
  destruct o; inversion H; subst; clear H;
    try (exists h, a, []; rewrite app_nil_r; simpl; rewrite E; now auto).
  - exists (h ++ [OStr hex]), (List.length h), [OStr hex].
    simpl. now rewrite nth_error_alloc.
  - exists (h ++ [OStr (isoformat d)]), (List.length h), [OStr (isoformat d)].
    simpl. now rewrite nth_error_alloc.
  - destruct (all_some (heap_value f h) items) as [vs|] eqn:Ev; [|discriminate].
    inversion H1; subst; clear H1.
    destruct (comprehension_list f IH _ _ _ Ev) as (h1 & out & add & Hc & -> & Ho).
    rewrite Hc. exists ((h ++ add) ++ [OList out]), (List.length (h ++ add)),
                  (add ++ [OList out]).
    split; [reflexivity|]. split; [now rewrite app_assoc|].
    simpl. rewrite nth_error_alloc.
    erewrite all_some_ext; [reflexivity| |exact Ho].
    intros; now apply heap_value_extend.
  - destruct (all_some _ items) as [vs|] eqn:Ev; [|discriminate].
    inversion H1; subst; clear H1.
    destruct (comprehension_dict f IH _ _ _ Ev) as (h1 & out & add & Hc & -> & Ho).
    rewrite Hc. exists ((h ++ add) ++ [ODict out]), (List.length (h ++ add)),
                  (add ++ [ODict out]).
    split; [reflexivity|]. split; [now rewrite app_assoc|].
    simpl. rewrite nth_error_alloc.
    erewrite all_some_ext; [reflexivity| |exact Ho].
    intros [k' d] p; simpl.
    destruct (heap_value f (h ++ add) d) eqn:Ed; [|discriminate].
    now rewrite (heap_value_extend _ _ [ODict out] _ _ Ed).
Qed.

(** C8.  Document normalization gives a value of the same structure in
    which identifiers are their text, datetimes their ISO-8601 text and
    the other scalars are unchanged; the result holds no identifier and
    no datetime at any depth; normalizing twice is normalizing once, and
    a value that is already plain is returned as it is; on Python
    objects, the normalizer only adds objects to the heap, so its input
    still stands for the same value afterwards. *)
Theorem serialize_mongo_doc_normalizes (v : value) :
  normal_form v (serialize_mongo_doc v)
  /\ json_plain (serialize_mongo_doc v) = true
  /\ serialize_mongo_doc (serialize_mongo_doc v) = serialize_mongo_doc v
  /\ (json_plain v = true -> serialize_mongo_doc v = v)
  /\ (forall fuel h a,
        heap_value fuel h a = Some v ->
        exists h' a' added,
          serialize_heap fuel h a = Some (h', a')
          /\ h' = h ++ added
          /\ heap_value fuel h' a = Some v
          /\ heap_value fuel h' a' = Some (serialize_mongo_doc v)).
Proof.
  split; [apply serialize_normal_form|].
  split; [apply serialize_plain|].
  split; [apply serialize_idempotent|].
  split; [apply serialize_plain_id|].
  intros fuel h a H.
  destruct (serialize_heap_refines fuel h a v H) as (h' & a' & added & Hs & -> & Hv).
  exists (h ++ added), a', added. repeat split; auto.
  now apply heap_value_extend.
Qed.

Lemma serialize_mongo_doc_normalizes_witness :
  json_plain (serialize_mongo_doc sample_doc) = true
  /\ heap_value 3 sample_heap 4 = Some sample_doc
  /\ exists h' a' added,
       serialize_heap 3 sample_heap 4 = Some (h', a')
       /\ h' = sample_heap ++ added
       /\ heap_value 3 h' 4 = Some sample_doc
       /\ heap_value 3 h' a' = Some (serialize_mongo_doc sample_doc).
Proof.
  destruct (serialize_mongo_doc_normalizes sample_doc) as (_ & Hp & _ & _ & Hh).
  split; [exact Hp|]. split; [reflexivity|].
  apply Hh. reflexivity.
Defined.

(* ===================================================================== *)
(** * The store and the resolution of a project *)
(* ===================================================================== *)

Lemma matches_field_eq f v d :
  matches [Field f (CEq v)] d = field_equals (dict_get f d) v.
Proof. unfold matches. simpl. apply andb_true_r. Qed.

Lemma existsb_field_eq f v c :
  existsb (matches [Field f (CEq v)]) c
  = existsb (fun d => field_equals (dict_get f d) v) c.
Proof.
  induction c as [|d r IH]; [reflexivity|].
  cbn [existsb]. now rewrite matches_field_eq, IH.
Qed.

Lemma find_one_none c q :
  existsb (matches q) c = false -> find_one c q = None.
Proof.
  unfold find_one, find. induction c as [|d r IH]; simpl; auto.
  intros H. apply orb_false_elim in H as [Hd Hr]. rewrite Hd. auto.
Qed.

Lemma find_one_some c q :
  existsb (matches q) c = true ->
  exists d, find_one c q = Some d /\ In d c /\ matches q d = true.
Proof.
  unfold find_one, find. induction c as [|d r IH]; simpl; [discriminate|].
  intros H. destruct (matches q d) eqn:Hd.
  - exists d. auto.
  - simpl in H. destruct (IH H) as (d' & H1 & H2 & H3). exists d'. auto.
Qed.

Lemma find_In c q d : In d (find c q) -> In d c /\ matches q d = true.
Proof. unfold find. apply filter_In. Qed.

Lemma named_project_truthy name d :
  matches [Field "name" (CEq (VStr name))] d = true -> truthy (VDict d) = true.
Proof. destruct d; [discriminate|reflexivity]. Qed.

Lemma getitem_has_key d k :
  has_key k d = true -> exists v, dict_get k d = Some v /\ getitem d k = inr v.
Proof.
  unfold has_key, getitem. destruct (dict_get k d) as [v|]; [|discriminate].
  intros _. exists v. auto.
Qed.

Lemma mapM_ids (l : list document) :
  forallb (has_key "_id") l = true ->
  mapM (fun system => getitem system "_id") l
  = inr (flat_map (fun system => match dict_get "_id" system with
                                 | Some i => [i]
                                 | None => []
                                 end) l).
Proof.
  induction l as [|d r IH]; simpl; auto.
  intros H. apply andb_prop in H as [Hd Hr].
  destruct (getitem_has_key _ _ Hd) as (v & Hv & Hg).
  rewrite Hg, Hv. simpl. rewrite (IH Hr). reflexivity.
Qed.

Lemma forallb_find (f : document -> bool) c q :
  forallb f c = true -> forallb f (find c q) = true.
Proof.
  intros H. apply forallb_forall. intros d Hd.
  apply find_In in Hd as [Hd _]. rewrite forallb_forall in H. now apply H.
Qed.

(** A project that is present, in a store whose documents have their
    identifiers, resolves to its issue systems. *)
Lemma resolve_project db name :
  project_exists db name = true ->
  has_ids db = true ->
  exists project project_id,
    find_one (db_collection db "project") [Field "name" (CEq (VStr name))]
      = Some project
    /\ truthy (VDict project) = true
    /\ getitem project "_id" = inr project_id
    /\ mapM (fun system => getitem system "_id")
            (find (db_collection db "issue_system")
                  [Field "project_id" (CEq project_id)])
       = inr (project_systems db name).
Proof.
  intros He Hw. apply andb_prop in Hw as [Hp Hs].
  unfold project_exists in He. rewrite <- existsb_field_eq in He.
  destruct (find_one_some _ _ He) as (project & Hf & Hin & Hm).
  assert (Hk : has_key "_id" project = true).
  { rewrite forallb_forall in Hp. now apply Hp. }
  destruct (getitem_has_key _ _ Hk) as (pid & Hpid & Hg).
  exists project, pid. repeat split; auto.
  - now apply named_project_truthy with name.
  - unfold project_systems. rewrite Hf, Hpid.
    apply mapM_ids. now apply forallb_find.
Qed.

Lemma _get_issue_system_ids_resolved db name :
  project_exists db name = true ->
  has_ids db = true ->
  _get_issue_system_ids db name = inr (project_systems db name).
Proof.
  intros He Hw. destruct (resolve_project _ _ He Hw) as (p & pid & Hf & Ht & Hg & Hm).
  unfold _get_issue_system_ids. rewrite Hf, Ht, Hg. simpl. exact Hm.
Qed.

(** What the three project-scoped queries return for a project that is
    present. *)
Lemma fetch_project_issues_found db name s p t a r page page_size :
  project_exists db name = true ->
  has_ids db = true ->
  fetch_project_issues db name s p t a r page page_size
  = let query := fetch_project_issues_query (project_systems db name) s p t a r in
    catching (
      skipped <- cursor_skip ((page - 1) * page_size)
                             (find (db_collection db "issue") query) ;;
      ret [("issues", serialize_mongo_doc
                        (VList (map VDict (cursor_limit page_size skipped))));
           ("page", VInt page);
           ("page_size", VInt page_size);
           ("total_count", VInt (count_documents (db_collection db "issue") query))]).
Proof.
  intros He Hw. destruct (resolve_project _ _ He Hw) as (pr & pid & Hf & Ht & Hg & Hm).
  unfold fetch_project_issues. rewrite Hf, Ht, Hg. simpl. rewrite Hm. reflexivity.
Qed.

Lemma count_issues_found db name s p t a r :
  project_exists db name = true ->
  has_ids db = true ->
  count_issues db name s p t a r
  = [("count", VInt (count_documents (db_collection db "issue")
                       (count_issues_query (project_systems db name) s p t a r)))].
Proof.
  intros He Hw. destruct (resolve_project _ _ He Hw) as (pr & pid & Hf & Ht & Hg & Hm).
  unfold count_issues. rewrite Hf, Ht, Hg. simpl. rewrite Hm. reflexivity.
Qed.

Lemma get_project_assignees_found order db name s p t r :
  project_exists db name = true ->
  has_ids db = true ->
  get_project_assignees order db name s p t r
  = catching (
      assignee_ids <-
        set_of order (flat_map (fun issue => match dict_get "assignee_id" issue with
                                       | Some v => [v]
                                       | None => []
                                       end)
                  (find_projected (db_collection db "issue")
                     (get_project_assignees_query (project_systems db name) s p t r)
                     "assignee_id")) ;;
      ret [("assignees", serialize_mongo_doc (VList assignee_ids));
           ("count", VInt (Z.of_nat (List.length assignee_ids)))]).
Proof.
  intros He Hw. destruct (resolve_project _ _ He Hw) as (pr & pid & Hf & Ht & Hg & Hm).
  unfold get_project_assignees. rewrite Hf, Ht, Hg. simpl. rewrite Hm. reflexivity.
Qed.

Lemma project_missing db name :
  project_exists db name = false ->
  find_one (db_collection db "project") [Field "name" (CEq (VStr name))] = None.
Proof.
  intros H. apply find_one_none. now rewrite existsb_field_eq.
Qed.

(* ===================================================================== *)
(** * Missing entities *)
(* ===================================================================== *)

Lemma fetch_project_issues_missing db name s p t a r page page_size :
  project_exists db name = false ->
  fetch_project_issues db name s p t a r page page_size = project_not_found name.
Proof.
  intros H. unfold fetch_project_issues. now rewrite (project_missing _ _ H).
Qed.

Lemma count_issues_missing db name s p t a r :
  project_exists db name = false ->
  count_issues db name s p t a r = project_not_found name.
Proof.
  intros H. unfold count_issues. now rewrite (project_missing _ _ H).
Qed.

Lemma get_project_assignees_missing order db name s p t r :
  project_exists db name = false ->
  get_project_assignees order db name s p t r = project_not_found name.
Proof.
  intros H. unfold get_project_assignees. now rewrite (project_missing _ _ H).
Qed.

Lemma analyze_developer_expertise_missing order db name component keywords :
  project_exists db name = false ->
  analyze_developer_expertise order db name component keywords
  = Some (project_not_found name).
Proof.
  intros H. unfold analyze_developer_expertise.
  now rewrite (get_project_assignees_missing _ _ _ _ _ _ _ H).
Qed.

(** C4.  An operation that looks up a named entity that is not in the
    store returns an error whose message names it: the four
    project-scoped operations for a project name that is not present,
    [get_issue_details] for an external identifier no issue has, and
    [list_unique_values] for a collection the store does not list. *)
Theorem missing_entity_is_an_error (db : database) :
  (forall name, project_exists db name = false ->
     let error := [("error", VStr ("Project '" ++ name ++ "' not found."))] in
     (forall s p t a r page page_size,
        fetch_project_issues db name s p t a r page page_size = error)
     /\ (forall s p t a r, count_issues db name s p t a r = error)
     /\ (forall order s p t r, get_project_assignees order db name s p t r = error)
     /\ (forall order component keywords,
           analyze_developer_expertise order db name component keywords = Some error))
  /\ (forall issue_identifier, issue_known db issue_identifier = false ->
        get_issue_details db issue_identifier
        = [("error", VStr ("Issue matching '" ++ issue_identifier ++ "' not found."))])
  /\ (forall collection_name attribute_name filters,
        collection_known db collection_name = false ->
        list_unique_values db collection_name attribute_name filters
        = Some [("error",
                 VStr ("Collection '" ++ collection_name ++ "' does not exist."))]).
Proof.
  split; [|split].
  - intros name H error. repeat split; intros.
    + now apply fetch_project_issues_missing.
    + now apply count_issues_missing.
    + now apply get_project_assignees_missing.
    + now apply analyze_developer_expertise_missing.
  - intros id H. unfold get_issue_details.
    rewrite find_one_none; [reflexivity|]. now rewrite existsb_field_eq.
  - intros c a f H. unfold list_unique_values.
    unfold collection_known in H. now rewrite H.
Qed.

Lemma missing_entity_is_an_error_witness :
  (project_exists demo_db "zookeeper" = false
   /\ count_issues demo_db "zookeeper" (Some "Open") None None None None
      = [("error", VStr "Project 'zookeeper' not found.")])
  /\ (issue_known demo_db "DEMO-9" = false
      /\ get_issue_details demo_db "DEMO-9"
         = [("error", VStr "Issue matching 'DEMO-9' not found.")])
  /\ (collection_known demo_db "issues" = false
      /\ list_unique_values demo_db "issues" "status" None
         = Some [("error", VStr "Collection 'issues' does not exist.")]).
Proof.
  destruct (missing_entity_is_an_error demo_db) as (Hp & Hi & Hc).
  split; [|split].
  - split; [reflexivity|].
    apply (proj1 (proj2 (Hp "zookeeper" eq_refl))).
  - split; [reflexivity|]. apply (Hi "DEMO-9"). reflexivity.
  - split; [reflexivity|]. apply (Hc "issues"). reflexivity.
Defined.

(* ===================================================================== *)
(** * Filters, counting and pagination *)
(* ===================================================================== *)

Lemma set_if_omit_empty field o q :
  set_if (truthy (opt_text o)) field (opt_text o) q
  = set_if (truthy (opt_text (omit_empty o))) field (opt_text (omit_empty o)) q.
Proof.
  destruct o as [s|]; simpl; auto.
  destruct (String.eqb s "") eqn:E; simpl; rewrite ?E; auto.
Qed.

Lemma set_if_omit_empty_id field o q :
  set_if (truthy (opt_ident o)) field (as_object_id (opt_ident o)) q
  = set_if (truthy (opt_ident (omit_empty_id o))) field
           (as_object_id (opt_ident (omit_empty_id o))) q.
Proof.
  destruct o as [[s|h]|]; simpl; auto.
  destruct (String.eqb s "") eqn:E; simpl; rewrite ?E; auto.
Qed.

Lemma fetch_query_omit_empty ids s p t a r :
  fetch_project_issues_query ids s p t a r
  = fetch_project_issues_query ids (omit_empty s) (omit_empty p) (omit_empty t)
      (omit_empty_id a) (omit_empty_id r).
Proof.
  unfold fetch_project_issues_query.
  now rewrite (set_if_omit_empty "status"), (set_if_omit_empty "priority"),
    (set_if_omit_empty "issue_type"), (set_if_omit_empty_id "assignee_id"),
    (set_if_omit_empty_id "reporter_id").
Qed.

Lemma count_query_omit_empty ids s p t a r :
  count_issues_query ids s p t a r
  = count_issues_query ids (omit_empty s) (omit_empty p) (omit_empty t)
      (omit_empty_id a) (omit_empty_id r).
Proof.
  unfold count_issues_query.
  now rewrite (set_if_omit_empty "status"), (set_if_omit_empty "priority"),
    (set_if_omit_empty "issue_type"), (set_if_omit_empty_id "assignee_id"),
    (set_if_omit_empty_id "reporter_id").
Qed.

Lemma assignees_query_omit_empty ids s p t r :
  get_project_assignees_query ids s p t r
  = get_project_assignees_query ids (omit_empty s) (omit_empty p) (omit_empty t)
      (omit_empty_id r).
Proof.
  unfold get_project_assignees_query.
  now rewrite (set_if_omit_empty "status"), (set_if_omit_empty "priority"),
    (set_if_omit_empty "issue_type"), (set_if_omit_empty_id "reporter_id").
Qed.

(** C10.  In [fetch_project_issues], [count_issues] and
    [get_project_assignees], a filter given as the empty string is a
    filter that is not given: replacing every empty-string filter by an
    absent one changes neither the query that is built nor the result. *)
Theorem empty_filter_is_no_filter (db : database) (name : string)
    (s p t : option string) (a r : option ident) (page page_size : Z) :
  (forall ids,
     fetch_project_issues_query ids s p t a r
     = fetch_project_issues_query ids (omit_empty s) (omit_empty p) (omit_empty t)
         (omit_empty_id a) (omit_empty_id r)
     /\ count_issues_query ids s p t a r
        = count_issues_query ids (omit_empty s) (omit_empty p) (omit_empty t)
            (omit_empty_id a) (omit_empty_id r)
     /\ get_project_assignees_query ids s p t r
        = get_project_assignees_query ids (omit_empty s) (omit_empty p)
            (omit_empty t) (omit_empty_id r))
  /\ fetch_project_issues db name s p t a r page page_size
     = fetch_project_issues db name (omit_empty s) (omit_empty p) (omit_empty t)
         (omit_empty_id a) (omit_empty_id r) page page_size
  /\ count_issues db name s p t a r
     = count_issues db name (omit_empty s) (omit_empty p) (omit_empty t)
         (omit_empty_id a) (omit_empty_id r)
  /\ (forall order,
        get_project_assignees order db name s p t r
        = get_project_assignees order db name (omit_empty s) (omit_empty p)
            (omit_empty t) (omit_empty_id r)).
Proof.
  split; [intros ids; split; [|split]|split; [|split]].
  - apply fetch_query_omit_empty.
  - apply count_query_omit_empty.
  - apply assignees_query_omit_empty.
  - unfold fetch_project_issues.
    destruct (find_one _ _) as [project|]; [|reflexivity].
    destruct (negb _); [reflexivity|].
    destruct (getitem project "_id") as [e|pid]; [reflexivity|]. simpl.
    destruct (mapM _ _) as [e|ids]; [reflexivity|]. simpl.
    now rewrite <- fetch_query_omit_empty.
  - unfold count_issues.
    destruct (find_one _ _) as [project|]; [|reflexivity].
    destruct (negb _); [reflexivity|].
    destruct (getitem project "_id") as [e|pid]; [reflexivity|]. simpl.
    destruct (mapM _ _) as [e|ids]; [reflexivity|]. simpl.
    now rewrite <- count_query_omit_empty.
  - intros order. unfold get_project_assignees.
    destruct (find_one _ _) as [project|]; [|reflexivity].
    destruct (negb _); [reflexivity|].
    destruct (getitem project "_id") as [e|pid]; [reflexivity|]. simpl.
    destruct (mapM _ _) as [e|ids]; [reflexivity|]. simpl.
    now rewrite <- assignees_query_omit_empty.
Qed.

Lemma same_filter ids s p t a r :
  count_issues_query ids s p t a r = fetch_project_issues_query ids s p t a r.
Proof. reflexivity. Qed.

Lemma cursor_skip_ok n docs :
  0 <= n -> cursor_skip n docs = inr (skipn (Z.to_nat n) docs).
Proof.
  intros H. unfold cursor_skip. destruct (n <? 0) eqn:E; auto.
  apply Z.ltb_lt in E. lia.
Qed.

(** C3, as the code has it.  [count_issues] and [fetch_project_issues]
    build the same filter, and for the same project and filters the
    count is the [total_count] of the fetch for every [page] and
    [page_size] whose offset [(page - 1) * page_size] is not negative
    (the store refuses a negative offset, and the fetch is then an error
    without a [total_count]); for a project that is present the count is
    the number of issues the filter selects. *)
Theorem count_is_total_count (db : database) (name : string)
    (s p t : option string) (a r : option ident) (page page_size : Z) :
  0 <= (page - 1) * page_size ->
  (forall ids, count_issues_query ids s p t a r
               = fetch_project_issues_query ids s p t a r)
  /\ dict_get "count" (count_issues db name s p t a r)
     = dict_get "total_count" (fetch_project_issues db name s p t a r page page_size)
  /\ (project_exists db name = true -> has_ids db = true ->
      count_issues db name s p t a r
      = [("count",
          VInt (Z.of_nat (List.length
                  (find (db_collection db "issue")
                        (count_issues_query (project_systems db name) s p t a r)))))]).
Proof.
  intros Hskip. split; [reflexivity|]. split.
  - unfold count_issues, fetch_project_issues.
    destruct (find_one _ _) as [project|]; [|reflexivity].
    destruct (negb _); [reflexivity|].
    destruct (getitem project "_id") as [e|pid]; [reflexivity|]. simpl.
    destruct (mapM _ _) as [e|ids]; [reflexivity|]. simpl.
    rewrite (cursor_skip_ok _ _ Hskip). reflexivity.
  - intros He Hw. now rewrite count_issues_found.
Qed.

Lemma count_is_total_count_witness :
  0 <= (2 - 1) * 3
  /\ project_exists demo_db "demo" = true
  /\ has_ids demo_db = true
  /\ dict_get "count" (count_issues demo_db "demo" (Some "Open") None None None None)
     = dict_get "total_count"
         (fetch_project_issues demo_db "demo" (Some "Open") None None None None 2 3)
  /\ count_issues demo_db "demo" (Some "Open") None None None None
     = [("count", VInt 4)].
Proof.
  assert (H : 0 <= (2 - 1) * 3) by lia.
  destruct (count_is_total_count demo_db "demo" (Some "Open") None None None None
              2 3 H) as (_ & Hc & Hn).
  split; [exact H|]. split; [reflexivity|]. split; [reflexivity|].
  split; [exact Hc|]. apply (Hn eq_refl eq_refl).
Defined.

(** The claim C3 for any page and page size fails at a negative offset:
    page 2 with page size -1. *)
Lemma count_without_total_count :
  project_exists demo_db "demo" = true
  /\ count_issues demo_db "demo" None None None None None = [("count", VInt 8)]
  /\ fetch_project_issues demo_db "demo" None None None None None 2 (-1)
     = [("error", VStr "skip must be >= 0")]
  /\ dict_get "count" (count_issues demo_db "demo" None None None None None)
     <> dict_get "total_count"
          (fetch_project_issues demo_db "demo" None None None None None 2 (-1)).
Proof. repeat split; try reflexivity. discriminate. Qed.

Lemma nth_error_page {A} (l : list A) (k n i : nat) :
  nth_error (firstn n (skipn k l)) i
  = if (i <? n)%nat then nth_error l (k + i) else None.
Proof. now rewrite nth_error_firstn, nth_error_skipn. Qed.

Lemma cursor_limit_positive n docs :
  1 <= n -> cursor_limit n docs = firstn (Z.to_nat n) docs.
Proof.
  intros H. unfold cursor_limit. destruct (n =? 0) eqn:E.
  - apply Z.eqb_eq in E. lia.
  - now rewrite Z.abs_eq by lia.
Qed.

(** C7, as the code has it.  For a project that is present, any filters,
    a page [page >= 1] and a page size [page_size >= 1],
    [fetch_project_issues] returns the filtered issues, in store order,
    at the offsets [(page - 1) * page_size] to [page * page_size - 1];
    [total_count] is the number of filtered issues whatever the page, and
    a page past the end has no issue. *)
Theorem fetch_project_issues_page (db : database) (name : string)
    (s p t : option string) (a r : option ident) (page page_size : Z) :
  project_exists db name = true ->
  has_ids db = true ->
  1 <= page ->
  1 <= page_size ->
  let filtered :=
    find (db_collection db "issue")
         (fetch_project_issues_query (project_systems db name) s p t a r) in
  let skip := Z.to_nat ((page - 1) * page_size) in
  exists issues,
    fetch_project_issues db name s p t a r page page_size
    = [("issues", serialize_mongo_doc (VList (map VDict issues)));
       ("page", VInt page);
       ("page_size", VInt page_size);
       ("total_count", VInt (Z.of_nat (List.length filtered)))]
    /\ (forall i : nat,
          nth_error issues i
          = if (i <? Z.to_nat page_size)%nat
            then nth_error filtered (skip + i)
            else None)
    /\ ((List.length filtered <= skip)%nat -> issues = []).
Proof.
  intros He Hw Hp Hs filtered skip.
  assert (Hskip : 0 <= (page - 1) * page_size) by nia.
  exists (firstn (Z.to_nat page_size) (skipn skip filtered)).
  split; [|split].
  - rewrite fetch_project_issues_found by assumption. cbv zeta.
    rewrite (cursor_skip_ok _ _ Hskip). simpl.
    now rewrite (cursor_limit_positive _ _ Hs).
  - intros i. apply nth_error_page.
  - intros Hlen. rewrite skipn_all2 by exact Hlen. apply firstn_nil.
Qed.

Lemma fetch_project_issues_page_witness :
  exists issues,
    fetch_project_issues demo_db "demo" None None None None None 2 3
    = [("issues", serialize_mongo_doc (VList (map VDict issues)));
       ("page", VInt 2);
       ("page_size", VInt 3);
       ("total_count", VInt 8)]
    /\ (forall i : nat,
          nth_error issues i
          = if (i <? 3)%nat then nth_error demo_issues (3 + i) else None)
    /\ ((8 <= 3)%nat -> issues = []).
Proof.
  apply (fetch_project_issues_page demo_db "demo" None None None None None 2 3);
    [reflexivity | reflexivity | lia | lia].
Defined.

(** The claim C7 for any page size fails at page size 0, where the store
    applies no limit: the first page holds all eight issues, not the
    issues at the offsets 0 to -1. *)
Lemma page_size_zero_is_no_limit :
  project_exists demo_db "demo" = true
  /\ fetch_project_issues demo_db "demo" None None None None None 1 0
     = [("issues", serialize_mongo_doc (VList (map VDict demo_issues)));
        ("page", VInt 1);
        ("page_size", VInt 0);
        ("total_count", VInt 8)]
  /\ List.length demo_issues = 8%nat.
Proof. repeat split; reflexivity. Qed.

(* ===================================================================== *)
(** * Identifier arguments *)
(* ===================================================================== *)

Lemma as_object_id_native hex : as_object_id (VOid hex) = VOid hex.
Proof. reflexivity. Qed.

Lemma as_object_id_valid_text txt hex :
  String.length txt = 24%nat -> fromhex txt = Some hex ->
  as_object_id (VStr txt) = VOid hex.
Proof.
  intros Hl Hh. unfold as_object_id, ObjectId_is_valid, ObjectId.
  rewrite Hl, Hh. reflexivity.
Qed.

Lemma as_object_id_other_text txt :
  ObjectId_is_valid (VStr txt) = false -> as_object_id (VStr txt) = VStr txt.
Proof. intros H. unfold as_object_id. now rewrite H. Qed.

Lemma value_eqb_refl_str s : value_eqb (VStr s) (VStr s) = true.
Proof. simpl. apply String.eqb_refl. Qed.

Lemma value_eqb_refl_oid s : value_eqb (VOid s) (VOid s) = true.
Proof. simpl. apply String.eqb_refl. Qed.

(** C5, as the code has it.  In the [assignee_id] and [reporter_id]
    filters of [fetch_project_issues] and [count_issues] and the
    [reporter_id] filter of [get_project_assignees], an identifier given
    natively or as its text of 24 hexadecimal digits is normalized to the
    native identifier before the query is built: both forms give the same
    query and the same result, and the filter selects a record that stores
    the field natively.  A text that is not a valid identifier is passed
    as it is, and selects a record that stores that text. *)
Theorem identifier_filters_normalized (db : database) (name : string)
    (s p t : option string) (other : option ident) (page page_size : Z)
    (txt hex : string) :
  String.length txt = 24%nat ->
  fromhex txt = Some hex ->
  String.length hex = 24%nat ->
  (as_object_id (ident_value (IdText txt)) = VOid hex
   /\ as_object_id (ident_value (IdNative hex)) = VOid hex)
  /\ (forall ids,
        In (Field "assignee_id" (CEq (VOid hex)))
           (fetch_project_issues_query ids s p t (Some (IdText txt)) other)
        /\ In (Field "reporter_id" (CEq (VOid hex)))
              (fetch_project_issues_query ids s p t other (Some (IdText txt)))
        /\ In (Field "assignee_id" (CEq (VOid hex)))
              (count_issues_query ids s p t (Some (IdText txt)) other)
        /\ In (Field "reporter_id" (CEq (VOid hex)))
              (count_issues_query ids s p t other (Some (IdText txt)))
        /\ In (Field "reporter_id" (CEq (VOid hex)))
              (get_project_assignees_query ids s p t (Some (IdText txt))))
  /\ (fetch_project_issues db name s p t (Some (IdText txt)) other page page_size
      = fetch_project_issues db name s p t (Some (IdNative hex)) other page page_size
      /\ fetch_project_issues db name s p t other (Some (IdText txt)) page page_size
         = fetch_project_issues db name s p t other (Some (IdNative hex)) page page_size
      /\ count_issues db name s p t (Some (IdText txt)) other
         = count_issues db name s p t (Some (IdNative hex)) other
      /\ count_issues db name s p t other (Some (IdText txt))
         = count_issues db name s p t other (Some (IdNative hex))
      /\ (forall order,
            get_project_assignees order db name s p t (Some (IdText txt))
            = get_project_assignees order db name s p t (Some (IdNative hex))))
  /\ (forall field record,
        dict_get field record = Some (VOid hex) ->
        clause_matches record
          (Field field (CEq (as_object_id (ident_value (IdText txt))))) = true)
  /\ (forall field record plain,
        ObjectId_is_valid (VStr plain) = false ->
        dict_get field record = Some (VStr plain) ->
        clause_matches record
          (Field field (CEq (as_object_id (ident_value (IdText plain))))) = true).
Proof.
  intros Hl Hh _.
  assert (Ht : as_object_id (VStr txt) = VOid hex)
    by now apply as_object_id_valid_text.
  assert (Htruthy : truthy (VStr txt) = true).
  { destruct txt; [discriminate|reflexivity]. }
  assert (Hin : forall (c : clause) q, In c (q ++ [c])).
  { intros c q. apply in_or_app. right. now left. }
  split; [split; [exact Ht|reflexivity]|].
  split.
  { intros ids.
    unfold fetch_project_issues_query, count_issues_query,
      get_project_assignees_query.
    cbn [opt_ident ident_value]. rewrite Ht, Htruthy.
    unfold set_if at 1.
    repeat split.
    all: try (destruct (truthy (opt_ident other));
              [apply in_or_app; left|]; apply Hin).
    all: apply Hin. }
  split.
  { unfold fetch_project_issues, count_issues, get_project_assignees,
      fetch_project_issues_query, count_issues_query, get_project_assignees_query.
    cbn [opt_ident ident_value]. rewrite Ht. cbn [as_object_id ObjectId_is_valid ObjectId].
    rewrite Htruthy. cbn [truthy]. repeat split; reflexivity. }
  split.
  - intros field record Hf. cbn [ident_value]. rewrite Ht. simpl.
    rewrite Hf. simpl. now rewrite String.eqb_refl.
  - intros field record plain Hv Hf. cbn [ident_value].
    rewrite (as_object_id_other_text _ Hv). simpl.
    rewrite Hf. simpl. now rewrite String.eqb_refl.
Qed.

Lemma identifier_filters_normalized_witness :
  String.length "5F00000000000000000000EE" = 24%nat
  /\ fromhex "5F00000000000000000000EE" = Some "5f00000000000000000000ee"
  /\ String.length "5f00000000000000000000ee" = 24%nat
  /\ count_issues native_db "demo" None None None
       (Some (IdText "5F00000000000000000000EE")) None
     = count_issues native_db "demo" None None None
         (Some (IdNative "5f00000000000000000000ee")) None
  /\ count_issues native_db "demo" None None None
       (Some (IdText "5F00000000000000000000EE")) None
     = [("count", VInt 1)].
Proof.
  split; [reflexivity|]. split; [reflexivity|]. split; [reflexivity|].
  destruct (identifier_filters_normalized native_db "demo" None None None None 1 50
              "5F00000000000000000000EE" "5f00000000000000000000ee"
              eq_refl eq_refl eq_refl) as (_ & _ & (_ & _ & Hc & _) & _).
  split; [exact Hc|reflexivity].
Defined.

(** The claim C5 fails where the field is stored as the text of an
    identifier: issue b2 has the assignee "5f00000000000000000000ee" as
    text, and the filter given that very text selects issue b1 only.  It
    also fails for [get_issue_comments], which passes its argument to the
    store as it is: the comment of issue b1 is found by the native
    identifier and not by its text. *)
Lemma identifier_text_not_selected :
  (nth_error native_issues 1 = Some
     [("_id", VOid "5f00000000000000000000b2");
      ("issue_system_id", VOid "5f00000000000000000000aa");
      ("assignee_id", VStr "5f00000000000000000000ee");
      ("status", VStr "Open")]
   /\ fetch_project_issues native_db "demo" None None None
        (Some (IdText "5f00000000000000000000ee")) None 1 50
      = [("issues", serialize_mongo_doc (VList (map VDict (firstn 1 native_issues))));
         ("page", VInt 1); ("page_size", VInt 50); ("total_count", VInt 1)])
  /\ (get_issue_comments native_db (IdText "5f00000000000000000000b1")
      = [("comments", VList [])]
      /\ get_issue_comments native_db (IdNative "5f00000000000000000000b1")
         = [("comments",
             VList [VDict [("_id", VStr "5f00000000000000000000c1");
                           ("issue_id", VStr "5f00000000000000000000b1");
                           ("comment", VStr "fixed")]])]).
Proof. repeat split; reflexivity. Qed.

(* ===================================================================== *)
(** * Assignees *)
(* ===================================================================== *)

Lemma projection_keeps k (d : document) :
  dict_get k (filter (fun kv => String.eqb (fst kv) "_id" || String.eqb (fst kv) k) d)
  = dict_get k d.
Proof.
  induction d as [|[k' v] r IH]; simpl; auto.
  destruct (String.eqb k' k) eqn:E.
  - rewrite orb_true_r. simpl. rewrite String.eqb_sym, E. reflexivity.
  - rewrite orb_false_r. rewrite String.eqb_sym in E.
    destruct (String.eqb k' "_id"); simpl; rewrite ?E; exact IH.
Qed.

Lemma projected_values c q k :
  flat_map (fun issue => match dict_get k issue with
                         | Some v => [v]
                         | None => []
                         end) (find_projected c q k)
  = flat_map (fun issue => match dict_get k issue with
                           | Some v => [v]
                           | None => []
                           end) (find c q).
Proof.
  unfold find_projected. induction (find c q) as [|d r IH]; simpl; auto.
  now rewrite projection_keeps, IH.
Qed.

Lemma datetime_eqb_refl d : datetime_eqb d d = true.
Proof. unfold datetime_eqb. now rewrite !N.eqb_refl. Qed.

Lemma value_eqb_refl (v : value) : value_eqb v v = true.
Proof.
  induction v using value_ind_nested; simpl;
    auto using Bool.eqb_reflx, Z.eqb_refl, String.eqb_refl, datetime_eqb_refl.
  - induction H; auto. rewrite H. exact IHForall.
  - induction H; auto. rewrite String.eqb_refl, H. exact IHForall.
Qed.

Lemma py_eqb_refl (v : value) : py_eqb v v = true.
Proof. destruct v; try apply value_eqb_refl. Qed.

Lemma datetime_eqb_eq a b : datetime_eqb a b = true -> a = b.
Proof.
  unfold datetime_eqb. rewrite !andb_true_iff, !N.eqb_eq.
  destruct a, b; simpl. intros ((((((-> & ->) & ->) & ->) & ->) & ->) & ->).
  reflexivity.
Qed.

Lemma value_eqb_eq (a : value) : forall c, value_eqb a c = true -> a = c.
Proof.
  induction a using value_ind_nested; intros c Hb; destruct c; simpl in Hb;
    try discriminate; try reflexivity.
  - f_equal. now apply Bool.eqb_prop.
  - f_equal. now apply Z.eqb_eq.
  - f_equal. now apply String.eqb_eq.
  - f_equal. now apply String.eqb_eq.
  - f_equal. now apply datetime_eqb_eq.
  - f_equal. revert items Hb.
    induction H as [|x l Hx Hl IH]; intros [|y ys] Hb; try discriminate; auto.
    apply andb_prop in Hb as [H1 H2]. f_equal; auto.
  - f_equal. revert items Hb.
    induction H as [|[k x] l Hx Hl IH]; intros [|[k' y] ys] Hb;
      try discriminate; auto.
    simpl in *. apply andb_prop in Hb as [H1 H3].
    apply andb_prop in H1 as [H1 H2].
    apply String.eqb_eq in H1. subst. f_equal; auto. f_equal; auto.
Qed.

Lemma value_eqb_sym (a b : value) : value_eqb a b = value_eqb b a.
Proof.
  destruct (value_eqb a b) eqn:E1, (value_eqb b a) eqn:E2; auto.
  - apply value_eqb_eq in E1. subst. now rewrite value_eqb_refl in E2.
  - apply value_eqb_eq in E2. subst. now rewrite value_eqb_refl in E1.
Qed.

Lemma py_eqb_sym (a b : value) : py_eqb a b = py_eqb b a.
Proof.
  destruct a, b; try apply value_eqb_sym; simpl; apply Z.eqb_sym.
Qed.

Section Distinct.
Variable eqb : value -> value -> bool.
Hypothesis eqb_refl : forall v, eqb v v = true.

Lemma distinct_values_keeps l : forall seen v,
  In v seen -> In v (distinct_values eqb seen l).
Proof.
  induction l as [|x r IH]; simpl; intros seen v H; auto.
  destruct (existsb (eqb x) seen); apply IH; auto.
  apply in_or_app. now left.
Qed.

Lemma distinct_values_from l : forall seen v,
  In v (distinct_values eqb seen l) -> In v seen \/ In v l.
Proof.
  induction l as [|x r IH]; simpl; intros seen v H; auto.
  destruct (existsb (eqb x) seen).
  - destruct (IH _ _ H); auto.
  - destruct (IH _ _ H) as [H1|H1]; auto.
    apply in_app_or in H1 as [H1|[H1|[]]]; auto.
Qed.

Lemma distinct_values_covers l : forall seen v,
  In v l -> exists u, In u (distinct_values eqb seen l) /\ eqb v u = true.
Proof.
  induction l as [|x r IH]; simpl; intros seen v H; [contradiction|].
  destruct H as [->|H].
  - destruct (existsb (eqb v) seen) eqn:E.
    + apply existsb_exists in E as (u & Hu & He).
      exists u. split; auto. now apply distinct_values_keeps.
    + exists v. split; auto. apply distinct_values_keeps.
      apply in_or_app. right. now left.
  - destruct (existsb (eqb x) seen); now apply IH.
Qed.

Lemma pairwise_snoc (l : list value) x :
  pairwise_distinct eqb l ->
  existsb (eqb x) l = false ->
  pairwise_distinct eqb (l ++ [x]).
Proof.
  unfold pairwise_distinct. induction 1 as [|a l Ha Hl IH]; simpl; intros Hx.
  - repeat constructor.
  - apply orb_false_elim in Hx as [Hxa Hxl]. constructor; auto.
    apply Forall_app. split; auto.
Qed.

Lemma distinct_values_pairwise l : forall seen,
  pairwise_distinct eqb seen -> pairwise_distinct eqb (distinct_values eqb seen l).
Proof.
  induction l as [|x r IH]; simpl; intros seen H; auto.
  destruct (existsb (eqb x) seen) eqn:E; auto.
  apply IH. now apply pairwise_snoc.
Qed.
End Distinct.

(** A set has the same elements in whatever order it is listed. *)
Lemma set_iter_In order l v : In v (set_iter order l) <-> In v l.
Proof.
  split; apply Permutation_in;
    [apply set_iter_perm|apply Permutation_sym, set_iter_perm].
Qed.

Lemma set_iter_length order l : List.length (set_iter order l) = List.length l.
Proof. apply Permutation_length, set_iter_perm. Qed.

Lemma pairwise_distinct_perm eqb l l' :
  (forall a b, eqb a b = eqb b a) ->
  Permutation l l' -> pairwise_distinct eqb l -> pairwise_distinct eqb l'.
Proof.
  unfold pairwise_distinct. intros Hsym. induction 1 as [|x l l' Hp IH|x y l|]; auto.
  - intros H. inversion_clear H as [|? ? Hx Hl]. constructor; auto.
    eapply Permutation_Forall; eauto.
  - intros H. inversion_clear H as [|? ? Hy Hl].
    inversion_clear Hy as [|? ? Hyx Hyl].
    inversion_clear Hl as [|? ? Hxl Hl'].
    constructor; [constructor; [now rewrite Hsym|assumption]|].
    constructor; assumption.
Qed.

Lemma set_of_scalars order vals :
  forallb hashable vals = true ->
  set_of order vals = inr (set_iter order (distinct_values py_eqb [] vals)).
Proof.
  intros H. unfold set_of.
  destruct (List.find _ vals) as [v|] eqn:E; auto.
  apply find_some in E as [Hin Hv].
  rewrite forallb_forall in H. rewrite (H _ Hin) in Hv. discriminate.
Qed.

Lemma assignee_values_hashable db q :
  scalar_assignees db = true ->
  forallb hashable
    (flat_map (fun issue => match dict_get "assignee_id" issue with
                            | Some v => [v]
                            | None => []
                            end) (find (db_collection db "issue") q)) = true.
Proof.
  intros H. apply forallb_forall. intros v Hv.
  apply in_flat_map in Hv as (issue & Hi & Hv).
  apply find_In in Hi as [Hi _].
  unfold scalar_assignees in H. rewrite forallb_forall in H.
  specialize (H _ Hi).
  destruct (dict_get "assignee_id" issue) as [w|]; [|contradiction].
  destruct Hv as [->|[]]. exact H.
Qed.

(** C6, as the code has it.  For a project that is present and any
    filters, [get_project_assignees] returns the values of the
    [assignee_id] field of the matching issues that have the field, each
    distinct stored value once, normalized, with the number of these
    values as count.  An issue without the field gives no value; a field
    that holds [None] gives the value [None]. *)
Theorem project_assignees_are_field_values (order : set_order) (db : database)
    (name : string) (s p t : option string) (r : option ident) :
  project_exists db name = true ->
  has_ids db = true ->
  scalar_assignees db = true ->
  let matching :=
    find (db_collection db "issue")
         (get_project_assignees_query (project_systems db name) s p t r) in
  exists ids,
    get_project_assignees order db name s p t r
    = [("assignees", VList (map serialize_mongo_doc ids));
       ("count", VInt (Z.of_nat (List.length ids)))]
    /\ (forall v, In v ids ->
          exists issue, In issue matching /\ dict_get "assignee_id" issue = Some v)
    /\ (forall issue v,
          In issue matching -> dict_get "assignee_id" issue = Some v ->
          exists u, In u ids /\ py_eqb v u = true)
    /\ pairwise_distinct py_eqb ids
    /\ ((forall issue, In issue matching -> dict_get "assignee_id" issue = None) ->
        ids = []).
Proof.
  intros He Hw Hs matching.
  set (vals := flat_map (fun issue => match dict_get "assignee_id" issue with
                                      | Some v => [v]
                                      | None => []
                                      end) matching).
  assert (Hfrom : forall v, In v (set_iter order (distinct_values py_eqb [] vals)) ->
                  exists issue, In issue matching
                                /\ dict_get "assignee_id" issue = Some v).
  { intros v Hv. apply set_iter_In, distinct_values_from in Hv as [[]|Hv].
    apply in_flat_map in Hv as (issue & Hi & Hv). exists issue. split; auto.
    destruct (dict_get "assignee_id" issue) as [w|]; [|contradiction].
    destruct Hv as [->|[]]. reflexivity. }
  exists (set_iter order (distinct_values py_eqb [] vals)).
  split; [|split; [|split; [|split]]].
  - rewrite get_project_assignees_found by assumption.
    rewrite projected_values. fold matching. fold vals.
    rewrite set_of_scalars by (now apply assignee_values_hashable).
    reflexivity.
  - exact Hfrom.
  - intros issue v Hi Hv.
    destruct (distinct_values_covers py_eqb py_eqb_refl vals [] v) as (u & Hu & Hq).
    { apply in_flat_map. exists issue. split; auto. rewrite Hv. now left. }
    exists u. split; [now apply set_iter_In|exact Hq].
  - eapply pairwise_distinct_perm;
      [apply py_eqb_sym|apply Permutation_sym, set_iter_perm|].
    apply distinct_values_pairwise. constructor.
  - intros Hnone.
    destruct (set_iter order (distinct_values py_eqb [] vals)) as [|v l] eqn:E; auto.
    destruct (Hfrom v (or_introl eq_refl)) as (issue & Hi & Hv).
    rewrite (Hnone _ Hi) in Hv. discriminate.
Qed.

Lemma project_assignees_are_field_values_witness :
  project_exists demo_db "demo" = true
  /\ has_ids demo_db = true
  /\ scalar_assignees demo_db = true
  /\ exists ids,
       get_project_assignees reverse_order demo_db "demo" (Some "Open") None None None
       = [("assignees", VList (map serialize_mongo_doc ids));
          ("count", VInt (Z.of_nat (List.length ids)))]
       /\ pairwise_distinct py_eqb ids.
Proof.
  split; [reflexivity|]. split; [reflexivity|]. split; [reflexivity|].
  destruct (project_assignees_are_field_values reverse_order demo_db "demo"
              (Some "Open") None None None eq_refl eq_refl eq_refl)
    as (ids & Hr & _ & _ & Hd & _).
  exists ids. split; [exact Hr|exact Hd].
Defined.

(** The claim C6 fails where a field holds [None]: issue b3 has an
    assignee field with the value [None], and [None] is among the
    assignees and is counted, in whatever order the set is listed. *)
Lemma none_among_assignees :
  project_exists native_db "demo" = true
  /\ nth_error native_issues 2 = Some
       [("_id", VOid "5f00000000000000000000b3");
        ("issue_system_id", VOid "5f00000000000000000000aa");
        ("assignee_id", VNone);
        ("status", VStr "Open")]
  /\ (forall order, exists assignees,
        get_project_assignees order native_db "demo" None None None None
        = [("assignees", VList assignees); ("count", VInt 3)]
        /\ In VNone assignees).
Proof.
  split; [reflexivity|]. split; [reflexivity|]. intros order.
  exists (map serialize_mongo_doc
            (set_iter order [VOid "5f00000000000000000000ee";
                             VStr "5f00000000000000000000ee"; VNone])).
  split.
  - rewrite get_project_assignees_found by reflexivity.
    rewrite projected_values, set_of_scalars by reflexivity.
    cbn [bind ret catching]. rewrite set_iter_length. reflexivity.
  - apply (in_map serialize_mongo_doc _ VNone), set_iter_In. simpl. tauto.
Qed.

(* ===================================================================== *)
(** * Expertise scoring *)
(* ===================================================================== *)

(** ** The sort *)

Section Sort.
Context {A : Type} (key : A -> Z).

Lemma insert_desc_perm x l : Permutation (insert_desc key x l) (x :: l).
Proof.
  induction l as [|y r IH]; simpl; auto.
  destruct (key y <=? key x); auto.
  rewrite IH. apply perm_swap.
Qed.

Lemma sort_desc_perm l : Permutation (sort_desc key l) l.
Proof.
  induction l as [|x r IH]; simpl; auto.
  rewrite insert_desc_perm. now constructor.
Qed.

Lemma insert_desc_sorted x l :
  StronglySorted (fun a b => key b <= key a) l ->
  StronglySorted (fun a b => key b <= key a) (insert_desc key x l).
Proof.
  induction 1 as [|y r Hr IH Hy]; simpl.
  - repeat constructor.
  - destruct (key y <=? key x) eqn:E.
    + apply Z.leb_le in E. constructor; [now constructor|].
      constructor; auto. eapply Forall_impl; [|exact Hy].
      simpl. intros; lia.
    + apply Z.leb_gt in E. constructor; auto.
      eapply Permutation_Forall; [symmetry; apply insert_desc_perm|].
      constructor; auto. lia.
Qed.

Lemma sort_desc_sorted l :
  StronglySorted (fun a b => key b <= key a) (sort_desc key l).
Proof.
  induction l as [|x r IH]; simpl; [constructor|].
  now apply insert_desc_sorted.
Qed.

(** Entries with different keys have one descending order: the sort
    gives the same list for every arrangement of them. *)
Lemma sorted_strictly l :
  StronglySorted (fun a b => key b <= key a) l ->
  NoDup (map key l) ->
  StronglySorted (fun a b => key b < key a) l.
Proof.
  induction 1 as [|x r Hr IH Hx]; intros Hd; [constructor|].
  cbn [map] in Hd. inversion_clear Hd as [|? ? Hn Hd'].
  constructor; [now apply IH|].
  rewrite Forall_forall in *. intros y Hy. specialize (Hx y Hy).
  assert (key y <> key x) by (intros E; apply Hn; rewrite <- E; now apply in_map).
  lia.
Qed.

Lemma strictly_sorted_unique l : forall l',
  StronglySorted (fun a b => key b < key a) l ->
  StronglySorted (fun a b => key b < key a) l' ->
  Permutation l l' -> l = l'.
Proof.
  induction l as [|x r IH]; intros l' Hl Hl' Hp.
  - now apply Permutation_nil in Hp.
  - destruct l' as [|y r']; [now apply Permutation_sym, Permutation_nil in Hp|].
    inversion_clear Hl as [|? ? Hr Hx]. inversion_clear Hl' as [|? ? Hr' Hy].
    rewrite Forall_forall in Hx, Hy.
    assert (Exy : x = y).
    { assert (Hxin : In x (y :: r'))
        by (apply (Permutation_in _ Hp); now left).
      assert (Hyin : In y (x :: r))
        by (apply (Permutation_in _ (Permutation_sym Hp)); now left).
      destruct Hxin as [->|Hxin]; [reflexivity|].
      destruct Hyin as [->|Hyin]; [reflexivity|].
      specialize (Hx _ Hyin). specialize (Hy _ Hxin). lia. }
    subst y. f_equal. apply IH; auto.
    now apply Permutation_cons_inv in Hp.
Qed.

Lemma sort_desc_unique l l' :
  Permutation l l' -> NoDup (map key l) -> sort_desc key l = sort_desc key l'.
Proof.
  intros Hp Hd. apply strictly_sorted_unique.
  - apply sorted_strictly; [apply sort_desc_sorted|].
    eapply Permutation_NoDup; [|exact Hd].
    apply Permutation_map, Permutation_sym, sort_desc_perm.
  - apply sorted_strictly; [apply sort_desc_sorted|].
    eapply Permutation_NoDup; [|exact Hd].
    apply Permutation_map.
    etransitivity; [exact Hp|apply Permutation_sym, sort_desc_perm].
  - etransitivity; [apply sort_desc_perm|].
    etransitivity; [exact Hp|apply Permutation_sym, sort_desc_perm].
Qed.
End Sort.

Lemma Permutation_filter {A} (f : A -> bool) (l l' : list A) :
  Permutation l l' -> Permutation (filter f l) (filter f l').
Proof.
  induction 1 as [|x l l' Hp IH|x y l|l l' l'' H1 IH1 H2 IH2]; simpl.
  - constructor.
  - destruct (f x); auto.
  - destruct (f x), (f y); auto. apply perm_swap.
  - etransitivity; eassumption.
Qed.

Lemma insert_desc_map {A B} (f : A -> B) (key : B -> Z) x l :
  insert_desc key (f x) (map f l) = map f (insert_desc (fun a => key (f a)) x l).
Proof.
  induction l as [|y r IH]; simpl; auto.
  destruct (key (f y) <=? key (f x)); simpl; auto. now rewrite IH.
Qed.

Lemma sort_desc_map {A B} (f : A -> B) (key : B -> Z) l :
  sort_desc key (map f l) = map f (sort_desc (fun a => key (f a)) l).
Proof.
  induction l as [|x r IH]; simpl; auto.
  now rewrite IH, insert_desc_map.
Qed.

Lemma sort_desc_ext {A} (k1 k2 : A -> Z) l :
  (forall a, k1 a = k2 a) -> sort_desc k1 l = sort_desc k2 l.
Proof.
  intros H. induction l as [|x r IH]; simpl; auto. rewrite IH.
  generalize (sort_desc k2 r). intros l'.
  induction l' as [|y r' IH']; simpl; auto.
  now rewrite !H, IH'.
Qed.

Lemma top3 {A} (l : list A) :
  (if (3 <=? List.length l)%nat then firstn 3 l else l) = firstn 3 l.
Proof.
  destruct (3 <=? List.length l)%nat eqn:E; auto.
  apply Nat.leb_gt in E. symmetry. apply firstn_all2. lia.
Qed.

(** ** The three counts *)

Lemma count_component db ids a c :
  count_documents (db_collection db "issue") (component_query ids a c)
  = Z.of_nat (List.length
      (filter (fun issue => in_systems ids issue && assigned_to a issue
                            && (field_matches "component" c issue
                                || field_matches "title" c issue))
              (db_collection db "issue"))).
Proof.
  unfold count_documents, find. do 2 f_equal. apply filter_ext. intros d.
  unfold matches, component_query, in_systems, assigned_to, field_matches.
  cbn [forallb existsb clause_matches cond_matches].
  rewrite !andb_true_r, !orb_false_r. now rewrite andb_assoc.
Qed.

Lemma count_keyword db ids a k :
  count_documents (db_collection db "issue") (keyword_query ids a k)
  = Z.of_nat (List.length
      (filter (fun issue => in_systems ids issue && assigned_to a issue
                            && (field_matches "title" k issue
                                || field_matches "desc" k issue))
              (db_collection db "issue"))).
Proof.
  unfold count_documents, find. do 2 f_equal. apply filter_ext. intros d.
  unfold matches, keyword_query, in_systems, assigned_to, field_matches.
  cbn [forallb existsb clause_matches cond_matches].
  rewrite !andb_true_r, !orb_false_r. now rewrite andb_assoc.
Qed.

Lemma count_resolved db ids a :
  count_documents (db_collection db "issue") (resolved_query ids a)
  = Z.of_nat (List.length
      (filter (fun issue => in_systems ids issue && assigned_to a issue
                            && field_equals (dict_get "status" issue) (VStr "Resolved"))
              (db_collection db "issue"))).
Proof.
  unfold count_documents, find. do 2 f_equal. apply filter_ext. intros d.
  unfold matches, resolved_query, in_systems, assigned_to.
  cbn [forallb existsb clause_matches cond_matches].
  rewrite !andb_true_r. now rewrite andb_assoc.
Qed.

Lemma truthy_given o : truthy (opt_text o) = given o.
Proof. destruct o; reflexivity. Qed.

Lemma expertise_score_of_recommendation c :
  expertise_score_of (recommendation c) = score c.
Proof. reflexivity. Qed.

Lemma count_issues_where_nonneg db name a extra :
  0 <= count_issues_where db name a extra.
Proof. unfold count_issues_where. lia. Qed.

Lemma component_experience_nonneg db name component a :
  0 <= component_experience_of db name component a.
Proof.
  unfold component_experience_of.
  destruct (given component); [apply count_issues_where_nonneg|lia].
Qed.

Lemma keyword_experience_nonneg db name keywords a :
  0 <= keyword_experience_of db name keywords a.
Proof.
  unfold keyword_experience_of.
  destruct (given keywords); [apply count_issues_where_nonneg|lia].
Qed.

Lemma score_nonneg db name component keywords a :
  0 <= score (candidate_of db name component keywords a).
Proof.
  pose proof (component_experience_nonneg db name component a).
  pose proof (keyword_experience_nonneg db name keywords a).
  pose proof (count_issues_where_nonneg db name a
                (fun issue => field_equals (dict_get "status" issue) (VStr "Resolved"))).
  unfold score, candidate_of, resolved_count_of. cbn [cand_component cand_keyword cand_resolved].
  lia.
Qed.

(** The loop adds, for each assignee that is not skipped and has a score
    that is not 0, its entry, in the order of the assignees. *)
Lemma expertise_loop_scores db name component keywords :
  project_exists db name = true ->
  has_ids db = true ->
  forall assignees recommendations,
    expertise_loop db name component keywords assignees recommendations
    = inr (recommendations
           ++ map recommendation
                (scored (candidates db name component keywords assignees))).
Proof.
  intros He Hw. induction assignees as [|a rest IH]; intros recs.
  - simpl. now rewrite app_nil_r.
  - cbn [expertise_loop]. unfold candidates, scored in *. cbn [filter].
    destruct (truthy a) eqn:Ha; cbn [negb]; [|apply IH].
    rewrite !truthy_given, (_get_issue_system_ids_resolved _ _ He Hw).
    cbn [map filter].
    assert (Hc :
      (if given component
       then ids <- inr (project_systems db name) ;;
            ret (count_documents (db_collection db "issue")
                   (component_query ids a (text_of component)))
       else ret 0)
      = inr (component_experience_of db name component a)).
    { unfold component_experience_of. destruct (given component); auto.
      simpl. now rewrite count_component. }
    assert (Hk :
      (if given keywords
       then ids <- inr (project_systems db name) ;;
            ret (count_documents (db_collection db "issue")
                   (keyword_query ids a (text_of keywords)))
       else ret 0)
      = inr (keyword_experience_of db name keywords a)).
    { unfold keyword_experience_of. destruct (given keywords); auto.
      simpl. now rewrite count_keyword. }
    rewrite Hc, Hk. cbn [bind]. rewrite count_resolved.
    fold (count_issues_where db name a
            (fun issue => field_equals (dict_get "status" issue) (VStr "Resolved"))).
    fold (resolved_count_of db name a).
    set (c := candidate_of db name component keywords a).
    assert (Hs : component_experience_of db name component a * 2
                 + keyword_experience_of db name keywords a
                 + resolved_count_of db name a = score c).
    { unfold score, c, candidate_of.
      cbn [cand_component cand_keyword cand_resolved]. lia. }
    rewrite Hs.
    pose proof (score_nonneg db name component keywords a) as Hn. fold c in Hn.
    destruct (score c >? 0) eqn:Eg.
    + assert (E0 : (score c =? 0) = false) by (apply Z.eqb_neq; lia).
      rewrite E0. cbn [negb map]. rewrite IH, <- app_assoc. reflexivity.
    + assert (E0 : (score c =? 0) = true) by (apply Z.eqb_eq; lia).
      rewrite E0. cbn [negb]. apply IH.
Qed.

Lemma get_project_assignees_all order db name :
  project_exists db name = true ->
  has_ids db = true ->
  scalar_assignees db = true ->
  get_project_assignees order db name None None None None
  = [("assignees",
      VList (map serialize_mongo_doc (set_iter order (stored_assignees db name))));
     ("count",
      VInt (Z.of_nat (List.length (set_iter order (stored_assignees db name)))))].
Proof.
  intros He Hw Hs. rewrite get_project_assignees_found by assumption.
  rewrite projected_values.
  rewrite set_of_scalars by (now apply assignee_values_hashable).
  reflexivity.
Qed.

(** The analysis, for a project that is present: the entries of the
    scored candidates, sorted, the first three of them, and their
    number. *)
Lemma analyze_developer_expertise_found order db name component keywords :
  project_exists db name = true ->
  has_ids db = true ->
  scalar_assignees db = true ->
  patterns_modelled component keywords = true ->
  analyze_developer_expertise order db name component keywords
  = let cs := candidates db name component keywords
                (map serialize_mongo_doc (set_iter order (stored_assignees db name))) in
    Some [("recommendations",
           VList (map recommendation (firstn 3 (sort_desc score (scored cs)))));
          ("total_candidates", VInt (Z.of_nat (List.length (scored cs))))].
Proof.
  intros He Hw Hs Hp. unfold analyze_developer_expertise.
  rewrite get_project_assignees_all by assumption.
  cbn [has_key dict_get String.eqb Ascii.eqb Bool.eqb].
  rewrite Hp. cbn [negb]. rewrite andb_false_r.
  rewrite (expertise_loop_scores _ _ _ _ He Hw). cbn [bind app catching ret].
  rewrite top3, sort_desc_map.
  rewrite (sort_desc_ext _ score) by (intros; apply expertise_score_of_recommendation).
  rewrite <- firstn_map.
  rewrite <- (Permutation_length (sort_desc_perm score _)), length_map.
  rewrite (Permutation_length (sort_desc_perm score _)).
  reflexivity.
Qed.




(** ** The counts of a candidate *)








(** The analysis in terms of its loop: the entries of the loop, sorted,
    the first three of them, and their number. *)
Lemma analyze_developer_expertise_entries order db name component keywords :
  project_exists db name = true ->
  has_ids db = true ->
  scalar_assignees db = true ->
  patterns_modelled component keywords = true ->
  analyze_developer_expertise order db name component keywords
  = let entries :=
      map recommendation
        (scored (candidates db name component keywords
                   (map serialize_mongo_doc
                      (set_iter order (stored_assignees db name))))) in
    Some [("recommendations", VList (firstn 3 (sort_desc expertise_score_of entries)));
          ("total_candidates", VInt (Z.of_nat (List.length entries)))].
Proof.
  intros He Hw Hs Hp. unfold analyze_developer_expertise.
  rewrite get_project_assignees_all by assumption.
  cbn [has_key dict_get String.eqb Ascii.eqb Bool.eqb].
  rewrite Hp. cbn [negb]. rewrite andb_false_r.
  rewrite (expertise_loop_scores _ _ _ _ He Hw). cbn [bind app catching ret].
  rewrite top3.
  rewrite (Permutation_length (sort_desc_perm expertise_score_of _)).
  reflexivity.
Qed.

(** The sample store: anna has the counts (3,0,1), bob (0,2,1), carl
    (1,1,1) and dora (0,0,0).  The three scores differ, so the ranking
    is the same in whatever order the assignees are gone over. *)
Example expertise_scores_of_the_sample : forall order,
  analyze_developer_expertise order demo_db "demo" (Some "ui") (Some "crash")
  = Some [("recommendations",
           VList [VDict [("developer_id", VStr "dev-anna");
                         ("developer_name", VStr "Dev-anna");
                         ("expertise_score", VInt 7);
                         ("component_experience", VInt 3);
                         ("keyword_experience", VInt 0);
                         ("resolved_issues", VInt 1)];
                  VDict [("developer_id", VStr "dev-carl");
                         ("developer_name", VStr "Dev-carl");
                         ("expertise_score", VInt 4);
                         ("component_experience", VInt 1);
                         ("keyword_experience", VInt 1);
                         ("resolved_issues", VInt 1)];
                  VDict [("developer_id", VStr "dev-bob");
                         ("developer_name", VStr "Dev--bob");
                         ("expertise_score", VInt 3);
                         ("component_experience", VInt 0);
                         ("keyword_experience", VInt 2);
                         ("resolved_issues", VInt 1)]]);
          ("total_candidates", VInt 3)].
Proof.
  intros order.
  rewrite analyze_developer_expertise_entries by reflexivity. cbv zeta.
  set (entries := fun assignees =>
         map recommendation
           (scored (candidates demo_db "demo" (Some "ui") (Some "crash")
                      (map serialize_mongo_doc assignees)))).
  change (Some [("recommendations",
                 VList (firstn 3 (sort_desc expertise_score_of
                          (entries (set_iter order (stored_assignees demo_db "demo"))))));
                ("total_candidates",
                 VInt (Z.of_nat (List.length
                          (entries (set_iter order (stored_assignees demo_db "demo"))))))]
          = Some [("recommendations",
                   VList (firstn 3 (sort_desc expertise_score_of
                            (entries (stored_assignees demo_db "demo")))));
                  ("total_candidates",
                   VInt (Z.of_nat (List.length
                            (entries (stored_assignees demo_db "demo")))))]).
  assert (Hp : Permutation (entries (stored_assignees demo_db "demo"))
                 (entries (set_iter order (stored_assignees demo_db "demo")))).
  { unfold entries, scored, candidates.
    apply Permutation_map, Permutation_filter, Permutation_map, Permutation_filter,
      Permutation_map, Permutation_sym, set_iter_perm. }
  rewrite <- (Permutation_length Hp).
  rewrite <- (sort_desc_unique expertise_score_of _ _ Hp); [reflexivity|].
  repeat constructor; simpl; intuition discriminate.
Qed.




(** An assignee stored as a native identifier is analysed under the text
    of the identifier, which no native field equals: issue b1 is resolved
    and assigned to "5f00000000000000000000ee", and the analysis counts no
    resolved issue for this developer and recommends nobody, in whatever
    order the assignees are listed (they are shown here in the order in
    which the set got them). *)
Example native_assignee_has_no_counts :
  get_project_assignees insertion_order native_db "demo" None None None None
  = [("assignees", VList [VStr "5f00000000000000000000ee";
                          VStr "5f00000000000000000000ee";
                          VNone]);
     ("count", VInt 3)]
  /\ resolved_count_of native_db "demo" (VStr "5f00000000000000000000ee") = 0
  /\ resolved_count_of native_db "demo" (VOid "5f00000000000000000000ee") = 1
  /\ (forall order,
        analyze_developer_expertise order native_db "demo" (Some "ui") None
        = Some [("recommendations", VList []); ("total_candidates", VInt 0)]).
Proof.
  repeat split; try reflexivity. intros order.
  rewrite analyze_developer_expertise_entries by reflexivity. cbv zeta.
  assert (Hnone : forall l, incl l (stored_assignees native_db "demo") ->
            scored (candidates native_db "demo" (Some "ui") None
                      (map serialize_mongo_doc l)) = []).
  { induction l as [|v l IH]; intros Hl; [reflexivity|].
    assert (Hv : In v (stored_assignees native_db "demo")) by (apply Hl; now left).
    assert (Hr : incl l (stored_assignees native_db "demo"))
      by (intros x Hx; apply Hl; now right).
    specialize (IH Hr). unfold scored, candidates in *.
    destruct Hv as [<-|[<-|[<-|[]]]]; exact IH. }
  rewrite Hnone; [reflexivity|].
  intros v Hv. now apply set_iter_In in Hv.
Qed.

(* ===================================================================== *)
(** * The router *)
(* ===================================================================== *)

Lemma mapM_app {A B} (f : A -> exc B) (l1 l2 : list A) :
  mapM f (l1 ++ l2)
  = (o1 <- mapM f l1 ;; o2 <- mapM f l2 ;; ret (o1 ++ o2)).
Proof.
  induction l1 as [|x r IH]; simpl.
  - destruct (mapM f l2); reflexivity.
  - destruct (f x) as [e|y]; simpl; auto.
    rewrite IH. destruct (mapM f r) as [e|ys]; simpl; auto.
    destruct (mapM f l2); reflexivity.
Qed.

Lemma not_in_catalog name :
  ~ In name catalog ->
  String.eqb name "fetch_project_issues" = false
  /\ String.eqb name "count_issues" = false
  /\ String.eqb name "list_unique_values" = false
  /\ String.eqb name "get_project_assignees" = false
  /\ String.eqb name "get_issue_details" = false
  /\ String.eqb name "get_issue_comments" = false
  /\ String.eqb name "analyze_developer_expertise" = false.
Proof.
  intros H. repeat split; apply String.eqb_neq; intros ->; apply H;
    unfold catalog; simpl; tauto.
Qed.

Lemma route_unsupported connector call args :
  ~ In (call_name call) catalog ->
  call_arguments call = inr args ->
  route connector call
  = inr {| tool_call_id := call_id call; output := unsupported |}.
Proof.
  intros Hn Ha. apply not_in_catalog in Hn as (H1 & H2 & H3 & H4 & H5 & H6 & H7).
  unfold route. rewrite Ha. cbn [bind].
  now rewrite H1, H2, H3, H4, H5, H6, H7.
Qed.

(** C9, as the code has it.  A call whose function name is not in the
    catalog and whose argument text decodes gives exactly the result
    [{"error": "Unsupported function call."}] and raises nothing; in a
    batch, the calls before and after it are dispatched as without it:
    when they give their outputs, the batch gives them with the output of
    the unsupported call in its place, and an exception of the batch is an
    exception of another call. *)
Theorem unsupported_call_in_batch (connector : Connector) (self : handler)
    (before after : list tool_call) (call : tool_call) (args : value) :
  ~ In (call_name call) catalog ->
  call_arguments call = inr args ->
  let answer := {| tool_call_id := call_id call;
                   output := VDict [("error", VStr "Unsupported function call.")] |} in
  route connector call = inr answer
  /\ (forall others,
        handle_requires_action connector self (before ++ after) = inr others ->
        exists outs_before outs_after,
          mapM (route connector) before = inr outs_before
          /\ mapM (route connector) after = inr outs_after
          /\ tool_outputs others = outs_before ++ outs_after
          /\ handle_requires_action connector self (before ++ call :: after)
             = inr {| response_text := response_text self;
                      tool_outputs := outs_before ++ answer :: outs_after;
                      run_id := run_id self;
                      all_tools_done := true;
                      tools_called := tools_called self |})
  /\ (forall e,
        handle_requires_action connector self (before ++ call :: after) = inl e ->
        handle_requires_action connector self (before ++ after) = inl e).
Proof.
  intros Hn Ha answer.
  pose proof (route_unsupported connector call args Hn Ha) as Hr.
  fold unsupported. fold answer in Hr.
  split; [exact Hr|]. unfold handle_requires_action. split.
  - intros others H. rewrite mapM_app in H. rewrite mapM_app. cbn [mapM].
    rewrite Hr. cbn [bind].
    destruct (mapM (route connector) before) as [e|ob]; [discriminate|].
    destruct (mapM (route connector) after) as [e|oa]; [discriminate|].
    cbn [bind ret] in *. inversion H; subst; clear H.
    exists ob, oa. repeat split.
  - intros e H. rewrite mapM_app in H. rewrite mapM_app. cbn [mapM] in H.
    rewrite Hr in H. cbn [bind] in H.
    destruct (mapM (route connector) before) as [e1|ob]; [exact H|].
    destruct (mapM (route connector) after) as [e2|oa]; [exact H|].
    discriminate.
Qed.

Lemma unsupported_call_in_batch_witness :
  ~ In (call_name unknown_call) catalog
  /\ route (constant_connector (VDict [("count", VInt 8)])) unknown_call
     = inr {| tool_call_id := "call_2";
              output := VDict [("error", VStr "Unsupported function call.")] |}
  /\ handle_requires_action (constant_connector (VDict [("count", VInt 8)]))
       new_handler ([count_call] ++ unknown_call :: [comments_call])
     = inr {| response_text := "";
              tool_outputs :=
                [{| tool_call_id := "call_1"; output := VDict [("count", VInt 8)] |};
                 {| tool_call_id := "call_2";
                    output := VDict [("error", VStr "Unsupported function call.")] |};
                 {| tool_call_id := "call_3"; output := VDict [("count", VInt 8)] |}];
              run_id := None;
              all_tools_done := true;
              tools_called := false |}.
Proof.
  assert (Hn : ~ In (call_name unknown_call) catalog).
  { simpl. intros H. repeat (destruct H as [H|H]; [discriminate|]). exact H. }
  destruct (unsupported_call_in_batch (constant_connector (VDict [("count", VInt 8)]))
              new_handler [count_call] [comments_call] unknown_call
              (VDict [("issue_id", VStr "DEMO-1")]) Hn eq_refl)
    as (Hr & Hb & _).
  split; [exact Hn|]. split; [exact Hr|].
  destruct (Hb _ eq_refl) as (ob & oa & H1 & H2 & _ & H).
  inversion H1; subst. inversion H2; subst. exact H.
Defined.

(** The claim C9 for every batch fails where the argument text of the
    unsupported call is not JSON: the text is decoded before the name is
    looked at, the exception leaves the handler, and the call before it,
    which alone gives its output, has none. *)
Lemma undecodable_arguments_raise :
  ~ In (call_name unknown_call_bad_text) catalog
  /\ route (constant_connector (VDict [("count", VInt 8)])) unknown_call_bad_text
     = inl "Expecting property name enclosed in double quotes"
  /\ handle_requires_action (constant_connector (VDict [("count", VInt 8)]))
       new_handler [count_call]
     = inr {| response_text := "";
              tool_outputs :=
                [{| tool_call_id := "call_1"; output := VDict [("count", VInt 8)] |}];
              run_id := None;
              all_tools_done := true;
              tools_called := false |}
  /\ handle_requires_action (constant_connector (VDict [("count", VInt 8)]))
       new_handler [count_call; unknown_call_bad_text]
     = inl "Expecting property name enclosed in double quotes".
Proof.
  split; [|repeat split; reflexivity].
  simpl. intros H. repeat (destruct H as [H|H]; [discriminate|]). exact H.
Qed.

(* ===================================================================== *)
(** * Results of the operations *)
(* ===================================================================== *)

Lemma plain_entry k v (r : dict) :
  json_plain (VDict ((k, v) :: r)) = json_plain v && json_plain (VDict r).
Proof. reflexivity. Qed.

Lemma plain_documents (docs : list document) :
  json_plain (serialize_mongo_doc (VList (map VDict docs))) = true.
Proof. apply serialize_plain. Qed.

Lemma forallb_perm {A} (f : A -> bool) (l l' : list A) :
  Permutation l l' -> forallb f l = true -> forallb f l' = true.
Proof.
  intros Hp H. apply forallb_forall. intros x Hx.
  rewrite forallb_forall in H. apply H.
  eapply Permutation_in; [symmetry; exact Hp|exact Hx].
Qed.

Lemma forallb_firstn {A} (f : A -> bool) n (l : list A) :
  forallb f l = true -> forallb f (firstn n l) = true.
Proof.
  revert l. induction n as [|n IH]; intros [|x l]; simpl; auto.
  intros H. apply andb_prop in H as [Hx Hl]. now rewrite Hx, IH.
Qed.

(** The entries the loop appends hold texts and numbers only. *)
Lemma expertise_loop_plain db name component keywords : forall assignees recs out,
  forallb json_plain recs = true ->
  expertise_loop db name component keywords assignees recs = inr out ->
  forallb json_plain out = true.
Proof.
  induction assignees as [|a rest IH]; intros recs out Hr H.
  - simpl in H. inversion H; subst. exact Hr.
  - cbn [expertise_loop] in H.
    destruct (negb (truthy a)); [now apply (IH _ _ Hr)|].
    destruct (if truthy (opt_text component) then _ else _) as [e|ce];
      [discriminate|].
    cbn [bind] in H.
    destruct (if truthy (opt_text keywords) then _ else _) as [e|ke];
      [discriminate|].
    cbn [bind] in H.
    destruct (_get_issue_system_ids db name) as [e|ids]; [discriminate|].
    cbn [bind] in H.
    destruct (_ >? 0); [|now apply (IH _ _ Hr)].
    apply (IH _ _) in H; auto.
    rewrite forallb_app, Hr. reflexivity.
Qed.

Ltac resolve_project_cases :=
  match goal with
  | |- context [find_one (db_collection ?db "project") ?q] =>
      destruct (find_one (db_collection db "project") q) as [?project|];
      [ destruct (negb (truthy (VDict project)));
        [ | destruct (getitem project "_id") as [?e|?pid];
            [ | cbn [bind];
                match goal with
                | |- context [mapM ?f ?l] =>
                    destruct (mapM f l) as [?e|?ids]; [ | cbn [bind] ]
                end ] ]
      | ]
  end.

Lemma fetch_project_issues_plain db name s p t a r page page_size :
  json_plain (VDict (fetch_project_issues db name s p t a r page page_size)) = true.
Proof.
  unfold fetch_project_issues. resolve_project_cases; try reflexivity.
  destruct (cursor_skip _ _) as [e|skipped]; [reflexivity|].
  cbn [bind ret catching]. rewrite plain_entry, plain_documents. reflexivity.
Qed.

Lemma count_issues_plain db name s p t a r :
  json_plain (VDict (count_issues db name s p t a r)) = true.
Proof. unfold count_issues. resolve_project_cases; reflexivity. Qed.

Lemma get_project_assignees_plain order db name s p t r :
  json_plain (VDict (get_project_assignees order db name s p t r)) = true.
Proof.
  unfold get_project_assignees. resolve_project_cases; try reflexivity.
  destruct (set_of _ _) as [e|assignee_ids]; [reflexivity|].
  cbn [bind ret catching]. rewrite plain_entry, serialize_plain. reflexivity.
Qed.

Lemma get_issue_details_plain db issue_identifier :
  json_plain (VDict (get_issue_details db issue_identifier)) = true.
Proof.
  unfold get_issue_details.
  destruct (find_one _ _) as [issue|]; [|reflexivity].
  destruct (negb _); [reflexivity|].
  destruct (getitem issue "_id") as [e|issue_id]; [reflexivity|].
  cbn [bind ret catching].
  rewrite !plain_entry.
  rewrite (serialize_plain (VDict issue)), !plain_documents. reflexivity.
Qed.

Lemma get_issue_comments_plain db issue_id :
  json_plain (VDict (get_issue_comments db issue_id)) = true.
Proof.
  unfold get_issue_comments. cbn [bind ret catching].
  now rewrite plain_entry, plain_documents.
Qed.

Lemma list_unique_values_plain db collection_name attribute_name filters result :
  list_unique_values db collection_name attribute_name filters = Some result ->
  json_plain (VDict result) = true.
Proof.
  unfold list_unique_values. destruct (negb (existsb _ _)).
  - intros H. injection H as <-. reflexivity.
  - destruct (negb (query_modelled _)); [discriminate|].
    intros H. injection H as <-.
    match goal with
    | |- json_plain (VDict [(_, VList (map serialize_mongo_doc ?l))]) = true =>
        exact (serialize_plain (VDict [("unique_values", VList l)]))
    end.
Qed.

Lemma analyze_developer_expertise_plain order db name component keywords result :
  analyze_developer_expertise order db name component keywords = Some result ->
  json_plain (VDict result) = true.
Proof.
  unfold analyze_developer_expertise.
  destruct (has_key "error" _).
  - intros H. injection H as <-. apply get_project_assignees_plain.
  - destruct (_ && _); [discriminate|].
    destruct (expertise_loop _ _ _ _ _ _) as [e|recs] eqn:E;
      cbn [bind ret catching]; cbv zeta.
    { intros H. injection H as <-. reflexivity. }
    rewrite top3. set (ranked := sort_desc expertise_score_of recs).
    intros H. injection H as <-. rewrite plain_entry.
    apply expertise_loop_plain in E; [|reflexivity].
    apply andb_true_intro. split; [|reflexivity].
    change (forallb json_plain (firstn 3 ranked) = true).
    apply forallb_firstn.
    eapply forallb_perm; [symmetry; apply sort_desc_perm|exact E].
Qed.

Lemma json_dumps_plain v : json_plain v = true -> json_dumps v = inr v.
Proof. intros H. unfold json_dumps. now rewrite H. Qed.

(** X1.  Whatever the documents of the store hold (null, booleans, integers,
    texts, identifiers, datetimes, lists and embedded documents) and
    whatever the arguments are, the result of each of the seven operations
    holds no identifier and no datetime at any depth, an error result
    included: [json.dumps], which the router applies to the result, never
    fails on it. *)
Theorem results_are_json_serializable (db : database) :
  (forall name s p t a r page page_size,
     let result := VDict (fetch_project_issues db name s p t a r page page_size) in
     json_dumps result = inr result)
  /\ (forall name s p t a r,
        let result := VDict (count_issues db name s p t a r) in
        json_dumps result = inr result)
  /\ (forall order name s p t r,
        let result := VDict (get_project_assignees order db name s p t r) in
        json_dumps result = inr result)
  /\ (forall issue_identifier,
        let result := VDict (get_issue_details db issue_identifier) in
        json_dumps result = inr result)
  /\ (forall issue_id,
        let result := VDict (get_issue_comments db issue_id) in
        json_dumps result = inr result)
  /\ (forall collection_name attribute_name filters result,
        list_unique_values db collection_name attribute_name filters = Some result ->
        json_dumps (VDict result) = inr (VDict result))
  /\ (forall order name component keywords result,
        analyze_developer_expertise order db name component keywords = Some result ->
        json_dumps (VDict result) = inr (VDict result)).
Proof.
  repeat split; intros; apply json_dumps_plain.
  - apply fetch_project_issues_plain.
  - apply count_issues_plain.
  - apply get_project_assignees_plain.
  - apply get_issue_details_plain.
  - apply get_issue_comments_plain.
  - eapply list_unique_values_plain; eassumption.
  - eapply analyze_developer_expertise_plain; eassumption.
Qed.

Lemma results_are_json_serializable_witness :
  list_unique_values native_db "issue" "assignee_id" None
  = Some [("unique_values", VList [VStr "5f00000000000000000000ee";
                                   VStr "5f00000000000000000000ee";
                                   VNone])]
  /\ json_dumps (VDict [("unique_values", VList [VStr "5f00000000000000000000ee";
                                                  VStr "5f00000000000000000000ee";
                                                  VNone])])
     = inr (VDict [("unique_values", VList [VStr "5f00000000000000000000ee";
                                            VStr "5f00000000000000000000ee";
                                            VNone])]).
Proof.
  split; [reflexivity|].
  destruct (results_are_json_serializable native_db) as (_ & _ & _ & _ & _ & Hu & _).
  apply (Hu "issue" "assignee_id" None). reflexivity.
Defined.

Lemma error_is_error msg : error_or_data [("error", VStr msg)].
Proof. left. now exists msg. Qed.

Lemma fetch_project_issues_shape db name s p t a r page page_size :
  error_or_data (fetch_project_issues db name s p t a r page page_size).
Proof.
  unfold fetch_project_issues. resolve_project_cases; try apply error_is_error.
  destruct (cursor_skip _ _) as [e|skipped]; [apply error_is_error|].
  right. reflexivity.
Qed.

Lemma count_issues_shape db name s p t a r :
  error_or_data (count_issues db name s p t a r).
Proof.
  unfold count_issues. resolve_project_cases; try apply error_is_error.
  right. reflexivity.
Qed.

Lemma get_project_assignees_shape order db name s p t r :
  error_or_data (get_project_assignees order db name s p t r).
Proof.
  unfold get_project_assignees. resolve_project_cases; try apply error_is_error.
  destruct (set_of _ _) as [e|assignee_ids]; [apply error_is_error|].
  right. reflexivity.
Qed.

Lemma get_issue_details_shape db issue_identifier :
  error_or_data (get_issue_details db issue_identifier).
Proof.
  unfold get_issue_details.
  destruct (find_one _ _) as [issue|]; [|apply error_is_error].
  destruct (negb _); [apply error_is_error|].
  destruct (getitem issue "_id") as [e|issue_id]; [apply error_is_error|].
  right. reflexivity.
Qed.

(** X2.  Each operation returns either exactly [{"error": text}] or a dict
    without an [error] key, so the presence of the key tells an error from
    data.  The analysis, which tests the key on the result of
    [get_project_assignees], hands on an error of that operation
    unchanged and nothing else of it. *)
Theorem error_key_tells_errors (db : database) :
  (forall name s p t a r page page_size,
     error_or_data (fetch_project_issues db name s p t a r page page_size))
  /\ (forall name s p t a r, error_or_data (count_issues db name s p t a r))
  /\ (forall order name s p t r,
        error_or_data (get_project_assignees order db name s p t r))
  /\ (forall issue_identifier, error_or_data (get_issue_details db issue_identifier))
  /\ (forall issue_id, error_or_data (get_issue_comments db issue_id))
  /\ (forall collection_name attribute_name filters result,
        list_unique_values db collection_name attribute_name filters = Some result ->
        error_or_data result)
  /\ (forall order name component keywords result,
        analyze_developer_expertise order db name component keywords = Some result ->
        error_or_data result
        /\ (has_key "error"
              (get_project_assignees order db name None None None None) = true ->
            result = get_project_assignees order db name None None None None)).
Proof.
  split; [intros; apply fetch_project_issues_shape|].
  split; [intros; apply count_issues_shape|].
  split; [intros; apply get_project_assignees_shape|].
  split; [intros; apply get_issue_details_shape|].
  split; [intros; right; reflexivity|]. split.
  - intros c a f result. unfold list_unique_values.
    destruct (negb (existsb _ _)).
    + intros H. injection H as <-. apply error_is_error.
    + destruct (negb (query_modelled _)); [discriminate|].
      intros H. injection H as <-. right. reflexivity.
  - intros order name component keywords result. unfold analyze_developer_expertise.
    destruct (has_key "error" _) eqn:Ek.
    + intros H. injection H as <-. split; [|reflexivity].
      apply get_project_assignees_shape.
    + destruct (_ && _); [discriminate|].
      destruct (expertise_loop _ _ _ _ _ _) as [e|recs];
        cbn [bind ret catching]; cbv zeta; intros H; injection H as <-.
      * split; [apply error_is_error|discriminate].
      * split; [right; reflexivity|discriminate].
Qed.

Lemma error_key_tells_errors_witness :
  analyze_developer_expertise insertion_order demo_db "zookeeper" (Some "ui") None
  = Some [("error", VStr "Project 'zookeeper' not found.")]
  /\ error_or_data [("error", VStr "Project 'zookeeper' not found.")].
Proof.
  split; [reflexivity|].
  destruct (error_key_tells_errors demo_db) as (_ & _ & _ & _ & _ & _ & Ha).
  apply (Ha insertion_order "zookeeper" (Some "ui") None). reflexivity.
Defined.

(* ===================================================================== *)
(** * What the filters select *)
(* ===================================================================== *)

Lemma matches_app q1 q2 d : matches (q1 ++ q2) d = matches q1 d && matches q2 d.
Proof. unfold matches. apply forallb_app. Qed.

Lemma matches_set_if c field v q d :
  matches (set_if c field v q) d
  = matches q d && (if c then field_equals (dict_get field d) v else true).
Proof.
  unfold set_if. destruct c.
  - now rewrite matches_app, matches_field_eq.
  - now rewrite andb_true_r.
Qed.

Lemma matches_in_systems ids d :
  matches [Field "issue_system_id" (CIn ids)] d = in_systems ids d.
Proof. unfold matches, in_systems. simpl. apply andb_true_r. Qed.

Lemma matches_fetch_query ids s p t a r d :
  matches (fetch_project_issues_query ids s p t a r) d = selected ids s p t a r d.
Proof.
  unfold fetch_project_issues_query, selected, text_filter, ident_filter.
  rewrite !matches_set_if, matches_in_systems, !truthy_given.
  destruct s, p, t; reflexivity.
Qed.

Lemma find_fetch_query c ids s p t a r :
  find c (fetch_project_issues_query ids s p t a r) = filter (selected ids s p t a r) c.
Proof.
  unfold find. apply filter_ext. intros d. apply matches_fetch_query.
Qed.

Lemma In_firstn {A} n (l : list A) x : In x (firstn n l) -> In x l.
Proof.
  revert l. induction n as [|n IH]; intros [|y l]; simpl; try tauto.
  intros [H|H]; auto.
Qed.

Lemma In_skipn {A} n (l : list A) x : In x (skipn n l) -> In x l.
Proof.
  revert l. induction n as [|n IH]; intros [|y l]; simpl; auto.
Qed.

Lemma In_cursor_limit n docs d : In d (cursor_limit n docs) -> In d docs.
Proof.
  unfold cursor_limit. destruct (n =? 0); auto. apply In_firstn.
Qed.

(** X3.  The filters are conjoined and scoped to the project.  For a project
    that is present, the count is the number of issues of the store that
    belong to an issue system of the project and whose fields equal every
    filter that is given; a fetch returns only such issues, whatever the
    page. *)
Theorem filters_are_conjoined (db : database) (name : string)
    (s p t : option string) (a r : option ident) :
  project_exists db name = true ->
  has_ids db = true ->
  let chosen := selected (project_systems db name) s p t a r in
  count_issues db name s p t a r
  = [("count", VInt (Z.of_nat (List.length (filter chosen (db_collection db "issue")))))]
  /\ (forall page page_size,
        0 <= (page - 1) * page_size ->
        exists issues,
          fetch_project_issues db name s p t a r page page_size
          = [("issues", serialize_mongo_doc (VList (map VDict issues)));
             ("page", VInt page);
             ("page_size", VInt page_size);
             ("total_count",
              VInt (Z.of_nat (List.length (filter chosen (db_collection db "issue")))))]
          /\ (forall issue, In issue issues ->
                In issue (db_collection db "issue") /\ chosen issue = true)).
Proof.
  intros He Hw chosen. split.
  - rewrite count_issues_found by assumption.
    unfold count_documents. now rewrite (find_fetch_query _ _ s p t a r).
  - intros page page_size Hskip.
    rewrite fetch_project_issues_found by assumption. cbv zeta.
    rewrite (cursor_skip_ok _ _ Hskip). cbn [bind ret catching].
    unfold count_documents. rewrite find_fetch_query. fold chosen.
    eexists. split; [reflexivity|].
    intros issue Hi. apply In_cursor_limit, In_skipn in Hi.
    now apply filter_In in Hi.
Qed.

Lemma filters_are_conjoined_witness :
  project_exists demo_db "demo" = true
  /\ has_ids demo_db = true
  /\ count_issues demo_db "demo" (Some "Open") None None
       (Some (IdText "dev-anna")) None
     = [("count", VInt 2)].
Proof.
  split; [reflexivity|]. split; [reflexivity|].
  apply (proj1 (filters_are_conjoined demo_db "demo" (Some "Open") None None
                  (Some (IdText "dev-anna")) None eq_refl eq_refl)).
Defined.

Lemma filter_length_le {A} (f g : A -> bool) (l : list A) :
  (forall x, f x = true -> g x = true) ->
  (List.length (filter f l) <= List.length (filter g l))%nat.
Proof.
  intros H. induction l as [|x l IH]; simpl; auto.
  destruct (f x) eqn:Ef.
  - rewrite (H _ Ef). simpl. lia.
  - destruct (g x); simpl; lia.
Qed.

Lemma text_filter_relaxes field (o' o : option string) d :
  relaxes o' o -> text_filter field o d = true -> text_filter field o' d = true.
Proof. unfold relaxes. intros [->| ->]; auto. Qed.

Lemma ident_filter_relaxes field (o' o : option ident) d :
  relaxes o' o -> ident_filter field o d = true -> ident_filter field o' d = true.
Proof. unfold relaxes. intros [->| ->]; auto. Qed.

(** X4.  Dropping filters never lowers the count: for a project that is
    present, the count under some filters is at most the count under any
    part of them, and at most the count of all issues of the project. *)
Theorem count_issues_monotone (db : database) (name : string)
    (s s' p p' t t' : option string) (a a' r r' : option ident) :
  project_exists db name = true ->
  has_ids db = true ->
  relaxes s' s -> relaxes p' p -> relaxes t' t -> relaxes a' a -> relaxes r' r ->
  exists n m,
    count_issues db name s p t a r = [("count", VInt n)]
    /\ count_issues db name s' p' t' a' r' = [("count", VInt m)]
    /\ 0 <= n <= m.
Proof.
  intros He Hw Hs Hp Ht Ha Hr.
  do 2 eexists. split; [|split].
  - rewrite count_issues_found by assumption. reflexivity.
  - rewrite count_issues_found by assumption. reflexivity.
  - unfold count_documents. rewrite !find_fetch_query.
    split; [lia|]. apply Nat2Z.inj_le. apply filter_length_le.
    intros d. unfold selected. rewrite !andb_true_iff.
    intros (((((H1 & H2) & H3) & H4) & H5) & H6).
    repeat split; auto;
      eauto using text_filter_relaxes, ident_filter_relaxes.
Qed.

Lemma count_issues_monotone_witness :
  exists n m,
    count_issues demo_db "demo" (Some "Open") None None (Some (IdText "dev-anna")) None
    = [("count", VInt n)]
    /\ count_issues demo_db "demo" (Some "Open") None None None None
       = [("count", VInt m)]
    /\ 0 <= n <= m.
Proof.
  apply (count_issues_monotone demo_db "demo" (Some "Open") (Some "Open")
           None None None None (Some (IdText "dev-anna")) None None None
           eq_refl eq_refl);
    (left; reflexivity) || (right; reflexivity).
Defined.

(* ===================================================================== *)
(** * Walking the pages *)
(* ===================================================================== *)

Lemma firstn_plus {A} (a b : nat) (l : list A) :
  firstn (a + b) l = firstn a l ++ firstn b (skipn a l).
Proof.
  revert l. induction a as [|a IH]; intros l; simpl; auto.
  destruct l as [|x l]; simpl.
  - now rewrite firstn_nil.
  - now rewrite IH.
Qed.

Lemma fetched_issues_found db name s p t a r page page_size :
  project_exists db name = true ->
  has_ids db = true ->
  1 <= page ->
  1 <= page_size ->
  fetched_issues (fetch_project_issues db name s p t a r page page_size)
  = map (fun d => serialize_mongo_doc (VDict d))
        (firstn (Z.to_nat page_size)
           (skipn (Z.to_nat ((page - 1) * page_size))
              (find (db_collection db "issue")
                 (fetch_project_issues_query (project_systems db name) s p t a r)))).
Proof.
  intros He Hw Hp Hs.
  rewrite fetch_project_issues_found by assumption. cbv zeta.
  rewrite cursor_skip_ok by nia. cbn [bind ret catching].
  rewrite (cursor_limit_positive _ _ Hs).
  unfold fetched_issues. cbn [dict_get String.eqb Ascii.eqb Bool.eqb].
  cbn [serialize_mongo_doc]. now rewrite map_map.
Qed.

(** X5.  Walking the pages 1, 2, ..., n with one page size [>= 1] returns the
    first [n * page_size] filtered issues, each once and in store order;
    a page holds [page_size] issues at most, and once [n * page_size]
    reaches the total the walk has returned every filtered issue. *)
Theorem pages_cover_the_issues (db : database) (name : string)
    (s p t : option string) (a r : option ident) (page_size : Z) (n : nat) :
  project_exists db name = true ->
  has_ids db = true ->
  1 <= page_size ->
  let filtered :=
    find (db_collection db "issue")
         (fetch_project_issues_query (project_systems db name) s p t a r) in
  let page_issues (k : nat) :=
    fetched_issues (fetch_project_issues db name s p t a r (Z.of_nat k) page_size) in
  flat_map page_issues (seq 1 n)
  = map (fun d => serialize_mongo_doc (VDict d))
        (firstn (n * Z.to_nat page_size) filtered)
  /\ (forall k, (1 <= k)%nat -> (List.length (page_issues k) <= Z.to_nat page_size)%nat)
  /\ ((List.length filtered <= n * Z.to_nat page_size)%nat ->
      flat_map page_issues (seq 1 n)
      = map (fun d => serialize_mongo_doc (VDict d)) filtered).
Proof.
  intros He Hw Hs filtered page_issues.
  assert (Hpage : forall k, (1 <= k)%nat ->
            page_issues k
            = map (fun d => serialize_mongo_doc (VDict d))
                  (firstn (Z.to_nat page_size)
                     (skipn ((k - 1) * Z.to_nat page_size) filtered))).
  { intros k Hk. unfold page_issues.
    rewrite fetched_issues_found by (auto; lia).
    fold filtered. do 3 f_equal.
    rewrite Z2Nat.inj_mul by lia. f_equal. lia. }
  assert (Hwalk : flat_map page_issues (seq 1 n)
                  = map (fun d => serialize_mongo_doc (VDict d))
                        (firstn (n * Z.to_nat page_size) filtered)).
  { induction n as [|m IH]; [reflexivity|].
    rewrite seq_S, flat_map_app, IH. cbn [flat_map]. rewrite app_nil_r.
    rewrite Hpage by lia.
    replace (1 + m - 1)%nat with m by lia.
    replace (S m * Z.to_nat page_size)%nat
      with (m * Z.to_nat page_size + Z.to_nat page_size)%nat by lia.
    now rewrite firstn_plus, map_app. }
  split; [exact Hwalk|]. split.
  - intros k Hk. rewrite Hpage by exact Hk.
    rewrite length_map. apply firstn_le_length.
  - intros Hall. rewrite Hwalk. now rewrite firstn_all2.
Qed.

Lemma pages_cover_the_issues_witness :
  flat_map (fun k => fetched_issues
                       (fetch_project_issues demo_db "demo" None None None None None
                          (Z.of_nat k) 3))
           (seq 1 3)
  = map (fun d => serialize_mongo_doc (VDict d)) demo_issues.
Proof.
  apply (pages_cover_the_issues demo_db "demo" None None None None None 3 3
           eq_refl eq_refl); [lia|].
  apply Nat.leb_le. reflexivity.
Defined.

(* ===================================================================== *)
(** * Equality of values *)
(* ===================================================================== *)

Lemma pairwise_distinct_NoDup l : pairwise_distinct value_eqb l -> NoDup l.
Proof.
  unfold pairwise_distinct. induction 1 as [|a l Ha Hl IH]; constructor; auto.
  intros Hin. rewrite Forall_forall in Ha. specialize (Ha _ Hin).
  simpl in Ha. now rewrite value_eqb_refl in Ha.
Qed.

Lemma find_all c : find c [] = c.
Proof.
  unfold find, matches. simpl. induction c as [|d r IH]; simpl; auto.
  now rewrite IH.
Qed.

(* ===================================================================== *)
(** * An issue and the records that refer to it *)
(* ===================================================================== *)

Lemma find_referring db collection field issue_id :
  find (db_collection db collection) [Field field (CEq issue_id)]
  = referring db collection field issue_id.
Proof.
  unfold find, referring. apply filter_ext. intros d. apply matches_field_eq.
Qed.

(** X6.  For an external identifier some issue has, [get_issue_details]
    returns the first such issue of the store with the comments and the
    events whose [issue_id] is its identifier and the commits whose
    [linked_issue_ids] hold it, each list in store order and empty where
    nothing refers to the issue.  Its comments are those
    [get_issue_comments] returns for the identifier of the issue. *)
Theorem issue_details_found (db : database) (issue_identifier : string) :
  issue_known db issue_identifier = true ->
  forallb (has_key "_id") (db_collection db "issue") = true ->
  exists issue issue_id,
    find_one (db_collection db "issue")
             [Field "external_id" (CEq (VStr issue_identifier))] = Some issue
    /\ field_equals (dict_get "external_id" issue) (VStr issue_identifier) = true
    /\ dict_get "_id" issue = Some issue_id
    /\ get_issue_details db issue_identifier
       = [("issue", serialize_mongo_doc (VDict issue));
          ("comments",
           VList (map (fun d => serialize_mongo_doc (VDict d))
                      (referring db "issue_comment" "issue_id" issue_id)));
          ("events",
           VList (map (fun d => serialize_mongo_doc (VDict d))
                      (referring db "event" "issue_id" issue_id)));
          ("linked_commits",
           VList (map (fun d => serialize_mongo_doc (VDict d))
                      (referring db "commit" "linked_issue_ids" issue_id)))]
    /\ (forall i, ident_value i = issue_id ->
          dict_get "comments" (get_issue_details db issue_identifier)
          = dict_get "comments" (get_issue_comments db i))
    /\ (referring db "issue_comment" "issue_id" issue_id = [] ->
        dict_get "comments" (get_issue_details db issue_identifier) = Some (VList [])).
Proof.
  intros Hk Hid. unfold issue_known in Hk. rewrite <- existsb_field_eq in Hk.
  destruct (find_one_some _ _ Hk) as (issue & Hf & Hin & Hm).
  assert (Hkey : has_key "_id" issue = true).
  { rewrite forallb_forall in Hid. now apply Hid. }
  destruct (getitem_has_key _ _ Hkey) as (issue_id & Hg & Hgi).
  assert (Ht : truthy (VDict issue) = true).
  { destruct issue; [discriminate|reflexivity]. }
  assert (Hr : get_issue_details db issue_identifier
       = [("issue", serialize_mongo_doc (VDict issue));
          ("comments",
           VList (map (fun d => serialize_mongo_doc (VDict d))
                      (referring db "issue_comment" "issue_id" issue_id)));
          ("events",
           VList (map (fun d => serialize_mongo_doc (VDict d))
                      (referring db "event" "issue_id" issue_id)));
          ("linked_commits",
           VList (map (fun d => serialize_mongo_doc (VDict d))
                      (referring db "commit" "linked_issue_ids" issue_id)))]).
  { unfold get_issue_details. cbv zeta. rewrite Hf, Ht, Hgi.
    cbn [negb bind ret catching]. rewrite !find_referring.
    cbn [serialize_mongo_doc]. now rewrite !map_map. }
  exists issue, issue_id. split; [exact Hf|].
  split; [now rewrite <- matches_field_eq|].
  split; [exact Hg|]. split; [exact Hr|]. split.
  - intros i Hi. rewrite Hr. unfold get_issue_comments.
    cbn [bind ret catching]. rewrite Hi, find_referring.
    cbn [serialize_mongo_doc dict_get String.eqb Ascii.eqb Bool.eqb].
    now rewrite map_map.
  - intros He. rewrite Hr, He. reflexivity.
Qed.

Lemma issue_details_found_witness :
  issue_known tracker_db "DEMO-7" = true
  /\ exists issue issue_id,
       dict_get "_id" issue = Some issue_id
       /\ get_issue_details tracker_db "DEMO-7"
          = [("issue", serialize_mongo_doc (VDict issue));
             ("comments",
              VList (map (fun d => serialize_mongo_doc (VDict d))
                         (referring tracker_db "issue_comment" "issue_id" issue_id)));
             ("events",
              VList (map (fun d => serialize_mongo_doc (VDict d))
                         (referring tracker_db "event" "issue_id" issue_id)));
             ("linked_commits",
              VList (map (fun d => serialize_mongo_doc (VDict d))
                         (referring tracker_db "commit" "linked_issue_ids" issue_id)))].
Proof.
  split; [reflexivity|].
  destruct (issue_details_found tracker_db "DEMO-7" eq_refl eq_refl)
    as (issue & issue_id & _ & _ & Hid & Hr & _).
  exists issue, issue_id. split; [exact Hid|exact Hr].
Defined.

Example issue_details_of_the_tracker :
  get_issue_details tracker_db "DEMO-7"
  = [("issue", VDict [("_id", VStr "5f00000000000000000000b1");
                      ("external_id", VStr "DEMO-7");
                      ("title", VStr "Crash on start")]);
     ("comments",
      VList [VDict [("_id", VInt 1); ("issue_id", VStr "5f00000000000000000000b1");
                    ("comment", VStr "seen")];
             VDict [("_id", VInt 3); ("issue_id", VStr "5f00000000000000000000b1");
                    ("comment", VStr "again")]]);
     ("events", VList []);
     ("linked_commits",
      VList [VDict [("_id", VInt 10);
                    ("linked_issue_ids",
                     VList [VStr "5f00000000000000000000b2";
                            VStr "5f00000000000000000000b1"])]])].
Proof. reflexivity. Qed.

(* ===================================================================== *)
(** * Unique values *)
(* ===================================================================== *)

Lemma filters_query filters :
  match filters with
  | Some (c :: f) => c :: f
  | _ => []
  end = filter_query filters.
Proof. destruct filters as [[|c f]|]; reflexivity. Qed.

Lemma holds_value_In attribute d v :
  holds_value attribute d v
  <-> In v match dict_get attribute d with
           | Some (VList xs) => xs
           | Some x => [x]
           | None => []
           end.
Proof.
  unfold holds_value. destruct (dict_get attribute d) as [[]|]; simpl;
    try tauto; split; intros H; try (destruct H as [H|[]]); auto.
Qed.

(** X7.  For a collection the store lists and an attribute of the documents
    themselves, [list_unique_values] returns, normalized, the values the
    attribute has in the documents the filters select, an array in the
    attribute giving its elements; no stored value comes twice, and each
    comes at least once.  No filter mapping and an empty one are the
    same. *)
Theorem unique_values_are_the_values (db : database)
    (collection_name attribute_name : string) (filters : option query) :
  collection_known db collection_name = true ->
  top_level attribute_name = true ->
  query_modelled (filter_query filters) = true ->
  (exists values,
     list_unique_values db collection_name attribute_name filters
     = Some [("unique_values", VList (map serialize_mongo_doc values))]
     /\ NoDup values
     /\ (forall v,
           In v values
           <-> exists d,
                 In d (find (db_collection db collection_name) (filter_query filters))
                 /\ holds_value attribute_name d v))
  /\ list_unique_values db collection_name attribute_name None
     = list_unique_values db collection_name attribute_name (Some []).
Proof.
  intros Hk _ Hm. split; [|reflexivity].
  exists (distinct (db_collection db collection_name) attribute_name
            (filter_query filters)).
  split; [|split].
  - unfold list_unique_values. unfold collection_known in Hk.
    rewrite Hk, filters_query, Hm. reflexivity.
  - apply pairwise_distinct_NoDup. unfold distinct.
    apply distinct_values_pairwise. constructor.
  - intros v. unfold distinct. split.
    + intros H. apply distinct_values_from in H as [[]|H].
      apply in_flat_map in H as (d & Hd & Hv).
      exists d. split; [exact Hd|]. now apply holds_value_In.
    + intros (d & Hd & Hv).
      assert (Hin : In v (flat_map
                            (fun d => match dict_get attribute_name d with
                                      | Some (VList xs) => xs
                                      | Some x => [x]
                                      | None => []
                                      end)
                            (find (db_collection db collection_name)
                                  (filter_query filters)))).
      { apply in_flat_map. exists d. split; [exact Hd|]. now apply holds_value_In. }
      destruct (distinct_values_covers value_eqb value_eqb_refl _ [] _ Hin)
        as (u & Hu & He).
      apply value_eqb_eq in He. now subst.
Qed.

Lemma unique_values_are_the_values_witness :
  collection_known tracker_db "commit" = true
  /\ top_level "linked_issue_ids" = true
  /\ exists values,
       list_unique_values tracker_db "commit" "linked_issue_ids" None
       = Some [("unique_values", VList (map serialize_mongo_doc values))]
       /\ NoDup values.
Proof.
  split; [reflexivity|]. split; [reflexivity|].
  destruct (unique_values_are_the_values tracker_db "commit" "linked_issue_ids"
              None eq_refl eq_refl eq_refl) as ((values & Hr & Hn & _) & _).
  exists values. split; [exact Hr|exact Hn].
Defined.

(* ===================================================================== *)
(** * Schemas *)
(* ===================================================================== *)

Lemma dict_get_set_same k v d : dict_get k (dict_set k v d) = Some v.
Proof.
  induction d as [|[k' v'] r IH]; simpl.
  - now rewrite String.eqb_refl.
  - destruct (String.eqb k k') eqn:E; simpl.
    + now rewrite String.eqb_refl.
    + now rewrite E.
Qed.

Lemma dict_get_set_other k k' v d :
  k <> k' -> dict_get k (dict_set k' v d) = dict_get k d.
Proof.
  intros Hn. induction d as [|[k2 v2] r IH]; simpl.
  - apply String.eqb_neq in Hn. now rewrite Hn.
  - destruct (String.eqb k' k2) eqn:E; simpl.
    + apply String.eqb_eq in E. subst.
      apply String.eqb_neq in Hn. now rewrite Hn.
    + now rewrite IH.
Qed.

Lemma schemas_lookup db name : forall names schemas,
  dict_get name
    (fold_left (fun schemas collection =>
                  dict_set collection (collection_schema db collection) schemas)
               names schemas)
  = if existsb (String.eqb name) names
    then Some (collection_schema db name)
    else dict_get name schemas.
Proof.
  induction names as [|n names IH]; intros schemas; simpl; auto.
  rewrite IH. destruct (existsb (String.eqb name) names).
  - now rewrite orb_true_r.
  - rewrite orb_false_r. destruct (String.eqb name n) eqn:E.
    + apply String.eqb_eq in E. subst. apply dict_get_set_same.
    + apply String.eqb_neq in E. now apply dict_get_set_other.
Qed.

Lemma schema_field (doc : document) field :
  dict_get field (map (fun kv => (fst kv, VStr (type_name (snd kv)))) doc)
  = option_map (fun v => VStr (type_name v)) (dict_get field doc).
Proof.
  induction doc as [|[k v] r IH]; simpl; auto.
  destruct (String.eqb field k); auto.
Qed.

(** X8.  [get_collection_schemas] has an entry for every collection the store
    lists and for no other name.  The entry of a collection without
    documents is empty; otherwise it gives for each field of the first
    document the name of the type of its value, and for no other field. *)
Theorem schemas_describe_the_first_document (db : database) (name : string) :
  dict_get name (get_collection_schemas db)
  = (if collection_known db name then Some (collection_schema db name) else None)
  /\ (db_collection db name = [] -> collection_schema db name = VDict [])
  /\ (forall sample_doc rest,
        db_collection db name = sample_doc :: rest ->
        exists schema,
          collection_schema db name = VDict schema
          /\ map fst schema = map fst sample_doc
          /\ forall field,
               dict_get field schema
               = option_map (fun v => VStr (type_name v)) (dict_get field sample_doc)).
Proof.
  split; [|split].
  - unfold get_collection_schemas. cbv zeta. now rewrite schemas_lookup.
  - intros H. unfold collection_schema. now rewrite H.
  - intros sample_doc rest H. unfold collection_schema, find_one.
    rewrite find_all, H.
    exists (map (fun kv => (fst kv, VStr (type_name (snd kv)))) sample_doc).
    split; [|split].
    + destruct sample_doc; reflexivity.
    + rewrite map_map. reflexivity.
    + intros field. apply schema_field.
Qed.

Lemma schemas_describe_the_first_document_witness :
  dict_get "issue_comment" (get_collection_schemas tracker_db)
  = Some (collection_schema tracker_db "issue_comment")
  /\ collection_schema tracker_db "empty" = VDict []
  /\ exists schema,
       collection_schema tracker_db "issue_comment" = VDict schema
       /\ map fst schema = ["_id"; "issue_id"; "comment"]%string.
Proof.
  destruct (schemas_describe_the_first_document tracker_db "issue_comment")
    as (H1 & _ & H3).
  destruct (schemas_describe_the_first_document tracker_db "empty")
    as (_ & H2 & _).
  split; [exact H1|]. split; [apply H2; reflexivity|].
  destruct (H3 _ _ eq_refl) as (schema & Hs & Hk & _).
  exists schema. split; [exact Hs|exact Hk].
Defined.

Example schemas_of_the_tracker :
  get_collection_schemas tracker_db
  = [("issue", VDict [("_id", VStr "ObjectId"); ("external_id", VStr "str");
                      ("title", VStr "str")]);
     ("issue_comment", VDict [("_id", VStr "int"); ("issue_id", VStr "ObjectId");
                              ("comment", VStr "str")]);
     ("commit", VDict [("_id", VStr "int"); ("linked_issue_ids", VStr "list")]);
     ("empty", VDict [])]%string.
Proof. reflexivity. Qed.

(* ===================================================================== *)
(** * Identifiers and their texts *)
(* ===================================================================== *)

Lemma hex_digit_facts (c : ascii) :
  is_hex_digit c = true ->
  is_ascii_space c = false
  /\ (is_lower_hex c = true -> lower_char c = c).
Proof.
  destruct c as [b0 b1 b2 b3 b4 b5 b6 b7].
  destruct b0, b1, b2, b3, b4, b5, b6, b7; vm_compute;
    intros H; try discriminate H; split; try reflexivity; intros H';
    try reflexivity; discriminate H'.
Qed.

Lemma lower_hex_is_hex (c : ascii) : is_lower_hex c = true -> is_hex_digit c = true.
Proof.
  destruct c as [b0 b1 b2 b3 b4 b5 b6 b7].
  destruct b0, b1, b2, b3, b4, b5, b6, b7; vm_compute;
    intros H; try discriminate H; reflexivity.
Qed.

Lemma fromhex_hex_digits (n : nat) : forall s,
  String.length s = (2 * n)%nat ->
  forallb is_hex_digit (list_ascii_of_string s) = true ->
  fromhex s = Some (lower_str s).
Proof.
  induction n as [|n IH]; intros s Hl Hh.
  - destruct s; [reflexivity|discriminate].
  - destruct s as [|c [|c2 r]]; try (simpl in Hl; lia).
    simpl in Hl, Hh. apply andb_prop in Hh as [Hc Hh].
    apply andb_prop in Hh as [Hc2 Hr].
    cbn [fromhex lower_str].
    rewrite (proj1 (hex_digit_facts c Hc)), Hc, Hc2. cbn [andb].
    rewrite IH by (auto; lia). reflexivity.
Qed.

Lemma lower_str_canonical s :
  forallb is_lower_hex (list_ascii_of_string s) = true -> lower_str s = s.
Proof.
  induction s as [|c r IH]; simpl; auto.
  intros H. apply andb_prop in H as [Hc Hr].
  rewrite IH by exact Hr.
  now rewrite (proj2 (hex_digit_facts c (lower_hex_is_hex c Hc)) Hc).
Qed.

Lemma forallb_lower_hex_is_hex l :
  forallb is_lower_hex l = true -> forallb is_hex_digit l = true.
Proof.
  intros H. apply forallb_forall. intros c Hc. apply lower_hex_is_hex.
  rewrite forallb_forall in H. now apply H.
Qed.

Lemma as_object_id_hex_text txt :
  hex_text txt = true -> as_object_id (VStr txt) = VOid (lower_str txt).
Proof.
  unfold hex_text. intros H. apply andb_prop in H as [Hl Hh].
  apply Nat.eqb_eq in Hl.
  apply as_object_id_valid_text; [exact Hl|].
  apply (fromhex_hex_digits 12); [exact Hl|exact Hh].
Qed.

Lemma as_object_id_canonical h :
  canonical_id h = true -> as_object_id (VStr h) = VOid h.
Proof.
  unfold canonical_id. intros H. pose proof H as H0.
  apply andb_prop in H as [Hl Hh].
  rewrite as_object_id_hex_text.
  - now rewrite lower_str_canonical.
  - unfold hex_text. now rewrite Hl, forallb_lower_hex_is_hex.
Qed.

Lemma as_object_id_idempotent v : as_object_id (as_object_id v) = as_object_id v.
Proof.
  destruct (ObjectId_is_valid v) eqn:E.
  - assert (Hv : exists h, as_object_id v = VOid h).
    { unfold as_object_id. rewrite E. destruct v; try discriminate.
      - simpl in *. destruct (fromhex s) as [h|]; [now exists h|].
        rewrite andb_false_r in E. discriminate.
      - now exists hex. }
    destruct Hv as (h & ->). reflexivity.
  - assert (Hv : as_object_id v = v) by (unfold as_object_id; now rewrite E).
    now rewrite !Hv.
Qed.

(** X9.  Identifiers and their texts go round.  A text of 24 hexadecimal
    digits, in either case, is normalized to the identifier whose text is
    the lower-case text; the text a result shows for a stored identifier
    is normalized back to that identifier when it is passed as a filter;
    and normalizing a second time changes nothing. *)
Theorem identifier_text_round_trip :
  (forall txt, hex_text txt = true ->
     as_object_id (VStr txt) = VOid (lower_str txt)
     /\ py_str (as_object_id (VStr txt)) = lower_str txt)
  /\ (forall h, canonical_id h = true ->
        as_object_id (serialize_mongo_doc (VOid h)) = VOid h)
  /\ (forall v, as_object_id (as_object_id v) = as_object_id v).
Proof.
  split; [|split].
  - intros txt H. rewrite (as_object_id_hex_text _ H). split; reflexivity.
  - intros h H. simpl. now apply as_object_id_canonical.
  - apply as_object_id_idempotent.
Qed.

Lemma identifier_text_round_trip_witness :
  hex_text "5F00000000000000000000EE" = true
  /\ as_object_id (VStr "5F00000000000000000000EE") = VOid "5f00000000000000000000ee"
  /\ canonical_id "5f00000000000000000000ee" = true
  /\ as_object_id (serialize_mongo_doc (VOid "5f00000000000000000000ee"))
     = VOid "5f00000000000000000000ee".
Proof.
  destruct identifier_text_round_trip as (H1 & H2 & _).
  split; [reflexivity|].
  split; [apply (proj1 (H1 "5F00000000000000000000EE" eq_refl))|].
  split; [reflexivity|]. apply H2. reflexivity.
Defined.

(** X10.  The text [get_project_assignees] shows for an assignee stored as a
    native identifier can be passed back as the [assignee_id] filter: for
    an issue of the project assigned to the identifier, the text of the
    identifier is among the assignees, and counting with that text as the
    filter counts this issue. *)
Theorem assignee_text_selects_its_issues (order : set_order) (db : database)
    (name : string) (issue : document) (h : string) :
  project_exists db name = true ->
  has_ids db = true ->
  scalar_assignees db = true ->
  In issue (db_collection db "issue") ->
  in_systems (project_systems db name) issue = true ->
  dict_get "assignee_id" issue = Some (VOid h) ->
  canonical_id h = true ->
  (exists assignees,
     dict_get "assignees" (get_project_assignees order db name None None None None)
     = Some (VList assignees)
     /\ In (VStr h) assignees)
  /\ exists n,
       count_issues db name None None None (Some (IdText h)) None
       = [("count", VInt n)]
       /\ 1 <= n
       /\ selected (project_systems db name) None None None (Some (IdText h)) None
            issue = true.
Proof.
  intros He Hw Hs Hin Hsys Ha Hc.
  assert (Hsel : selected (project_systems db name) None None None
                   (Some (IdText h)) None issue = true).
  { unfold selected, text_filter, ident_filter. rewrite Hsys.
    cbn [given opt_ident ident_value andb].
    rewrite (as_object_id_canonical _ Hc).
    assert (Ht : truthy (VStr h) = true) by (destruct h; [discriminate|reflexivity]).
    rewrite Ht, Ha. cbn [truthy opt_ident]. simpl field_equals.
    now rewrite String.eqb_refl. }
  split.
  - rewrite get_project_assignees_all by assumption.
    eexists. split; [reflexivity|].
    assert (Hv : In (VOid h)
                   (flat_map (fun issue => match dict_get "assignee_id" issue with
                                           | Some v => [v]
                                           | None => []
                                           end)
                      (find (db_collection db "issue")
                         (get_project_assignees_query (project_systems db name)
                            None None None None)))).
    { apply in_flat_map. exists issue. split; [|rewrite Ha; now left].
      unfold find. apply filter_In. split; [exact Hin|].
      unfold get_project_assignees_query. cbn [opt_text opt_ident truthy set_if].
      now rewrite matches_in_systems. }
    destruct (distinct_values_covers py_eqb py_eqb_refl _ [] _ Hv) as (u & Hu & Hq).
    change (value_eqb (VOid h) u = true) in Hq. apply value_eqb_eq in Hq. subst u.
    apply in_map_iff. exists (VOid h). split; [reflexivity|].
    apply set_iter_In. exact Hu.
  - eexists. split; [|split; [|exact Hsel]].
    + rewrite count_issues_found by assumption. reflexivity.
    + unfold count_documents. rewrite find_fetch_query.
      assert (Hf : In issue (filter (selected (project_systems db name) None None None
                                       (Some (IdText h)) None)
                               (db_collection db "issue"))).
      { apply filter_In. split; assumption. }
      destruct (filter _ _); [contradiction|]. simpl. lia.
Qed.

Lemma assignee_text_selects_its_issues_witness :
  canonical_id "5f00000000000000000000ee" = true
  /\ (exists assignees,
        dict_get "assignees"
          (get_project_assignees reverse_order native_db "demo" None None None None)
        = Some (VList assignees)
        /\ In (VStr "5f00000000000000000000ee") assignees)
  /\ exists n,
       count_issues native_db "demo" None None None
         (Some (IdText "5f00000000000000000000ee")) None
       = [("count", VInt n)]
       /\ 1 <= n.
Proof.
  split; [reflexivity|].
  destruct (assignee_text_selects_its_issues reverse_order native_db "demo"
              [("_id", VOid "5f00000000000000000000b1");
               ("issue_system_id", VOid "5f00000000000000000000aa");
               ("assignee_id", VOid "5f00000000000000000000ee");
               ("reporter_id", VOid "5f00000000000000000000e1");
               ("component", VStr "ui"); ("status", VStr "Resolved")]
              "5f00000000000000000000ee" eq_refl eq_refl eq_refl
              (or_introl eq_refl) eq_refl eq_refl eq_refl)
    as (Ha & n & Hc & Hn & _).
  split; [exact Ha|]. exists n. split; [exact Hc|exact Hn].
Defined.

(* ===================================================================== *)
(** * Batches of tool calls *)
(* ===================================================================== *)

Lemma route_keeps_id connector call out :
  route connector call = inr out ->
  tool_call_id out = call_id call /\ json_plain (output out) = true.
Proof.
  unfold route. destruct (call_arguments call) as [e|args]; [discriminate|].
  cbn [bind]. destruct (if String.eqb _ _ then _ else _) as [e|result];
    [discriminate|].
  cbn [bind]. unfold json_dumps. destruct (json_plain result) eqn:E;
    [|discriminate].
  cbn [bind ret]. intros H. injection H as <-. auto.
Qed.

Lemma mapM_route_ids connector : forall calls outs,
  mapM (route connector) calls = inr outs ->
  map tool_call_id outs = map call_id calls
  /\ forallb (fun o => json_plain (output o)) outs = true.
Proof.
  induction calls as [|c r IH]; intros outs H; simpl in H.
  - injection H as <-. auto.
  - destruct (route connector c) as [e|o] eqn:Er; [discriminate|].
    cbn [bind] in H. destruct (mapM (route connector) r) as [e|os]; [discriminate|].
    cbn [bind ret] in H. injection H as <-.
    destruct (route_keeps_id _ _ _ Er) as [Hi Hp].
    destruct (IH _ eq_refl) as [Hm Hf].
    simpl. now rewrite Hi, Hm, Hp, Hf.
Qed.

(** X11.  When [on_event] returns, an event other than
    [thread.run.requires_action] has left the handler as it was; for that
    event the handler has the run identifier, both flags set, the answer
    text as before, and in place of its former outputs one output for each
    call of the batch, in the order of the calls and under their
    identifiers, each holding what [json.dumps] can write. *)
Theorem on_event_outputs_follow_the_calls (connector : Connector) (self : handler)
    (event data_id : string) (tool_calls : list tool_call) (after : handler) :
  on_event connector self event data_id tool_calls = inr after ->
  (event <> "thread.run.requires_action"%string /\ after = self)
  \/ (event = "thread.run.requires_action"%string
      /\ run_id after = Some data_id
      /\ tools_called after = true
      /\ all_tools_done after = true
      /\ response_text after = response_text self
      /\ map tool_call_id (tool_outputs after) = map call_id tool_calls
      /\ forallb (fun o => json_plain (output o)) (tool_outputs after) = true).
Proof.
  unfold on_event. destruct (String.eqb event _) eqn:E.
  - apply String.eqb_eq in E. unfold handle_requires_action.
    destruct (mapM (route connector) tool_calls) as [e|outs] eqn:Em; [discriminate|].
    cbn [bind ret]. intros H. injection H as <-. right.
    destruct (mapM_route_ids _ _ _ Em) as [Hi Hp]. simpl. auto 10.
  - apply String.eqb_neq in E. intros H. injection H as <-. now left.
Qed.

Lemma on_event_outputs_follow_the_calls_witness :
  let after :=
    {| response_text := ""; tool_outputs :=
         [{| tool_call_id := "call_1"; output := VDict [("count", VInt 8)] |};
          {| tool_call_id := "call_3"; output := VDict [("count", VInt 8)] |}];
       run_id := Some "run_1"; all_tools_done := true; tools_called := true |} in
  on_event (constant_connector (VDict [("count", VInt 8)])) new_handler
    "thread.run.requires_action" "run_1" [count_call; comments_call] = inr after
  /\ map tool_call_id (tool_outputs after) = map call_id [count_call; comments_call].
Proof.
  intros after. split; [reflexivity|].
  destruct (on_event_outputs_follow_the_calls
              (constant_connector (VDict [("count", VInt 8)])) new_handler
              "thread.run.requires_action" "run_1" [count_call; comments_call]
              after eq_refl) as [[Hne _]|(_ & _ & _ & _ & _ & H & _)].
  - exfalso. apply Hne. reflexivity.
  - exact H.
Defined.

(** X12.  The first failure decides a batch: the handler raises [e] exactly
    when some call raises [e] after every call before it has given its
    output, whatever the calls after it are. *)
Theorem first_failing_call_fails_the_batch (connector : Connector) (self : handler)
    (tool_calls : list tool_call) (e : string) :
  handle_requires_action connector self tool_calls = inl e
  <-> exists before call after outs,
        tool_calls = before ++ call :: after
        /\ mapM (route connector) before = inr outs
        /\ route connector call = inl e.
Proof.
  unfold handle_requires_action. split.
  - revert e. induction tool_calls as [|c r IH]; intros e H; [discriminate|].
    simpl in H. destruct (route connector c) as [e1|o] eqn:Er.
    + injection H as <-. exists [], c, r, []. auto.
    + cbn [bind] in H.
      destruct (mapM (route connector) r) as [e2|os] eqn:Em; [|discriminate].
      cbn [bind] in H. injection H as <-.
      destruct (IH e2 eq_refl) as (b & c' & a & outs & -> & Hb & Hc).
      exists (c :: b), c', a, (o :: outs). repeat split; auto.
      simpl. now rewrite Er, Hb.
  - intros (before & call & after & outs & -> & Hb & Hc).
    rewrite mapM_app, Hb. cbn [bind mapM]. now rewrite Hc.
Qed.

Lemma first_failing_call_fails_the_batch_witness :
  handle_requires_action (constant_connector (VDict [("count", VInt 8)]))
    new_handler [count_call; count_call_without_project; comments_call]
  = inl "'project_name'"%string.
Proof.
  apply (first_failing_call_fails_the_batch
           (constant_connector (VDict [("count", VInt 8)])) new_handler).
  exists [count_call], count_call_without_project, [comments_call],
    [{| tool_call_id := "call_1"; output := VDict [("count", VInt 8)] |}].
  repeat split.
Defined.

(* ===================================================================== *)
(** * The text of the answer *)
(* ===================================================================== *)

Lemma string_app_empty_r (s : string) : (s ++ "")%string = s.
Proof. induction s; simpl; congruence. Qed.

Lemma string_app_assoc (a b c : string) :
  (a ++ (b ++ c))%string = ((a ++ b) ++ c)%string.
Proof. induction a; simpl; congruence. Qed.

Lemma concat_cons (s : string) (l : list string) :
  String.concat "" (s :: l) = (s ++ String.concat "" l)%string.
Proof. destruct l; simpl; auto. now rewrite string_app_empty_r. Qed.

(** X13.  The answer text after a run of text deltas is the text before with
    the texts of the deltas appended in order; a delta without text and
    a delta with the empty text change nothing, and the deltas touch no
    other field of the handler. *)
Theorem text_deltas_accumulate (deltas : list (option string)) : forall self,
  let after := fold_left on_text_delta deltas self in
  response_text after
  = (response_text self ++ String.concat "" (map text_of deltas))%string
  /\ tool_outputs after = tool_outputs self
  /\ run_id after = run_id self
  /\ all_tools_done after = all_tools_done self
  /\ tools_called after = tools_called self.
Proof.
  induction deltas as [|d r IH]; intros self.
  - simpl. now rewrite string_app_empty_r.
  - cbn [fold_left map].
    destruct (IH (on_text_delta self d)) as (H1 & H2 & H3 & H4 & H5).
    cbv zeta. rewrite H1, H2, H3, H4, H5, concat_cons.
    unfold on_text_delta.
    destruct d as [s|]; [destruct s as [|c s]|]; simpl; repeat split; auto.
    now rewrite <- string_app_assoc.
Qed.

(* ===================================================================== *)
(** * The catalog and the router *)
(* ===================================================================== *)

Lemma entry_name_function_entry n d props required :
  entry_name (function_entry n d props required) = n.
Proof. reflexivity. Qed.

Lemma subscript_missing args k :
  has_key k args = false -> subscript (VDict args) k = inl ("'" ++ k ++ "'")%string.
Proof.
  unfold has_key, subscript, getitem. now destruct (dict_get k args).
Qed.

Lemma subscript_argument args k :
  has_key k args = true ->
  subscript (VDict args) k = inr (argument args k VNone).
Proof.
  unfold has_key, subscript, getitem, argument.
  now destruct (dict_get k args).
Qed.

Lemma route_outside_the_catalog connector id name a :
  ~ In name (map entry_name register_functions) ->
  route connector {| call_id := id; call_name := name; call_arguments := inr a |}
  = inr {| tool_call_id := id; output := unsupported |}.
Proof.
  intros H.
  apply (route_unsupported connector
           {| call_id := id; call_name := name; call_arguments := inr a |} a);
    [|reflexivity].
  intros Hin. apply H. exact Hin.
Qed.

Ltac dispatched Hreq key :=
  rewrite (subscript_argument _ key (Hreq key ltac:(simpl; tauto)));
  cbn [bind ret].

Ltac required_missing Hk Hm :=
  simpl in Hk; destruct Hk as [<-|[]]; unfold route;
  cbn [call_name call_arguments call_id bind String.eqb Ascii.eqb Bool.eqb];
  rewrite (subscript_missing _ _ Hm); eexists; reflexivity.

(** X14.  The router and the catalog go together.  Every required parameter
    of an entry of the catalog is declared.  A call of an entry whose
    arguments are a JSON object with every required parameter goes to the
    operation of the connector that has the name of the entry, with the
    declared parameters of the entry as operands, in the order in which
    they are declared, a parameter that is not given as [None];
    [fetch_project_issues] gets the page and the page size in addition,
    1 and 50 when they are not given.  The output of the call is what
    [json.dumps] makes of the result of the operation, under the
    identifier of the call.  A call that lacks a required parameter other
    than [filters] raises; a call of a name that no entry has gets the
    result for an unsupported function and no operation. *)
Theorem catalog_calls_are_dispatched (connector : Connector) (id : string)
    (entry : value) (args : dict) :
  In entry register_functions ->
  let call := {| call_id := id; call_name := entry_name entry;
                 call_arguments := inr (VDict args) |} in
  let declared := map (fun k => argument args k VNone) (entry_properties entry) in
  let paging :=
    if String.eqb (entry_name entry) "fetch_project_issues"
    then [argument args "page" (VInt 1); argument args "page_size" (VInt 50)]
    else [] in
  incl (entry_required entry) (entry_properties entry)
  /\ ((forall k, In k (entry_required entry) -> has_key k args = true) ->
      exists result,
        call_method connector (entry_name entry) (declared ++ paging) = Some result
        /\ route connector call
           = (text <- json_dumps result ;;
              ret {| tool_call_id := id; output := text |})
        /\ (json_plain result = true ->
            route connector call = inr {| tool_call_id := id; output := result |}))
  /\ (forall k, In k (entry_required entry) -> k <> "filters"%string ->
        has_key k args = false ->
        exists e, route connector call = inl e)
  /\ (forall name a,
        ~ In name (map entry_name register_functions) ->
        route connector
          {| call_id := id; call_name := name; call_arguments := inr a |}
        = inr {| tool_call_id := id; output := unsupported |}).
Proof.
  intros Hin call declared paging.
  assert (Hplain : forall result,
            route connector call
            = (text <- json_dumps result ;;
               ret {| tool_call_id := id; output := text |}) ->
            json_plain result = true ->
            route connector call = inr {| tool_call_id := id; output := result |}).
  { intros result Hr Hp. rewrite Hr, json_dumps_plain by exact Hp. reflexivity. }
  unfold register_functions in Hin. cbn [In] in Hin.
  destruct Hin as [<-|[<-|[<-|[<-|[<-|[<-|[<-|[]]]]]]]];
    subst declared paging; subst call;
    rewrite ?entry_name_function_entry in *;
    (split; [intros k Hk; simpl in Hk |- *; tauto|]);
    (split; [|split; [|intros; now apply route_outside_the_catalog]]).
  - intros Hreq. eexists. split; [reflexivity|].
    match goal with |- ?R = _ /\ _ =>
      assert (Hr : R = (text <- json_dumps
                          (conn_fetch_project_issues connector
                             (argument args "project_name" VNone)
                             (argument args "status" VNone)
                             (argument args "priority" VNone)
                             (argument args "issue_type" VNone)
                             (argument args "assignee_id" VNone)
                             (argument args "reporter_id" VNone)
                             (argument args "page" (VInt 1))
                             (argument args "page_size" (VInt 50))) ;;
                        ret {| tool_call_id := id; output := text |}))
    end.
    { unfold route.
      cbn [call_name call_arguments call_id bind ret args_get
           String.eqb Ascii.eqb Bool.eqb].
      dispatched Hreq "project_name"%string. reflexivity. }
    split; [exact Hr|now apply Hplain].
  - intros k Hk _ Hm. required_missing Hk Hm.
  - intros Hreq. eexists. split; [reflexivity|].
    match goal with |- ?R = _ /\ _ =>
      assert (Hr : R = (text <- json_dumps
                          (conn_get_issue_comments connector
                             (argument args "issue_id" VNone)) ;;
                        ret {| tool_call_id := id; output := text |}))
    end.
    { unfold route.
      cbn [call_name call_arguments call_id bind ret args_get
           String.eqb Ascii.eqb Bool.eqb].
      dispatched Hreq "issue_id"%string. reflexivity. }
    split; [exact Hr|now apply Hplain].
  - intros k Hk _ Hm. required_missing Hk Hm.
  - intros Hreq. eexists. split; [reflexivity|].
    match goal with |- ?R = _ /\ _ =>
      assert (Hr : R = (text <- json_dumps
                          (conn_count_issues connector
                             (argument args "project_name" VNone)
                             (argument args "status" VNone)
                             (argument args "priority" VNone)
                             (argument args "issue_type" VNone)
                             (argument args "assignee_id" VNone)
                             (argument args "reporter_id" VNone)) ;;
                        ret {| tool_call_id := id; output := text |}))
    end.
    { unfold route.
      cbn [call_name call_arguments call_id bind ret args_get
           String.eqb Ascii.eqb Bool.eqb].
      dispatched Hreq "project_name"%string. reflexivity. }
    split; [exact Hr|now apply Hplain].
  - intros k Hk _ Hm. required_missing Hk Hm.
  - intros Hreq. eexists. split; [reflexivity|].
    match goal with |- ?R = _ /\ _ =>
      assert (Hr : R = (text <- json_dumps
                          (conn_get_project_assignees connector
                             (argument args "project_name" VNone)
                             (argument args "status" VNone)
                             (argument args "priority" VNone)
                             (argument args "issue_type" VNone)
                             (argument args "reporter_id" VNone)) ;;
                        ret {| tool_call_id := id; output := text |}))
    end.
    { unfold route.
      cbn [call_name call_arguments call_id bind ret args_get
           String.eqb Ascii.eqb Bool.eqb].
      dispatched Hreq "project_name"%string. reflexivity. }
    split; [exact Hr|now apply Hplain].
  - intros k Hk _ Hm. required_missing Hk Hm.
  - intros Hreq. eexists. split; [reflexivity|].
    match goal with |- ?R = _ /\ _ =>
      assert (Hr : R = (text <- json_dumps
                          (conn_list_unique_values connector
                             (argument args "collection_name" VNone)
                             (argument args "attribute_name" VNone)
                             (argument args "filters" VNone)) ;;
                        ret {| tool_call_id := id; output := text |}))
    end.
    { unfold route.
      cbn [call_name call_arguments call_id bind ret args_get
           String.eqb Ascii.eqb Bool.eqb].
      dispatched Hreq "collection_name"%string.
      dispatched Hreq "attribute_name"%string. reflexivity. }
    split; [exact Hr|now apply Hplain].
  - intros k Hk Hf Hm. unfold route.
    cbn [call_name call_arguments call_id bind String.eqb Ascii.eqb Bool.eqb].
    simpl in Hk. destruct Hk as [<-|[<-|[<-|[]]]]; [| |congruence].
    + rewrite (subscript_missing _ _ Hm). eexists. reflexivity.
    + destruct (subscript (VDict args) "collection_name") as [e|v];
        [eexists; reflexivity|].
      cbn [bind]. rewrite (subscript_missing _ _ Hm). eexists. reflexivity.
  - intros Hreq. eexists. split; [reflexivity|].
    match goal with |- ?R = _ /\ _ =>
      assert (Hr : R = (text <- json_dumps
                          (conn_get_issue_details connector
                             (argument args "issue_identifier" VNone)) ;;
                        ret {| tool_call_id := id; output := text |}))
    end.
    { unfold route.
      cbn [call_name call_arguments call_id bind ret args_get
           String.eqb Ascii.eqb Bool.eqb].
      dispatched Hreq "issue_identifier"%string. reflexivity. }
    split; [exact Hr|now apply Hplain].
  - intros k Hk _ Hm. required_missing Hk Hm.
  - intros Hreq. eexists. split; [reflexivity|].
    match goal with |- ?R = _ /\ _ =>
      assert (Hr : R = (text <- json_dumps
                          (conn_analyze_developer_expertise connector
                             (argument args "project_name" VNone)
                             (argument args "component" VNone)
                             (argument args "keywords" VNone)) ;;
                        ret {| tool_call_id := id; output := text |}))
    end.
    { unfold route.
      cbn [call_name call_arguments call_id bind ret args_get
           String.eqb Ascii.eqb Bool.eqb].
      dispatched Hreq "project_name"%string. reflexivity. }
    split; [exact Hr|now apply Hplain].
  - intros k Hk _ Hm. required_missing Hk Hm.
Qed.

(** A call of [count_issues] with a status and no priority, routed to a
    connector that records its calls. *)
Lemma catalog_calls_are_dispatched_witness :
  route recording_connector
    {| call_id := "call_1"; call_name := "count_issues";
       call_arguments := inr (VDict [("status", VStr "Open");
                                     ("project_name", VStr "demo")]) |}
  = inr {| tool_call_id := "call_1";
           output := called "count_issues"
                       [VStr "demo"; VStr "Open"; VNone; VNone; VNone; VNone] |}.
Proof.
  assert (Hin : In (nth 2 register_functions VNone) register_functions).
  { right. right. left. reflexivity. }
  destruct (catalog_calls_are_dispatched recording_connector "call_1"
              (nth 2 register_functions VNone)
              [("status", VStr "Open"); ("project_name", VStr "demo")] Hin)
    as (_ & Hd & _).
  destruct Hd as (result & Hm & _ & Hr).
  { intros k [<-|[]]. reflexivity. }
  injection Hm as <-. apply Hr. reflexivity.
Defined.

(* ===================================================================== *)
(** * The order of the recommendations *)
(* ===================================================================== *)

Section Stable.
Context {A : Type} (key : A -> Z).

Lemma insert_desc_stable k x l :
  filter (fun y => key y =? k) (insert_desc key x l)
  = filter (fun y => key y =? k) (x :: l).
Proof.
  induction l as [|y r IH]; [reflexivity|].
  cbn [insert_desc]. destruct (key y <=? key x) eqn:E; [reflexivity|].
  apply Z.leb_gt in E. cbn [filter] in *. rewrite IH.
  destruct (key x =? k) eqn:Ex; [|reflexivity].
  apply Z.eqb_eq in Ex.
  assert (Ey : (key y =? k) = false) by (apply Z.eqb_neq; lia).
  now rewrite Ey.
Qed.

Lemma sort_desc_stable k l :
  filter (fun y => key y =? k) (sort_desc key l) = filter (fun y => key y =? k) l.
Proof.
  induction l as [|x r IH]; [reflexivity|].
  cbn [sort_desc fold_right]. fold (sort_desc key r).
  rewrite insert_desc_stable. cbn [filter]. now rewrite IH.
Qed.

Lemma sorted_head_is_max top rest :
  StronglySorted (fun a b => key b <= key a) (top :: rest) ->
  forall x, In x (top :: rest) -> key x <= key top.
Proof.
  intros H x [<-|Hx]; [lia|].
  inversion H as [|? ? _ Hall]; subst.
  rewrite Forall_forall in Hall. now apply Hall.
Qed.
End Stable.

Lemma candidates_nonneg db name component keywords assignees c :
  In c (candidates db name component keywords assignees) -> 0 <= score c.
Proof.
  unfold candidates. intros H. apply in_map_iff in H as (a & <- & _).
  apply score_nonneg.
Qed.

(** X15.  The order of the recommendations follows the order in which
    [get_project_assignees] lists the assignees, which is the order of
    iteration of a set and not the order of the store: the ranking keeps
    candidates with the same score in the order of that list.  Its first
    entry has the highest score of all candidates, every recommended
    score is at least 1, and three candidates are recommended unless
    fewer have a score.  Without a component and without keywords the
    score of a candidate is its resolved count. *)
Theorem ranking_is_stable (order : set_order) (db : database) (name : string)
    (component keywords : option string) (assignees : list value) :
  project_exists db name = true ->
  has_ids db = true ->
  scalar_assignees db = true ->
  patterns_modelled component keywords = true ->
  dict_get "assignees" (get_project_assignees order db name None None None None)
  = Some (VList assignees) ->
  let cs := candidates db name component keywords assignees in
  Permutation assignees (map serialize_mongo_doc (stored_assignees db name))
  /\ exists ranked,
       analyze_developer_expertise order db name component keywords
       = Some [("recommendations", VList (map recommendation (firstn 3 ranked)));
               ("total_candidates", VInt (Z.of_nat (List.length (scored cs))))]
       /\ (forall k, filter (fun c => score c =? k) ranked
                     = filter (fun c => score c =? k) (scored cs))
       /\ (forall top rest c, ranked = top :: rest -> In c cs -> score c <= score top)
       /\ (forall c, In c ranked -> 1 <= score c)
       /\ List.length (firstn 3 ranked) = Nat.min 3 (List.length (scored cs))
       /\ (given component = false -> given keywords = false ->
           forall c, In c cs -> score c = cand_resolved c).
Proof.
  intros He Hw Hs Hp Ha cs.
  rewrite get_project_assignees_all in Ha by assumption.
  cbn [dict_get String.eqb Ascii.eqb Bool.eqb] in Ha.
  assert (Hl : assignees
               = map serialize_mongo_doc (set_iter order (stored_assignees db name)))
    by congruence.
  clear Ha. subst assignees.
  split; [apply Permutation_map, set_iter_perm|].
  exists (sort_desc score (scored cs)).
  assert (Hpos : forall c, In c (sort_desc score (scored cs)) -> 1 <= score c).
  { intros c Hc. apply (Permutation_in _ (sort_desc_perm score _)) in Hc.
    unfold scored in Hc. apply filter_In in Hc as [Hc Hn].
    apply negb_true_iff, Z.eqb_neq in Hn.
    apply candidates_nonneg in Hc. lia. }
  split; [now apply analyze_developer_expertise_found|].
  split; [intros k; apply sort_desc_stable|].
  split; [|split; [exact Hpos|split]].
  - intros top rest c Hr Hc.
    assert (Htop : 1 <= score top) by (apply Hpos; rewrite Hr; now left).
    destruct (score c =? 0) eqn:E0.
    + apply Z.eqb_eq in E0. lia.
    + apply (sorted_head_is_max score top rest).
      * rewrite <- Hr. apply sort_desc_sorted.
      * rewrite <- Hr.
        apply (Permutation_in _ (Permutation_sym (sort_desc_perm score _))).
        unfold scored. apply filter_In. split; [exact Hc|]. now rewrite E0.
  - rewrite length_firstn. f_equal.
    apply Permutation_length, sort_desc_perm.
  - intros Hc Hk c Hin. unfold cs, candidates in Hin.
    apply in_map_iff in Hin as (a & <- & _).
    unfold score, candidate_of, component_experience_of, keyword_experience_of.
    cbn [cand_component cand_keyword cand_resolved]. rewrite Hc, Hk. lia.
Qed.

Lemma ranking_is_stable_witness :
  dict_get "assignees"
    (get_project_assignees reverse_order demo_db "demo" None None None None)
  = Some (VList [VStr "dev-dora"; VStr "dev-carl"; VStr "dev-bob"; VStr "dev-anna"])
  /\ exists ranked,
       analyze_developer_expertise reverse_order demo_db "demo" (Some ".") None
       = Some [("recommendations", VList (map recommendation (firstn 3 ranked)));
               ("total_candidates", VInt 4)]
       /\ List.length (firstn 3 ranked) = 3%nat.
Proof.
  split; [reflexivity|].
  destruct (ranking_is_stable reverse_order demo_db "demo" (Some ".") None
              [VStr "dev-dora"; VStr "dev-carl"; VStr "dev-bob"; VStr "dev-anna"]
              eq_refl eq_refl eq_refl eq_refl eq_refl)
    as (_ & ranked & Hr & _ & _ & _ & Hl & _).
  exists ranked. split; [exact Hr|exact Hl].
Defined.

(** With the component "." bob and carl have the same score: they are
    recommended in the order in which the set of the assignees is
    listed. *)
Example ties_follow_the_order_of_the_set :
  map (fun r => dict_get "developer_id" match r with VDict d => d | _ => [] end)
      match analyze_developer_expertise insertion_order demo_db "demo" (Some ".") None
      with
      | Some [(_, VList recommendations); _] => recommendations
      | _ => []
      end
  = [Some (VStr "dev-anna"); Some (VStr "dev-bob"); Some (VStr "dev-carl")]
  /\ map (fun r => dict_get "developer_id" match r with VDict d => d | _ => [] end)
         match analyze_developer_expertise reverse_order demo_db "demo" (Some ".") None
         with
         | Some [(_, VList recommendations); _] => recommendations
         | _ => []
         end
     = [Some (VStr "dev-anna"); Some (VStr "dev-carl"); Some (VStr "dev-bob")].
Proof. split; reflexivity. Qed.

(* ===================================================================== *)
(** * The objects of a normalized value *)
(* ===================================================================== *)

Lemma comprehension_extends {A B} (body : heap -> A -> option (heap * B)) :
  (forall h x h' y, body h x = Some (h', y) -> exists added, h' = h ++ added) ->
  forall l h h' out,
    comprehension body h l = Some (h', out) -> exists added, h' = h ++ added.
Proof.
  intros Hb. induction l as [|x r IH]; intros h h' out H; simpl in H.
  - injection H as <- <-. exists []. now rewrite app_nil_r.
  - destruct (body h x) as [[h1 y]|] eqn:E; [|discriminate].
    destruct (comprehension body h1 r) as [[h2 ys]|] eqn:Ec; [|discriminate].
    injection H as <- <-.
    destruct (Hb _ _ _ _ E) as (a1 & ->).
    destruct (IH _ _ _ Ec) as (a2 & ->).
    exists (a1 ++ a2). now rewrite app_assoc.
Qed.

Lemma serialize_heap_extends fuel : forall h a h' a',
  serialize_heap fuel h a = Some (h', a') -> exists added, h' = h ++ added.
Proof.
  induction fuel as [|f IH]; intros h a h' a' H; simpl in H; [discriminate|].
  destruct (nth_error h a) as [o|]; [|discriminate].
  destruct o;
    try (injection H as <- <-; exists []; now rewrite app_nil_r);
    try (injection H as <- <-; eexists; reflexivity).
  - destruct (comprehension _ h items) as [[h1 out]|] eqn:E; [|discriminate].
    injection H as <- <-.
    destruct (comprehension_extends _ IH _ _ _ _ E) as (added & ->).
    exists (added ++ [OList out]). now rewrite app_assoc.
  - destruct (comprehension _ h items) as [[h1 out]|] eqn:E; [|discriminate].
    injection H as <- <-.
    assert (Hb : forall h0 (x : string * nat) h2 y,
              match serialize_heap f h0 (snd x) with
              | Some (h3, r) => Some (h3, (fst x, r))
              | None => None
              end = Some (h2, y) -> exists added, h2 = h0 ++ added).
    { intros h0 x h2 y Hx.
      destruct (serialize_heap f h0 (snd x)) as [[h3 r]|] eqn:Es; [|discriminate].
      injection Hx as <- <-. eapply IH; eassumption. }
    destruct (comprehension_extends _ Hb _ _ _ _ E) as (added & ->).
    exists (added ++ [ODict out]). now rewrite app_assoc.
Qed.

(** X16.  What the normalizer returns for a list, a dict, an identifier or a
    datetime is a new object: its address is none of the heap before the
    call, so the result shares no container with the input.  Any other
    scalar is returned as the object it is, and the heap is unchanged. *)
Theorem serialize_heap_result_is_new (fuel : nat) (h : heap) (doc : nat)
    (h' : heap) (result : nat) :
  serialize_heap fuel h doc = Some (h', result) ->
  (exists added, h' = h ++ added)
  /\ (result < List.length h')%nat
  /\ match nth_error h doc with
     | Some (OList _) | Some (ODict _) | Some (OOid _) | Some (ODate _) =>
         (List.length h <= result)%nat
     | Some _ => result = doc /\ h' = h
     | None => False
     end.
Proof.
  intros H. split; [eapply serialize_heap_extends; exact H|].
  destruct fuel as [|f]; simpl in H; [discriminate|].
  destruct (nth_error h doc) as [o|] eqn:En; [|discriminate].
  assert (Hdoc : (doc < List.length h)%nat).
  { apply nth_error_Some. congruence. }
  destruct o; try (injection H as <- <-; auto);
    try (rewrite length_app; simpl; split; lia).
  - destruct (comprehension _ h items) as [[h1 out]|] eqn:E; [|discriminate].
    injection H as <- <-.
    destruct (comprehension_extends _ (serialize_heap_extends f) _ _ _ _ E)
      as (added & ->).
    rewrite !length_app. simpl. split; lia.
  - destruct (comprehension _ h items) as [[h1 out]|] eqn:E; [|discriminate].
    injection H as <- <-.
    assert (Hb : forall h0 (x : string * nat) h2 y,
              match serialize_heap f h0 (snd x) with
              | Some (h3, r) => Some (h3, (fst x, r))
              | None => None
              end = Some (h2, y) -> exists added, h2 = h0 ++ added).
    { intros h0 x h2 y Hx.
      destruct (serialize_heap f h0 (snd x)) as [[h3 r]|] eqn:Es; [|discriminate].
      injection Hx as <- <-. eapply serialize_heap_extends; eassumption. }
    destruct (comprehension_extends _ Hb _ _ _ _ E) as (added & ->).
    rewrite !length_app. simpl. split; lia.
Qed.

Lemma serialize_heap_result_is_new_witness :
  serialize_heap 3 sample_heap 4
  = Some (sample_heap ++ [OStr "5f0000000000000000000001";
                          OStr "5f0000000000000000000001";
                          OStr "2024-03-09T07:05:00";
                          OList [6; 7; 2]%nat;
                          ODict [("_id", 5%nat); ("tags", 8%nat)]], 9%nat)
  /\ (List.length sample_heap <= 9)%nat.
Proof.
  split; [reflexivity|].
  apply (serialize_heap_result_is_new 3 sample_heap 4 _ 9%nat eq_refl).
Defined.

(* ===================================================================== *)
(** * Assignees and issues *)
(* ===================================================================== *)

Lemma distinct_values_length eqb l : forall seen,
  (List.length (distinct_values eqb seen l) <= List.length seen + List.length l)%nat.
Proof.
  induction l as [|x r IH]; intros seen; simpl; [lia|].
  destruct (existsb (eqb x) seen).
  - specialize (IH seen). lia.
  - specialize (IH (seen ++ [x])). rewrite length_app in IH. simpl in IH. lia.
Qed.

Lemma assignee_values_length (issues : list document) :
  (List.length (flat_map (fun issue => match dict_get "assignee_id" issue with
                                       | Some v => [v]
                                       | None => []
                                       end) issues)
   <= List.length issues)%nat.
Proof.
  induction issues as [|d r IH]; simpl; auto.
  rewrite length_app. destruct (dict_get "assignee_id" d); simpl; lia.
Qed.

(** X17.  [get_project_assignees] looks at the issues [count_issues] counts
    under the same filters and no assignee filter: the two build the same
    query, and the number of assignees is at most the number of these
    issues. *)
Theorem assignees_at_most_issues (order : set_order) (db : database)
    (name : string) (s p t : option string) (r : option ident) :
  project_exists db name = true ->
  has_ids db = true ->
  scalar_assignees db = true ->
  (forall ids, get_project_assignees_query ids s p t r
               = count_issues_query ids s p t None r)
  /\ exists assignees issues,
       dict_get "count" (get_project_assignees order db name s p t r)
       = Some (VInt assignees)
       /\ count_issues db name s p t None r = [("count", VInt issues)]
       /\ 0 <= assignees <= issues.
Proof.
  intros He Hw Hs. split; [reflexivity|].
  do 2 eexists. split; [|split].
  - rewrite get_project_assignees_found by assumption.
    rewrite projected_values.
    rewrite set_of_scalars by (now apply assignee_values_hashable).
    reflexivity.
  - rewrite count_issues_found by assumption. reflexivity.
  - split; [lia|]. unfold count_documents. apply Nat2Z.inj_le.
    rewrite set_iter_length.
    etransitivity; [apply distinct_values_length|]. simpl.
    apply assignee_values_length.
Qed.

Lemma assignees_at_most_issues_witness :
  exists assignees issues,
    dict_get "count"
      (get_project_assignees reverse_order demo_db "demo" (Some "Open") None None None)
    = Some (VInt assignees)
    /\ count_issues demo_db "demo" (Some "Open") None None None None
       = [("count", VInt issues)]
    /\ 0 <= assignees <= issues.
Proof.
  apply (assignees_at_most_issues reverse_order demo_db "demo"
           (Some "Open") None None None
           eq_refl eq_refl eq_refl).
Defined.

Lemma find_first_unhashable vals v :
  In v vals -> hashable v = false ->
  exists w, List.find (fun v => negb (hashable v)) vals = Some w.
Proof.
  intros Hin Hv. destruct (List.find _ vals) as [w|] eqn:E; [now exists w|].
  apply (find_none _ _ E) in Hin. rewrite Hv in Hin. discriminate.
Qed.

(** X18.  One issue is enough to break the listing: when an issue the filters
    select holds a list or a dict in [assignee_id],
    [get_project_assignees] returns an error for the whole project, and
    so does the expertise analysis when the issue is of the project,
    while the issue is still counted. *)
Theorem unhashable_assignee_is_an_error (order : set_order) (db : database)
    (name : string) (s p t : option string) (r : option ident)
    (issue : document) (v : value) :
  project_exists db name = true ->
  has_ids db = true ->
  In issue (db_collection db "issue") ->
  selected (project_systems db name) s p t None r issue = true ->
  dict_get "assignee_id" issue = Some v ->
  hashable v = false ->
  (exists msg, get_project_assignees order db name s p t r = [("error", VStr msg)])
  /\ (exists n, count_issues db name s p t None r = [("count", VInt n)] /\ 1 <= n)
  /\ (s = None -> p = None -> t = None -> r = None ->
      forall component keywords,
        analyze_developer_expertise order db name component keywords
        = Some (get_project_assignees order db name None None None None)).
Proof.
  intros He Hw Hin Hsel Ha Hv.
  assert (Hm : In issue (find (db_collection db "issue")
                           (get_project_assignees_query (project_systems db name)
                              s p t r))).
  { change (get_project_assignees_query (project_systems db name) s p t r)
      with (fetch_project_issues_query (project_systems db name) s p t None r).
    rewrite find_fetch_query. apply filter_In. now split. }
  assert (Herr : exists msg,
            get_project_assignees order db name s p t r = [("error", VStr msg)]).
  { rewrite get_project_assignees_found by assumption.
    rewrite projected_values. unfold set_of.
    destruct (find_first_unhashable
                (flat_map (fun issue => match dict_get "assignee_id" issue with
                                        | Some v => [v]
                                        | None => []
                                        end)
                   (find (db_collection db "issue")
                      (get_project_assignees_query (project_systems db name)
                         s p t r))) v) as (w & Hw').
    - apply in_flat_map. exists issue. split; [exact Hm|]. rewrite Ha. now left.
    - exact Hv.
    - rewrite Hw'. eexists. reflexivity. }
  split; [exact Herr|]. split.
  - eexists. split; [rewrite count_issues_found by assumption; reflexivity|].
    unfold count_documents. rewrite find_fetch_query.
    assert (Hf : In issue (filter (selected (project_systems db name) s p t None r)
                             (db_collection db "issue"))).
    { apply filter_In. now split. }
    destruct (filter _ _); [contradiction|]. simpl. lia.
  - intros -> -> -> -> component keywords.
    destruct Herr as (msg & Herr).
    unfold analyze_developer_expertise. rewrite Herr. reflexivity.
Qed.

Lemma unhashable_assignee_is_an_error_witness :
  (exists msg,
     get_project_assignees insertion_order shared_issue_db "demo" None None None None
     = [("error", VStr msg)])
  /\ exists n,
       count_issues shared_issue_db "demo" None None None None None
       = [("count", VInt n)] /\ 1 <= n.
Proof.
  destruct (unhashable_assignee_is_an_error insertion_order shared_issue_db "demo"
              None None None None
              [("_id", VInt 4); ("issue_system_id", VInt 2);
               ("assignee_id", VList [VStr "dev-anna"; VStr "dev-bob"])]
              (VList [VStr "dev-anna"; VStr "dev-bob"])
              eq_refl eq_refl (or_intror (or_introl eq_refl)) eq_refl eq_refl eq_refl)
    as (H1 & H2 & _).
  split; [exact H1|exact H2].
Defined.

(* ===================================================================== *)
(** * The project resolver *)
(* ===================================================================== *)

(** X19.  [_get_issue_system_ids] resolves a project as the operations do.  For
    a project that is not there it returns the empty list, where the
    operations return the not-found error; for a project that is there
    its list scopes the count of the project; and when it raises, the
    operations return the text of its exception as their error. *)
Theorem resolver_agrees_with_operations (db : database) (name : string) :
  (forall ids,
     _get_issue_system_ids db name = inr ids ->
     (project_exists db name = false
      /\ ids = []
      /\ count_issues db name None None None None None = project_not_found name)
     \/ (project_exists db name = true
         /\ count_issues db name None None None None None
            = [("count",
                VInt (Z.of_nat (List.length
                        (filter (in_systems ids) (db_collection db "issue")))))]))
  /\ (forall e,
        _get_issue_system_ids db name = inl e ->
        count_issues db name None None None None None = [("error", VStr e)]
        /\ (forall order,
              get_project_assignees order db name None None None None
              = [("error", VStr e)])).
Proof.
  unfold _get_issue_system_ids, count_issues, get_project_assignees.
  destruct (project_exists db name) eqn:He.
  - unfold project_exists in He. rewrite <- existsb_field_eq in He.
    destruct (find_one_some _ _ He) as (project & Hf & _ & Hm).
    rewrite Hf, (named_project_truthy _ _ Hm). cbn [negb].
    destruct (getitem project "_id") as [e|pid]; cbn [bind].
    + split; [discriminate|]. intros e' H. injection H as <-. auto.
    + destruct (mapM _ _) as [e|ids]; cbn [bind ret catching].
      * split; [discriminate|]. intros e' H. injection H as <-. auto.
      * split; [|discriminate]. intros ids' H. injection H as <-. right.
        split; [reflexivity|]. unfold count_documents, find.
        do 5 f_equal. apply filter_ext. intros d.
        unfold count_issues_query. cbn [opt_text opt_ident truthy set_if].
        apply matches_in_systems.
  - rewrite (project_missing _ _ He). split; [|discriminate].
    intros ids H. injection H as <-. left. auto.
Qed.

Lemma resolver_agrees_with_operations_witness :
  _get_issue_system_ids demo_db "demo" = inr [VOid "5f00000000000000000000aa"]
  /\ count_issues demo_db "demo" None None None None None
     = [("count",
         VInt (Z.of_nat (List.length
                 (filter (in_systems [VOid "5f00000000000000000000aa"])
                         (db_collection demo_db "issue")))))].
Proof.
  split; [reflexivity|].
  destruct (proj1 (resolver_agrees_with_operations demo_db "demo")
              [VOid "5f00000000000000000000aa"] eq_refl)
    as [(Hne & _)|(_ & Hc)]; [discriminate Hne|exact Hc].
Defined.

(* ===================================================================== *)
(** * Edges of the paging *)
(* ===================================================================== *)

(** X20.  Two edges of the paging, for a project that is present.  A page and
    a page size whose offset [(page - 1) * page_size] is negative give the
    error of the store and no issue.  A page size of 0 switches the paging
    off: whatever the page, the fetch returns every filtered issue. *)
Theorem paging_edges (db : database) (name : string)
    (s p t : option string) (a r : option ident) :
  project_exists db name = true ->
  has_ids db = true ->
  let filtered :=
    find (db_collection db "issue")
         (fetch_project_issues_query (project_systems db name) s p t a r) in
  (forall page page_size,
     (page - 1) * page_size < 0 ->
     fetch_project_issues db name s p t a r page page_size
     = [("error", VStr "skip must be >= 0")])
  /\ (forall page,
        fetch_project_issues db name s p t a r page 0
        = [("issues", serialize_mongo_doc (VList (map VDict filtered)));
           ("page", VInt page);
           ("page_size", VInt 0);
           ("total_count", VInt (Z.of_nat (List.length filtered)))]).
Proof.
  intros He Hw filtered. split.
  - intros page page_size Hneg.
    rewrite fetch_project_issues_found by assumption. cbv zeta.
    unfold cursor_skip. apply Z.ltb_lt in Hneg. now rewrite Hneg.
  - intros page. rewrite fetch_project_issues_found by assumption. cbv zeta.
    rewrite Z.mul_0_r. reflexivity.
Qed.

Lemma paging_edges_witness :
  fetch_project_issues demo_db "demo" None None None None None 0 5
  = [("error", VStr "skip must be >= 0")]
  /\ fetched_issues (fetch_project_issues demo_db "demo" None None None None None 7 0)
     = map (fun d => serialize_mongo_doc (VDict d)) demo_issues.
Proof.
  destruct (paging_edges demo_db "demo" None None None None None eq_refl eq_refl)
    as (Hneg & Hzero).
  split; [apply Hneg; lia|]. rewrite Hzero. reflexivity.
Defined.

(* ===================================================================== *)
(** * Identifiers that are passed as they are *)
(* ===================================================================== *)

(** X21.  [get_issue_comments] compares its argument with the stored
    [issue_id] as it is.  It returns, in store order, the comments whose
    [issue_id] equals the argument; a comment that stores a native
    identifier is returned for no text, not even the text of that
    identifier, and a comment that stores a text for no native
    identifier. *)
Theorem comments_match_the_argument_as_given (db : database) (issue_id : ident) :
  get_issue_comments db issue_id
  = [("comments",
      VList (map (fun d => serialize_mongo_doc (VDict d))
                 (referring db "issue_comment" "issue_id" (ident_value issue_id))))]
  /\ (forall comment h s,
        dict_get "issue_id" comment = Some (VOid h) ->
        ~ In comment (referring db "issue_comment" "issue_id" (VStr s)))
  /\ (forall comment h s,
        dict_get "issue_id" comment = Some (VStr s) ->
        ~ In comment (referring db "issue_comment" "issue_id" (VOid h))).
Proof.
  split; [|split].
  - unfold get_issue_comments. cbn [bind ret catching]. rewrite find_referring.
    cbn [serialize_mongo_doc]. now rewrite map_map.
  - intros comment h s Hc Hin. unfold referring in Hin.
    apply filter_In in Hin as [_ Hm]. rewrite Hc in Hm. discriminate.
  - intros comment h s Hc Hin. unfold referring in Hin.
    apply filter_In in Hin as [_ Hm]. rewrite Hc in Hm. discriminate.
Qed.

Lemma comments_match_the_argument_as_given_witness :
  get_issue_comments tracker_db (IdText "5f00000000000000000000b1")
  = [("comments", VList [])]
  /\ ~ In [("_id", VInt 1); ("issue_id", VOid "5f00000000000000000000b1");
           ("comment", VStr "seen")]
          (referring tracker_db "issue_comment" "issue_id"
             (VStr "5f00000000000000000000b1")).
Proof.
  destruct (comments_match_the_argument_as_given tracker_db
              (IdText "5f00000000000000000000b1")) as (Hr & Hn & _).
  split; [exact Hr|].
  apply (Hn _ "5f00000000000000000000b1" "5f00000000000000000000b1"). reflexivity.
Defined.

Lemma native_is_scalar db : native_assignees db = true -> scalar_assignees db = true.
Proof.
  unfold native_assignees, scalar_assignees. rewrite !forallb_forall.
  intros H issue Hi. specialize (H issue Hi).
  destruct (dict_get "assignee_id" issue) as [[]|]; auto; discriminate.
Qed.

Lemma native_never_text db s issue :
  native_assignees db = true ->
  In issue (db_collection db "issue") ->
  assigned_to (VStr s) issue = false.
Proof.
  unfold native_assignees, assigned_to. rewrite forallb_forall.
  intros H Hi. specialize (H issue Hi).
  destruct (dict_get "assignee_id" issue) as [[]|]; try discriminate; reflexivity.
Qed.

Lemma filter_none {A} (f : A -> bool) (l : list A) :
  (forall x, In x l -> f x = false) -> filter f l = [].
Proof.
  induction l as [|x r IH]; simpl; intros H; auto.
  rewrite (H x (or_introl eq_refl)). apply IH. intros y Hy. apply H. now right.
Qed.

Lemma count_issues_where_native db name s extra :
  native_assignees db = true ->
  count_issues_where db name (VStr s) extra = 0.
Proof.
  intros H. unfold count_issues_where. rewrite filter_none; [reflexivity|].
  intros issue Hi. rewrite (native_never_text _ _ _ H Hi).
  now rewrite andb_false_r.
Qed.

Lemma native_candidate_text db name v :
  native_assignees db = true ->
  In v (stored_assignees db name) ->
  truthy (serialize_mongo_doc v) = true ->
  exists s, serialize_mongo_doc v = VStr s.
Proof.
  intros H Hv Ht. apply distinct_values_from in Hv as [[]|Hv].
  apply in_flat_map in Hv as (issue & Hi & Hv).
  apply find_In in Hi as [Hi _].
  unfold native_assignees in H. rewrite forallb_forall in H. specialize (H _ Hi).
  destruct (dict_get "assignee_id" issue) as [w|]; [|contradiction].
  destruct Hv as [->|[]].
  destruct v; try discriminate; [now exists hex].
Qed.

(** X22.  In a store whose assignees are native identifiers, the expertise
    analysis recommends nobody: it looks every assignee up under the text
    of the identifier, which no stored identifier equals, so every count
    is 0 whatever the component and the keywords are. *)
Theorem native_assignees_are_never_recommended (order : set_order) (db : database)
    (name : string) (component keywords : option string) :
  project_exists db name = true ->
  has_ids db = true ->
  native_assignees db = true ->
  patterns_modelled component keywords = true ->
  analyze_developer_expertise order db name component keywords
  = Some [("recommendations", VList []); ("total_candidates", VInt 0)]
  /\ forall s,
       cand_component (candidate_of db name component keywords (VStr s)) = 0
       /\ cand_keyword (candidate_of db name component keywords (VStr s)) = 0
       /\ cand_resolved (candidate_of db name component keywords (VStr s)) = 0.
Proof.
  intros He Hw Hn Hp.
  assert (Hz : forall s,
            cand_component (candidate_of db name component keywords (VStr s)) = 0
            /\ cand_keyword (candidate_of db name component keywords (VStr s)) = 0
            /\ cand_resolved (candidate_of db name component keywords (VStr s)) = 0).
  { intros s. unfold candidate_of, component_experience_of, keyword_experience_of,
      resolved_count_of. cbn [cand_component cand_keyword cand_resolved].
    rewrite !(count_issues_where_native _ _ _ _ Hn).
    destruct (given component), (given keywords); auto. }
  split; [|exact Hz].
  rewrite analyze_developer_expertise_found by (auto using native_is_scalar).
  cbv zeta.
  assert (Hs : scored (candidates db name component keywords
                         (map serialize_mongo_doc
                            (set_iter order (stored_assignees db name)))) = []).
  { unfold scored. apply filter_none. intros c Hc.
    unfold candidates in Hc. apply in_map_iff in Hc as (a & <- & Ha).
    apply filter_In in Ha as [Ha Ht].
    apply in_map_iff in Ha as (v & <- & Hv). apply set_iter_In in Hv.
    destruct (native_candidate_text _ _ _ Hn Hv Ht) as (s & ->).
    destruct (Hz s) as (H1 & H2 & H3).
    unfold score. now rewrite H1, H2, H3. }
  rewrite Hs. reflexivity.
Qed.

Lemma native_assignees_are_never_recommended_witness :
  project_exists native_only_db "demo" = true
  /\ has_ids native_only_db = true
  /\ native_assignees native_only_db = true
  /\ patterns_modelled (Some "ui") (Some "crash") = true
  /\ analyze_developer_expertise reverse_order native_only_db "demo"
       (Some "ui") (Some "crash")
     = Some [("recommendations", VList []); ("total_candidates", VInt 0)].
Proof.
  split; [reflexivity|]. split; [reflexivity|]. split; [reflexivity|].
  split; [reflexivity|].
  apply (proj1 (native_assignees_are_never_recommended reverse_order
                  native_only_db "demo"
                  (Some "ui") (Some "crash") eq_refl eq_refl eq_refl eq_refl)).
Defined.
